(** * Partition routing and fan-out queries of the job board

    A shallow embedding of the [models/] layer of the local employment
    system: the storage client of [models/mongodb.py], the worker
    repository of [models/user_model_mongo.py], the job repository of
    [models/job_model_mongo.py] and the application repository of
    [models/application_model_mongo.py].

    Documents are finite maps from field names to values, a database is a
    finite map from collection names to the list of documents of each
    collection in natural (insertion) order, and every repository function
    is a computation in a state-and-exception monad over the database. *)

From Stdlib Require Import ZArith QArith String Ascii List DecimalString.
From stdpp Require Import base option list gmap strings sorting.

Close Scope Q_scope.
Local Open Scope string_scope.
Local Open Scope Z_scope.

(** ** Values and documents *)

(** An [ObjectId] is a 12-byte value; [str] prints it as 24 hexadecimal
    digits. *)
Definition oid := N.
Bind Scope N_scope with oid.

(** [datetime]: the year, and the microseconds elapsed since the start of
    that year.  Datetimes compare lexicographically. *)
Record datetime := mk_datetime { dt_year : Z; dt_tick : Z }.

Definition datetime_min : datetime := mk_datetime 1 0.

Definition dt_leb (a b : datetime) : bool :=
  (dt_year a <? dt_year b) || ((dt_year a =? dt_year b) && (dt_tick a <=? dt_tick b)).

Definition dt_le (a b : datetime) : Prop := dt_leb a b = true.

(** The scalar values that the documents of this program hold. *)
Inductive value :=
| VNull
| VBool (b : bool)
| VInt (z : Z)
| VFloat (q : Q)
| VStr (s : string)
| VId (o : oid)
| VDate (t : datetime).

#[global] Instance datetime_eq_dec : EqDecision datetime.
Proof. solve_decision. Defined.

#[global] Instance Q_eq_dec : EqDecision Q.
Proof. solve_decision. Defined.

#[global] Instance value_eq_dec : EqDecision value.
Proof. solve_decision. Defined.

(** A document (a Python [dict], a BSON document). *)
Abbreviation doc := (gmap string value).

(** ** Exceptions and results *)

Inductive exn :=
| ValueError (msg : string)
| KeyError (key : string)
| TypeError
| DuplicateKeyError
| OperationFailure.

Inductive result (A : Type) :=
| Ok (a : A)
| Err (e : exn).

Arguments Ok {A} a.
Arguments Err {A} e.

(** ** Strings *)

Definition hex_digit (n : N) : ascii :=
  match n with
  | 0 => "0" | 1 => "1" | 2 => "2" | 3 => "3" | 4 => "4" | 5 => "5"
  | 6 => "6" | 7 => "7" | 8 => "8" | 9 => "9" | 10 => "a" | 11 => "b"
  | 12 => "c" | 13 => "d" | 14 => "e" | _ => "f"
  end%N%char.

Fixpoint hex_fixed (width : nat) (n : N) : string :=
  match width with
  | O => ""
  | S w => hex_fixed w (n / 16)%N +:+ String (hex_digit (n mod 16)%N) ""
  end.

(** [str(ObjectId)]. *)
Definition oid_str (o : oid) : string := hex_fixed 24 o.

Definition hex_value (c : ascii) : option N :=
  let n := N_of_ascii c in
  if (48 <=? n)%N && (n <=? 57)%N then Some (n - 48)%N
  else if (97 <=? n)%N && (n <=? 102)%N then Some (n - 87)%N
  else if (65 <=? n)%N && (n <=? 70)%N then Some (n - 55)%N
  else None.

Fixpoint hex_parse (acc : N) (s : string) : option N :=
  match s with
  | "" => Some acc
  | String c s' =>
      match hex_value c with
      | Some d => hex_parse (16 * acc + d)%N s'
      | None => None
      end
  end.

(** [str(int)]. *)
Definition int_str (z : Z) : string := NilZero.string_of_int (Z.to_int z).

Definition ascii_lower (c : ascii) : ascii :=
  let n := N_of_ascii c in
  if (65 <=? n)%N && (n <=? 90)%N then ascii_of_N (n + 32) else c.

(** [str.lower], on ASCII letters. *)
Fixpoint lower (s : string) : string :=
  match s with
  | "" => ""
  | String c s' => String (ascii_lower c) (lower s')
  end.

(** The ASCII characters that [str.strip] removes. *)
Definition is_space (c : ascii) : bool :=
  let n := N_of_ascii c in
  ((9 <=? n)%N && (n <=? 13)%N) || ((28 <=? n)%N && (n <=? 32)%N).

Fixpoint lstrip (s : string) : string :=
  match s with
  | "" => ""
  | String c s' => if is_space c then lstrip s' else s
  end.

(** [str.strip]. *)
Definition strip (s : string) : string :=
  String.rev (lstrip (String.rev (lstrip s))).

(** [s.split(sep)] for a one-character separator: [cur] holds the piece
    being read, reversed. *)
Fixpoint split_go (sep : ascii) (cur : string) (s : string) : list string :=
  match s with
  | "" => [String.rev cur]
  | String c s' =>
      if Ascii.eqb c sep then String.rev cur :: split_go sep "" s'
      else split_go sep (String c cur) s'
  end.

Definition split (sep : ascii) (s : string) : list string := split_go sep "" s.

(** [hay.find(needle) >= 0]. *)
Fixpoint is_substring (needle hay : string) : bool :=
  String.prefix needle hay ||
  match hay with
  | "" => false
  | String _ hay' => is_substring needle hay'
  end.

(** ** The runtime that the program relies on

    Python's built-in string hash (seeded per process), its conversions
    between floats and strings, the regular-expression engine of the
    database and the [$sort] stage of its aggregation pipelines are not part
    of the repository; the model takes them as an interface.  The sort
    stage is known to permute its input and, on documents whose [posted_at]
    is a datetime or missing, to order it most recent first. *)

(** The key that [x.get("posted_at", datetime.min)] reads; [None] for a
    value that a datetime does not compare with. *)
Definition posted_key (d : doc) : option datetime :=
  match d !! "posted_at" with
  | None => Some datetime_min
  | Some (VDate t) => Some t
  | Some _ => None
  end.

Definition key_or_min (d : doc) : datetime := default datetime_min (posted_key d).

(** [a] may stand before [b] in a list ordered by [posted_at] descending. *)
Definition posted_ge (a b : doc) : Prop := dt_le (key_or_min b) (key_or_min a).

(** Every Python [datetime] is at or after [datetime.min]. *)
Definition dated (d : doc) : Prop :=
  match d !! "posted_at" with
  | None => True
  | Some (VDate t) => dt_le datetime_min t
  | Some _ => False
  end.

Class Runtime := {
  str_hash : string → Z;
  float_of_string : string → option Q;
  repr_float : Q → string;
  str_datetime : datetime → string;
  regex_compiles : string → bool;
  regex_search_i : string → string → bool;
  mongo_sort_posted_desc : list doc → list doc;
  mongo_sort_perm : ∀ l, mongo_sort_posted_desc l ≡ₚ l;
  mongo_sort_sorted : ∀ l,
    Forall dated l → Sorted posted_ge (mongo_sort_posted_desc l)
}.

(** ** The database and the monad of repository calls *)

(** [colls]: the collections that exist, each with its documents in natural
    order.  [next_oid]: the [ObjectId] that the driver generates next. *)
Record db := mk_db { colls : gmap string (list doc); next_oid : oid }.

(** A call reads and writes the database and returns or raises; what it
    wrote before raising stays written. *)
Definition M (A : Type) : Type := db → result A * db.

#[global] Instance M_ret : MRet M := λ A a s, (Ok a, s).

#[global] Instance M_bind : MBind M := λ A B f m s,
  match m s with
  | (Ok a, s') => f a s'
  | (Err e, s') => (Err e, s')
  end.

Definition raise {A} (e : exn) : M A := λ s, (Err e, s).

(** Lifts a computation that only raises. *)
Definition lift {A} (r : result A) : M A := λ s, (r, s).

(** Lifts a read of the database. *)
Definition gets {A} (f : db → A) : M A := λ s, (Ok (f s), s).

Definition set_coll (name : string) (docs : list doc) (s : db) : db :=
  mk_db (<[name := docs]> (colls s)) (next_oid s).

(** ** Storage client ([models/mongodb.py]) *)

(** The documents of a collection; a collection that does not exist reads
    as empty. *)
Definition get_collection (name : string) (s : db) : list doc :=
  default [] (colls s !! name).

(** [db.list_collection_names()]. *)
Definition list_collection_names (s : db) : list string :=
  (map_to_list (colls s)).*1.

(** Queries are predicates on documents. *)
Definition field_is (key : string) (v : value) (d : doc) : bool :=
  bool_decide (d !! key = Some v).

Definition find_one (name : string) (query : doc → bool) : M (option doc) :=
  gets (λ s, List.find query (get_collection name s)).

(** The driver adds a generated [_id] to a document that has none (the
    caller's dictionary is mutated: the document as sent is returned with
    the inserted id); the server refuses an [_id] already in the
    collection. *)
Definition insert_one (name : string) (document : doc) : M (value * doc) :=
  λ s,
    let '(document, s) :=
      match document !! "_id" with
      | Some _ => (document, s)
      | None => (<["_id" := VId (next_oid s)]> document,
                 mk_db (colls s) (N.succ (next_oid s)))
      end in
    let inserted_id := default VNull (document !! "_id") in
    if existsb (field_is "_id" inserted_id) (get_collection name s)
    then (Err DuplicateKeyError, s)
    else (Ok (inserted_id, document),
          set_coll name (get_collection name s ++ [document]) s).

(** Replaces the first document that satisfies [query] by its image. *)
Fixpoint update_first (query : doc → bool) (f : doc → doc) (l : list doc) : list doc :=
  match l with
  | [] => []
  | d :: l' => if query d then f d :: l' else d :: update_first query f l'
  end.

(** [update_one] with a [$set] update; returns [modified_count], which does
    not count a matched document that the update leaves as it was. *)
Definition update_one (name : string) (query : doc → bool) (set_fields : doc) : M Z :=
  λ s,
    match List.find query (get_collection name s) with
    | Some d =>
        if bool_decide (set_fields ∪ d = d) then (Ok 0, s)
        else (Ok 1, set_coll name (update_first query (λ d, set_fields ∪ d) (get_collection name s)) s)
    | None => (Ok 0, s)
    end.

Fixpoint remove_first (query : doc → bool) (l : list doc) : list doc :=
  match l with
  | [] => []
  | d :: l' => if query d then l' else d :: remove_first query l'
  end.

(** Returns [deleted_count]. *)
Definition delete_one (name : string) (query : doc → bool) : M Z :=
  λ s,
    match List.find query (get_collection name s) with
    | Some _ => (Ok 1, set_coll name (remove_first query (get_collection name s)) s)
    | None => (Ok 0, s)
    end.

Definition delete_many (name : string) (query : doc → bool) : M Z :=
  λ s,
    match List.find query (get_collection name s) with
    | Some _ =>
        (Ok (Z.of_nat (length (List.filter query (get_collection name s)))),
         set_coll name (List.filter (λ d, negb (query d)) (get_collection name s)) s)
    | None => (Ok 0, s)
    end.

Section Model.
Context `{Runtime}.

(** [str(v)]. *)
Definition py_str (v : value) : string :=
  match v with
  | VNull => "None"
  | VBool true => "True"
  | VBool false => "False"
  | VInt z => int_str z
  | VFloat q => repr_float q
  | VStr s => s
  | VId o => oid_str o
  | VDate t => str_datetime t
  end.

(** [bool(v)]. *)
Definition truthy (v : value) : bool :=
  match v with
  | VNull => false
  | VBool b => b
  | VInt z => negb (z =? 0)
  | VFloat q => negb (Qnum q =? 0)
  | VStr s => negb (String.eqb s "")
  | VId _ | VDate _ => true
  end.

(** [float(v)]. *)
Definition py_float (v : value) : result Q :=
  match v with
  | VInt z => Ok (inject_Z z)
  | VFloat q => Ok q
  | VBool b => Ok (inject_Z (if b then 1 else 0))
  | VStr s =>
      match float_of_string s with
      | Some q => Ok q
      | None => Err (ValueError ("could not convert string to float: '" +:+ s +:+ "'"))
      end
  | VNull | VId _ | VDate _ => Err TypeError
  end.

(** [to_object_id]: an [ObjectId] is returned as it is, a string of 24
    hexadecimal digits is parsed, anything else is refused. *)
Definition to_object_id (id_str : value) : result value :=
  match id_str with
  | VId o => Ok (VId o)
  | VStr s =>
      match (if Nat.eqb (String.length s) 24 then hex_parse 0 s else None) with
      | Some o => Ok (VId o)
      | None => Err (ValueError ("Invalid ObjectId: " +:+ s))
      end
  | v => Err (ValueError ("Invalid ObjectId: " +:+ py_str v))
  end.

(** The opening of every repository function:
    [if isinstance(x, str): x = to_object_id(x)]. *)
Definition id_of_arg (x : value) : result value :=
  match x with
  | VStr _ => to_object_id x
  | _ => Ok x
  end.

Definition serialize_value (v : value) : value :=
  match v with
  | VId o => VStr (oid_str o)
  | _ => v
  end.

(** [serialize_doc] on a document: [_id] becomes the string [id], every
    other [ObjectId] becomes its string.  The database returns [_id] as the
    first field, so a field named [id] of the document itself is written
    after it and stays. *)
Definition serialize_doc (d : doc) : doc :=
  (serialize_value <$> delete "_id" d) ∪
  match d !! "_id" with
  | Some v => {[ "id" := VStr (py_str v) ]}
  | None => ∅
  end.

(** *** Partitioning functions *)

(** [hash_partition]; every caller passes a positive [num_partitions], for
    which Python's [%] is [Z.modulo]. *)
Definition hash_partition (v : value) (num_partitions : Z) : Z :=
  str_hash (py_str v) `mod` num_partitions.

Definition get_worker_partition_collection (worker_id : value) : string :=
  let partition_num := hash_partition worker_id 8 in
  "workers_partition_" +:+ int_str partition_num.

Definition get_jobs_partition_collection (year : Z) : string :=
  "jobs_" +:+ int_str year.

Definition get_all_worker_partitions : list string :=
  (λ i, "workers_partition_" +:+ int_str i) <$> seqZ 0 8.

(** [d[key]]. *)
Definition getitem (d : doc) (key : string) : M value :=
  match d !! key with
  | Some v => mret v
  | None => raise (KeyError key)
  end.

(** [d.get(key, dflt)]. *)
Definition get_or (d : doc) (key : string) (dflt : value) : value :=
  default dflt (d !! key).

(** ** Worker repository ([models/user_model_mongo.py]) *)

(** The loop of [_find_worker_in_partitions] over the partitions still to
    visit.  A document that the query selects is not empty, so it is
    truthy. *)
Fixpoint find_in_partitions (names : list string) (query : doc → bool) : M (option doc) :=
  match names with
  | [] => mret None
  | partition_name :: names =>
      worker ← find_one partition_name query;
      match worker with
      | Some worker => mret (Some (serialize_doc worker))
      | None => find_in_partitions names query
      end
  end.

Definition _find_worker_in_partitions (query : doc → bool) : M (option doc) :=
  find_in_partitions get_all_worker_partitions query.

(** The [worker_doc] that [ensure_worker_row] builds. *)
Definition new_worker_doc (user_id full_name skills : value) (now : datetime) : doc :=
  {[ "user_id" := user_id; "full_name" := full_name; "skills" := skills;
     "phone" := VStr ""; "location" := VStr ""; "experience" := VStr "";
     "created_at" := VDate now ]}.

(** [now] is the reading of [datetime.utcnow()]. *)
Definition ensure_worker_row (user_id full_name skills : value) (now : datetime) : M doc :=
  user_id ← lift (id_of_arg user_id);
  worker ← _find_worker_in_partitions (field_is "user_id" user_id);
  match worker with
  | None =>
      let worker_doc := new_worker_doc user_id full_name skills now in
      '(worker_id, worker_doc) ← insert_one "workers" worker_doc;
      let partition_coll := get_worker_partition_collection worker_id in
      let worker_doc := <["_id" := worker_id]> worker_doc in
      _ ← insert_one partition_coll worker_doc;
      _ ← delete_one "workers" (field_is "_id" worker_id);
      mret {[ "worker_id" := VStr (py_str worker_id); "user_id" := VStr (py_str user_id) ]}
  | Some worker =>
      let worker := serialize_doc worker in
      id ← getitem worker "id";
      mret (<["worker_id" := id]> worker)
  end.

Definition get_worker_by_id (worker_id : value) : M (option doc) :=
  worker_id ← lift (id_of_arg worker_id);
  let partition_coll := get_worker_partition_collection worker_id in
  worker ← find_one partition_coll (field_is "_id" worker_id);
  match worker with
  | Some worker =>
      let worker := serialize_doc worker in
      id ← getitem worker "id";
      let worker := <["worker_id" := id]> worker in
      user_id ← getitem worker "user_id";
      mret (Some (<["user_id" := VStr (py_str user_id)]> worker))
  | None =>
      worker ← _find_worker_in_partitions (field_is "_id" worker_id);
      match worker with
      | Some worker =>
          id ← getitem worker "id";
          mret (Some (<["worker_id" := id]> worker))
      | None => mret None
      end
  end.

Definition delete_user (user_id : value) : M Z :=
  user_id ← lift (id_of_arg user_id);
  user ← find_one "users" (field_is "_id" user_id);
  match user with
  | Some _ =>
      _ ← delete_one "workers" (field_is "user_id" user_id);
      _ ← delete_one "employers" (field_is "user_id" user_id);
      _ ← delete_one "admins" (field_is "user_id" user_id);
      delete_one "users" (field_is "_id" user_id)
  | None => mret 0
  end.

(** ** Application repository ([models/application_model_mongo.py]) *)

(** [now1] and [now2] are the two readings of [datetime.utcnow()]. *)
Definition create_application (job_id worker_id : value) (now1 now2 : datetime) : M value :=
  job_id ← lift (id_of_arg job_id);
  worker_id ← lift (id_of_arg worker_id);
  existing ← find_one "applications"
    (λ d, field_is "job_id" job_id d && field_is "worker_id" worker_id d);
  match existing with
  | Some _ => raise (ValueError "Application already exists for this job")
  | None =>
      let application_doc : doc :=
        {[ "job_id" := job_id; "worker_id" := worker_id;
           "application_status" := VStr "pending";
           "applied_at" := VDate now1; "created_at" := VDate now2 ]} in
      '(inserted_id, _) ← insert_one "applications" application_doc;
      mret inserted_id
  end.

(** ** Job repository ([models/job_model_mongo.py]) *)

(** [float(data.get(key, 0)) if data.get(key) else None]. *)
Definition salary_field (data : doc) (key : string) : result value :=
  if truthy (get_or data key VNull)
  then match py_float (get_or data key (VInt 0)) with
       | Ok q => Ok (VFloat q)
       | Err e => Err e
       end
  else Ok VNull.

(** The [job_doc] that [post_job] builds. *)
Definition new_job_doc (employer_id : value) (data : doc) (salary_min salary_max : value)
    (posted_at : datetime) : doc :=
  {[ "employer_id" := employer_id;
     "title" := get_or data "title" (VStr "");
     "required_skills" := get_or data "required_skills" (VStr "");
     "description" := get_or data "description" (VStr "");
     "salary_min" := salary_min;
     "salary_max" := salary_max;
     "location" := get_or data "location" (VStr "");
     "status" := VStr "open";
     "posted_at" := VDate posted_at;
     "created_at" := VDate posted_at ]}.

(** [posted_at] is the reading of [datetime.utcnow()]. *)
Definition post_job (employer_id : value) (data : doc) (posted_at : datetime) : M value :=
  employer_id ← lift (id_of_arg employer_id);
  salary_min ← lift (salary_field data "salary_min");
  salary_max ← lift (salary_field data "salary_max");
  let job_doc := new_job_doc employer_id data salary_min salary_max posted_at in
  let year := dt_year posted_at in
  let partition_coll := get_jobs_partition_collection year in
  '(inserted_id, _) ← insert_one partition_coll job_doc;
  mret inserted_id.

Definition _get_all_job_partitions (s : db) : list string :=
  List.filter (λ c, String.prefix "jobs_" c && negb (String.eqb c "jobs"))
    (list_collection_names s).

(** *** Aggregation stages *)

(** [{key: {"$regex": pattern, "$options": "i"}}]: only a string field
    matches a pattern. *)
Definition regex_field (key pattern : string) (d : doc) : bool :=
  match d !! key with
  | Some (VStr text) => regex_search_i pattern text
  | _ => false
  end.

(** [{key: {"$exists": False}}]. *)
Definition field_missing (key : string) (d : doc) : bool :=
  bool_decide (d !! key = None).

(** [{key: None}] selects a null field and a missing one. *)
Definition field_null (key : string) (d : doc) : bool :=
  field_missing key d || field_is key VNull d.

(** An inclusion [$project] keeps the listed fields that the document has. *)
Definition pick (keys : list string) (d : doc) : doc :=
  foldr (λ key acc, match d !! key with
                    | Some v => <[key := v]> acc
                    | None => acc
                    end) ∅ keys.

(** [{"$toString": "$_id"}]: null on a missing or null field; the [_id] of
    a stored document is an [ObjectId], printed as [str] prints it. *)
Definition to_string_field (key : string) (d : doc) : value :=
  match d !! key with
  | None | Some VNull => VNull
  | Some v => VStr (py_str v)
  end.

(** A computed field whose path is missing is left out. *)
Definition set_opt (key : string) (v : option value) (d : doc) : doc :=
  match v with
  | Some v => <[key := v]> d
  | None => d
  end.

(** [$lookup] from [employers] on [employer_id = _id] (a missing field
    joins as null), then [$unwind]: one row per employer found, none when
    there is no employer. *)
Definition lookup_employers (s : db) (job : doc) : list doc :=
  List.filter
    (λ e, bool_decide (get_or e "_id" VNull = get_or job "employer_id" VNull))
    (get_collection "employers" s).

(** The [$lookup] of the applications of [worker_id] to the job. *)
Definition lookup_applications (s : db) (worker_id : value) (job : doc) : list doc :=
  List.filter
    (λ a, bool_decide (a !! "job_id" = job !! "_id") &&
          bool_decide (a !! "worker_id" = Some worker_id))
    (get_collection "applications" s).

(** The [$addFields] stage: null without application, else the first
    [application_status] that the applications hold; when they hold none
    the expression is missing and the row gets no such field. *)
Definition application_status (application : list doc) : option value :=
  match application with
  | [] => Some VNull
  | _ => head (omap (λ a, a !! "application_status") application)
  end.

Definition matched_project (job employer : doc) (application : list doc) : doc :=
  set_opt "company_location" (employer !! "location")
    (set_opt "company_phone" (employer !! "phone")
      (set_opt "company_name" (employer !! "company_name")
        (set_opt "application_status" (application_status application)
          (<["job_id" := to_string_field "_id" job]>
            (pick ["_id"; "title"; "location"; "posted_at"; "required_skills";
                   "description"; "salary_min"; "salary_max"] job))))).

(** The [$match] stage of [worker_matched_jobs]. *)
Definition matched_filter (worker_skills : list string) (location : option string)
    (job : doc) : bool :=
  field_is "status" (VStr "open") job &&
  existsb (λ skill, regex_field "required_skills" skill job) worker_skills &&
  match location with
  | Some loc =>
      if String.eqb loc "" then true
      else field_is "location" (VStr loc) job || field_missing "location" job ||
           field_null "location" job || field_is "location" (VStr "") job
  | None => true
  end.

(** The stages of the pipeline of [worker_matched_jobs] before [$sort], on
    one job. *)
Definition matched_rows_of (s : db) (worker_id : value) (worker_skills : list string)
    (location : option string) (job : doc) : list doc :=
  if matched_filter worker_skills location job
  then (λ employer, matched_project job employer (lookup_applications s worker_id job))
         <$> lookup_employers s job
  else [].

Definition matched_rows (s : db) (worker_id : value) (worker_skills : list string)
    (location : option string) (partition_name : string) : list doc :=
  get_collection partition_name s ≫= matched_rows_of s worker_id worker_skills location.

(** The pipeline of [worker_matched_jobs] against one partition.  The
    database refuses an empty [$or] and a pattern that does not compile. *)
Definition matched_aggregate (s : db) (worker_id : value) (worker_skills : list string)
    (location : option string) (partition_name : string) : result (list doc) :=
  if bool_decide (worker_skills = []) || negb (forallb regex_compiles worker_skills)
  then Err OperationFailure
  else Ok (take 100 (mongo_sort_posted_desc
             (matched_rows s worker_id worker_skills location partition_name))).

(** *** [list.sort(key=lambda x: x.get("posted_at", datetime.min), reverse=True)] *)

(** Inserts [x], which stood before every element of [l], in front of the
    first element that is not more recent: the sort is stable. *)
Fixpoint insert_desc (x : doc) (l : list doc) : list doc :=
  match l with
  | [] => [x]
  | y :: l' =>
      if dt_leb (key_or_min y) (key_or_min x) then x :: l
      else y :: insert_desc x l'
  end.

Definition sort_desc (l : list doc) : list doc := foldr insert_desc [] l.

(** A key that is not a datetime does not compare with a datetime (no
    writer of the job collections stores another type under [posted_at]);
    a list of fewer than two rows is not compared at all. *)
Definition sort_by_posted_at (l : list doc) : result (list doc) :=
  if (length l <=? 1)%nat then Ok l
  else if forallb (λ d, bool_decide (is_Some (posted_key d))) l then Ok (sort_desc l)
  else Err TypeError.

(** [s.strip().lower() for s in skills.split(',') if s.strip()]. *)
Definition skill_tokens (skills : string) : list string :=
  (λ s, lower (strip s)) <$>
    List.filter (λ s, negb (String.eqb (strip s) "")) (split "," skills).

(** The loop over the partitions: a partition whose query fails adds
    nothing. *)
Definition matched_scan (s : db) (worker_id : value) (worker_skills : list string)
    (location : option string) (names : list string) : list doc :=
  names ≫= λ partition_name,
    match matched_aggregate s worker_id worker_skills location partition_name with
    | Ok partition_results => partition_results
    | Err _ => []
    end.

Definition worker_matched_jobs (worker_id : value) (skills : string)
    (location : option string) : M (list doc) :=
  worker_id ← lift (id_of_arg worker_id);
  let worker_skills := skill_tokens skills in
  all_results ← gets (λ s,
    matched_scan s worker_id worker_skills location (_get_all_job_partitions s));
  all_results ← lift (sort_by_posted_at all_results);
  let all_results := take 100 all_results in
  mret (serialize_doc <$> all_results).

(** *** Update, delete and lookup by id *)

(** [if key in data and data[key] is not None: update_fields[key] = conv(data[key])]. *)
Definition copy_field (data : doc) (key : string) (conv : value → result value)
    (update_fields : doc) : result doc :=
  match data !! key with
  | None | Some VNull => Ok update_fields
  | Some v =>
      match conv v with
      | Ok v' => Ok (<[key := v']> update_fields)
      | Err e => Err e
      end
  end.

Definition as_float (v : value) : result value :=
  match py_float v with
  | Ok q => Ok (VFloat q)
  | Err e => Err e
  end.

Definition rbind {A B} (r : result A) (f : A → result B) : result B :=
  match r with
  | Ok a => f a
  | Err e => Err e
  end.

Definition build_update_fields (data : doc) : result doc :=
  rbind (copy_field data "title" Ok ∅) (λ u,
  rbind (copy_field data "required_skills" Ok u) (λ u,
  rbind (copy_field data "description" Ok u) (λ u,
  rbind (copy_field data "salary_min" as_float u) (λ u,
  rbind (copy_field data "salary_max" as_float u) (λ u,
  rbind (copy_field data "location" Ok u) (λ u,
  copy_field data "status" Ok u)))))).

Definition update_job (job_id : value) (data : doc) (now : datetime) : M Z :=
  job_id ← lift (id_of_arg job_id);
  job ← find_one "jobs" (field_is "_id" job_id);
  match job with
  | None => raise (ValueError "Job not found")
  | Some _ =>
      update_fields ← lift (build_update_fields data);
      if bool_decide (update_fields = ∅) then mret 0
      else
        let update_fields := <["updated_at" := VDate now]> update_fields in
        update_one "jobs" (field_is "_id" job_id) update_fields
  end.

(** The loop of [delete_job]: stops at the first partition that reports a
    deletion. *)
Fixpoint delete_in_partitions (names : list string) (job_id : value) : M bool :=
  match names with
  | [] => mret false
  | partition_name :: names =>
      deleted_count ← delete_one partition_name (field_is "_id" job_id);
      if 0 <? deleted_count then mret true
      else delete_in_partitions names job_id
  end.

Definition delete_job (job_id : value) : M Z :=
  job_id ← lift (id_of_arg job_id);
  _ ← delete_many "applications" (field_is "job_id" job_id);
  names ← gets _get_all_job_partitions;
  deleted ← delete_in_partitions names job_id;
  mret (if deleted : bool then 1 else 0).

(** The loop of [get_job_by_id]. *)
Fixpoint find_job_in (names : list string) (job_id : value) : M (option doc) :=
  match names with
  | [] => mret None
  | partition_name :: names =>
      job ← find_one partition_name (field_is "_id" job_id);
      match job with
      | Some job =>
          let job := serialize_doc job in
          id ← getitem job "id";
          mret (Some (<["job_id" := id]> job))
      | None => find_job_in names job_id
      end
  end.

Definition get_job_by_id (job_id : value) : M (option doc) :=
  job_id ← lift (id_of_arg job_id);
  names ← gets _get_all_job_partitions;
  find_job_in names job_id.

(** *** Free-text search *)

(** A filter argument counts when it is a non-empty string. *)
Definition given (arg : option string) : option string :=
  match arg with
  | Some text => if String.eqb text "" then None else Some text
  | None => None
  end.

Definition search_skill_list (skills : string) : list string :=
  strip <$> List.filter (λ s, negb (String.eqb (strip s) "")) (split "," skills).

(** The patterns that the [$match] stage of [search_jobs] holds. *)
Definition search_patterns (query_text location skills : option string) : list string :=
  match given query_text with Some text => [text; text; text] | None => [] end ++
  match given location with Some loc => [loc] | None => [] end ++
  match given skills with Some sk => search_skill_list sk | None => [] end.

Definition search_filter (query_text location skills : option string) (job : doc) : bool :=
  field_is "status" (VStr "open") job &&
  match given query_text with
  | Some text =>
      regex_field "title" text job || regex_field "description" text job ||
      regex_field "required_skills" text job
  | None => true
  end &&
  match given location with
  | Some loc =>
      regex_field "location" loc job || field_missing "location" job ||
      field_null "location" job
  | None => true
  end &&
  match given skills with
  | Some sk =>
      match search_skill_list sk with
      | [] => true
      | skill_list => existsb (λ skill, regex_field "required_skills" skill job) skill_list
      end
  | None => true
  end.

Definition search_project (job employer : doc) : doc :=
  set_opt "company_name" (employer !! "company_name")
    (<["job_id" := to_string_field "_id" job]>
      (pick ["_id"; "title"; "location"; "posted_at"; "required_skills";
             "description"; "salary_min"; "salary_max"] job)).

(** [aggregate(collection_name, pipeline)] on the pipeline of
    [search_jobs]. *)
Definition search_aggregate (collection_name : string)
    (query_text location skills : option string) : M (list doc) :=
  if forallb regex_compiles (search_patterns query_text location skills)
  then gets (λ s,
    take 50 (mongo_sort_posted_desc
      (get_collection collection_name s ≫= λ job,
         if search_filter query_text location skills job
         then search_project job <$> lookup_employers s job
         else [])))
  else raise OperationFailure.

Definition search_jobs (query_text location skills : option string) : M (list doc) :=
  results ← search_aggregate "jobs" query_text location skills;
  mret (serialize_doc <$> results).

End Model.

(** * Properties *)

(** ** The order on datetimes *)

Lemma dt_leb_spec a b :
  dt_leb a b = true ↔
  dt_year a < dt_year b ∨ (dt_year a = dt_year b ∧ dt_tick a ≤ dt_tick b).
Proof. unfold dt_leb. destruct a, b; simpl. lia. Qed.

#[global] Instance dt_le_dec : RelDecision dt_le.
Proof. intros a b. unfold dt_le. apply _. Defined.

#[global] Instance dt_le_refl : Reflexive dt_le.
Proof. intros a. apply dt_leb_spec. lia. Qed.

#[global] Instance dt_le_trans : Transitive dt_le.
Proof. intros a b c. unfold dt_le. rewrite !dt_leb_spec. lia. Qed.

#[global] Instance dt_le_total : Total dt_le.
Proof. intros a b. unfold dt_le. rewrite !dt_leb_spec. lia. Qed.

#[global] Instance dt_le_antisym : AntiSymm (=) dt_le.
Proof.
  intros [ya ta] [yb tb]. unfold dt_le. rewrite !dt_leb_spec. simpl.
  intros ??. f_equal; lia.
Qed.

Lemma dt_leb_false a b : dt_leb a b = false → dt_le b a.
Proof.
  intros Hf. destruct (total dt_le a b) as [Hab|Hba]; [|done].
  unfold dt_le in Hab. congruence.
Qed.

#[global] Instance posted_ge_trans : Transitive posted_ge.
Proof. intros a b c ??. unfold posted_ge in *. by etrans. Qed.

(** ** The stable descending sort *)

Lemma insert_desc_perm x l : insert_desc x l ≡ₚ x :: l.
Proof.
  induction l as [|y l IH]; simpl; [done|].
  destruct (dt_leb _ _); [done|]. rewrite IH. apply Permutation_swap.
Qed.

Lemma sort_desc_perm l : sort_desc l ≡ₚ l.
Proof.
  induction l as [|x l IH]; simpl; [done|].
  rewrite insert_desc_perm. by f_equiv.
Qed.

Lemma insert_desc_sorted x l :
  StronglySorted posted_ge l → StronglySorted posted_ge (insert_desc x l).
Proof.
  induction 1 as [|y l Hl IH Hy]; simpl.
  - repeat constructor.
  - destruct (dt_leb (key_or_min y) (key_or_min x)) eqn:Hyx.
    + constructor; [by constructor|].
      constructor; [done|].
      eapply Forall_impl; [exact Hy|]. intros z Hz. by trans y.
    + constructor; [done|].
      rewrite insert_desc_perm. constructor; [|done].
      by apply dt_leb_false.
Qed.

Lemma sort_desc_sorted l : StronglySorted posted_ge (sort_desc l).
Proof.
  induction l as [|x l IH]; simpl; [constructor|].
  by apply insert_desc_sorted.
Qed.

(** ** The most recent keys of a merge

    Sorted lists of datetimes are unique, so the keys of the first [n] rows
    of any descending sort are the first [n] elements of [ksort] of the
    keys.  Cutting each part of a merge down to its own first [n] keys does
    not change the first [n] keys of the merge. *)

Lemma find_none_filter_nil {A} (q : A → bool) (l : list A) :
  (∀ x, x ∈ l → q x = false) → List.filter q l = [].
Proof.
  induction l as [|x l IH]; intros Hall; simpl; [done|].
  rewrite (Hall x) by (by left). apply IH. intros y Hy. apply Hall. by right.
Qed.

Definition dt_ge (a b : datetime) : Prop := dt_le b a.

(** Inserts a key after the keys that are at least as recent. *)
Fixpoint kinsert (x : datetime) (l : list datetime) : list datetime :=
  match l with
  | [] => [x]
  | y :: l' => if dt_leb x y then y :: kinsert x l' else x :: l
  end.

Definition ksort (l : list datetime) : list datetime := foldr kinsert [] l.

#[global] Instance dt_ge_trans : Transitive dt_ge.
Proof. intros a b c ??. unfold dt_ge in *. by etrans. Qed.

#[global] Instance dt_ge_antisym : AntiSymm (=) dt_ge.
Proof. intros a b ??. unfold dt_ge in *. by apply (anti_symm dt_le). Qed.

Lemma kinsert_perm x l : kinsert x l ≡ₚ x :: l.
Proof.
  induction l as [|y l IH]; simpl; [done|].
  destruct (dt_leb x y); [|done]. rewrite IH. apply Permutation_swap.
Qed.

Lemma ksort_perm l : ksort l ≡ₚ l.
Proof.
  induction l as [|x l IH]; simpl; [done|]. rewrite kinsert_perm. by f_equiv.
Qed.

Lemma kinsert_sorted x l :
  StronglySorted dt_ge l → StronglySorted dt_ge (kinsert x l).
Proof.
  induction 1 as [|y l Hl IH Hy]; simpl.
  - repeat constructor.
  - destruct (dt_leb x y) eqn:Hxy.
    + constructor; [done|]. rewrite kinsert_perm. by constructor.
    + apply dt_leb_false in Hxy.
      constructor; [by constructor|]. constructor; [done|].
      eapply Forall_impl; [exact Hy|]. intros z Hz. unfold dt_ge in *. by trans y.
Qed.

Lemma ksort_sorted l : StronglySorted dt_ge (ksort l).
Proof.
  induction l as [|x l IH]; simpl; [constructor|]. by apply kinsert_sorted.
Qed.

Lemma ksort_unique l l' : l' ≡ₚ l → Sorted dt_ge l' → l' = ksort l.
Proof.
  intros Hperm Hsorted. apply (Sorted_unique dt_ge); [done| |].
  - apply StronglySorted_Sorted, ksort_sorted.
  - by rewrite ksort_perm.
Qed.

Lemma ksort_proper l l' : l ≡ₚ l' → ksort l = ksort l'.
Proof.
  intros Hperm. apply ksort_unique; [by rewrite ksort_perm|].
  apply StronglySorted_Sorted, ksort_sorted.
Qed.

Lemma take_kinsert n x l :
  (n ≤ length l)%nat → Forall (dt_le x) (take n l) →
  take n (kinsert x l) = take n l.
Proof.
  revert l. induction n as [|n IH]; intros [|y l] Hlen Hall; simpl in *; try done; [lia|].
  inversion Hall as [|?? Hxy Hall']; subst.
  unfold dt_le in Hxy. rewrite Hxy. simpl. f_equal. apply IH; [lia|done].
Qed.

Lemma sorted_prefix_ge n x l :
  StronglySorted dt_ge l →
  (n ≤ length (List.filter (dt_leb x) l))%nat →
  (n ≤ length l)%nat ∧ Forall (dt_le x) (take n l).
Proof.
  intros Hsorted. revert n. induction Hsorted as [|y l Hl IH Hy]; intros n Hn.
  - simpl in *. assert (n = 0%nat) as -> by lia. by split.
  - destruct n as [|n]; [split; [lia|constructor]|].
    simpl in Hn. destruct (dt_leb x y) eqn:Hxy.
    + simpl in Hn. destruct (IH n) as [Hlen Hall]; [lia|].
      split; [simpl; lia|]. simpl. by constructor.
    + exfalso. assert (Hnone : List.filter (dt_leb x) l = []).
      { apply find_none_filter_nil. intros z Hz.
        rewrite Forall_forall in Hy. specialize (Hy z Hz). unfold dt_ge in Hy.
        destruct (dt_leb x z) eqn:Hxz; [|done].
        assert (dt_le x y) by (by trans z). unfold dt_le in *. congruence. }
      rewrite Hnone in Hn. simpl in Hn. lia.
Qed.

Lemma filter_length_perm {A} (q : A → bool) (l l' : list A) :
  l ≡ₚ l' → length (List.filter q l) = length (List.filter q l').
Proof.
  induction 1 as [|x l l' _ IH|x y l|l1 l2 l3 _ IH1 _ IH2]; simpl.
  - done.
  - destruct (q x); simpl; by rewrite IH.
  - by destruct (q x), (q y).
  - by rewrite IH1.
Qed.

(** A key that [n] others are at least as recent as is not among the first
    [n]. *)
Lemma take_ksort_cons n x m :
  (n ≤ length (List.filter (dt_leb x) m))%nat →
  take n (ksort (x :: m)) = take n (ksort m).
Proof.
  intros Hn. simpl.
  destruct (sorted_prefix_ge n x (ksort m) (ksort_sorted m)) as [Hlen Hall].
  - by rewrite (filter_length_perm _ _ m (ksort_perm m)).
  - by apply take_kinsert.
Qed.

Lemma take_ksort_drop n d t b :
  (∀ x, x ∈ d → (n ≤ length (List.filter (dt_leb x) t))%nat) →
  take n (ksort (d ++ t ++ b)) = take n (ksort (t ++ b)).
Proof.
  induction d as [|x d IH]; intros Hd; [done|].
  rewrite <- app_comm_cons, take_ksort_cons.
  - apply IH. intros y Hy. apply Hd. by right.
  - rewrite !List.filter_app, !length_app.
    specialize (Hd x ltac:(by left)). lia.
Qed.

Lemma sorted_tail_below n l x y :
  StronglySorted dt_ge l → x ∈ drop n l → y ∈ take n l → dt_le x y.
Proof.
  intros Hsorted. revert n. induction Hsorted as [|z l Hl IH Hz]; intros n Hx Hy.
  - rewrite drop_nil in Hx. inversion Hx.
  - destruct n as [|n]; simpl in *; [inversion Hy|].
    apply elem_of_cons in Hy as [->|Hy]; [|by apply (IH n)].
    rewrite Forall_forall in Hz. apply (Hz x). by apply (subseteq_drop n l).
Qed.

(** Cutting the first part of a merge down to its [n] most recent keys. *)
Lemma take_ksort_app_take n a b :
  take n (ksort (take n (ksort a) ++ b)) = take n (ksort (a ++ b)).
Proof.
  rewrite (ksort_proper (a ++ b) (drop n (ksort a) ++ take n (ksort a) ++ b)).
  - symmetry. apply take_ksort_drop. intros x Hx.
    assert (Hlen : length (take n (ksort a)) = n).
    { apply length_take_le.
      destruct (decide (n ≤ length (ksort a))%nat) as [|Hgt]; [done|].
      rewrite drop_ge in Hx by lia. inversion Hx. }
    rewrite forallb_filter_id; [lia|].
    apply forallb_forall. intros y Hy. apply list_elem_of_In in Hy.
    by apply (sorted_tail_below n (ksort a)); [apply ksort_sorted| |].
  - rewrite (app_assoc (drop _ _)), (Permutation_app_comm (drop _ _)), take_drop.
    by rewrite ksort_perm.
Qed.

Lemma take_ksort_app_l n a a' b :
  take n (ksort a) = take n (ksort a') →
  take n (ksort (a ++ b)) = take n (ksort (a' ++ b)).
Proof.
  intros Heq. by rewrite <- (take_ksort_app_take n a), <- (take_ksort_app_take n a'), Heq.
Qed.

Lemma take_ksort_app_r n a b b' :
  take n (ksort b) = take n (ksort b') →
  take n (ksort (a ++ b)) = take n (ksort (a ++ b')).
Proof.
  intros Heq.
  rewrite (ksort_proper (a ++ b) (b ++ a)) by apply Permutation_app_comm.
  rewrite (ksort_proper (a ++ b') (b' ++ a)) by apply Permutation_app_comm.
  by apply take_ksort_app_l.
Qed.

(** ** A reference runtime

    One runtime that meets the interface: the hash adds the character
    codes, a pattern is searched as a literal, ignoring case, and the sort
    stage is the stable descending sort.  The examples run on it. *)

Fixpoint char_sum (s : string) : Z :=
  match s with
  | "" => 0
  | String c s' => Z.of_N (N_of_ascii c) + char_sum s'
  end.

Definition literal_search_i (pattern text : string) : bool :=
  is_substring (lower pattern) (lower text).

Definition reference_runtime : Runtime := {|
  str_hash := char_sum;
  float_of_string := λ _, None;
  repr_float := λ q, int_str (Qnum q) +:+ "/" +:+ int_str (Z.pos (Qden q));
  str_datetime := λ t, int_str (dt_year t) +:+ ":" +:+ int_str (dt_tick t);
  regex_compiles := λ _, true;
  regex_search_i := literal_search_i;
  mongo_sort_posted_desc := sort_desc;
  mongo_sort_perm := sort_desc_perm;
  mongo_sort_sorted := λ l _, StronglySorted_Sorted (sort_desc_sorted l)
|}.

(** ** Specification vocabulary *)

(** The number of worker records of a user over the eight partitions. *)
Definition worker_count `{Runtime} (user_id : value) (s : db) : nat :=
  sum_list ((λ p, length (List.filter (field_is "user_id" user_id) (get_collection p s)))
              <$> get_all_worker_partitions).

(** The number of applications of a worker to a job. *)
Definition pair_count (job_id worker_id : value) (s : db) : nat :=
  length (List.filter
            (λ d, field_is "job_id" job_id d && field_is "worker_id" worker_id d)
            (get_collection "applications" s)).

(** The identifier that the driver generates next is in no stored
    document. *)
Definition oid_fresh (s : db) : Prop :=
  map_Forall (λ _ docs, Forall (λ d : doc, d !! "_id" ≠ Some (VId (next_oid s))) docs)
    (colls s).

(** Every stored document has its [_id]. *)
Definition ids_present (s : db) : Prop :=
  map_Forall (λ _ docs, Forall (λ d : doc, is_Some (d !! "_id")) docs) (colls s).

(** The first document that [query] selects in the first collection of
    [names] that holds one. *)
Definition first_hit (names : list string) (query : doc → bool) (s : db) : option doc :=
  head (omap (λ p, List.find query (get_collection p s)) names).

(** What the partition computed from the hash of [w] holds under the id
    [w]. *)
Definition hashed_hit `{Runtime} (w : value) (s : db) : option doc :=
  List.find (field_is "_id" w) (get_collection (get_worker_partition_collection w) s).

(** The record that [get_job_by_id] returns for the stored job [d] of id
    [j]. *)
Definition job_view `{Runtime} (d : doc) : doc :=
  <["job_id" := default VNull (serialize_doc d !! "id")]> (serialize_doc d).

(** A record respects the order of the salary bounds. *)
Definition salary_ordered (job : doc) : Prop :=
  ∀ lo hi, job !! "salary_min" = Some (VFloat lo) →
           job !! "salary_max" = Some (VFloat hi) → Qle lo hi.

(** The rows of [worker_matched_jobs] over all the year partitions, before
    any sort or cap. *)
Definition all_matched_rows `{Runtime} (s : db) (worker_id : value)
    (worker_skills : list string) (location : option string) : list doc :=
  _get_all_job_partitions s ≫= matched_rows s worker_id worker_skills location.

(** Unfolds the monad. *)
Ltac monad_unfold :=
  unfold find_one, getitem in *;
  unfold mbind, M_bind, mret, M_ret, lift, gets, raise in *;
  cbn beta.

Section Properties.
Context `{Runtime}.

(** ** Storage lemmas *)

Lemma find_none_filter {A} (q : A → bool) (l : list A) :
  List.find q l = None ↔ List.filter q l = [].
Proof.
  induction l as [|x l IH]; simpl; [done|].
  destruct (q x); [split; discriminate|exact IH].
Qed.

Lemma find_some_holds {A} (q : A → bool) (l : list A) x :
  List.find q l = Some x → q x = true ∧ x ∈ l.
Proof.
  intros Hf. apply find_some in Hf as [Hin Hq].
  split; [done|]. by apply list_elem_of_In.
Qed.

Lemma find_none_forall {A} (q : A → bool) (l : list A) :
  List.find q l = None ↔ Forall (λ x, q x = false) l.
Proof.
  induction l as [|x l IH]; simpl.
  - split; [constructor|done].
  - destruct (q x) eqn:Hq.
    + split; [discriminate|]. intros Hall. inversion Hall; congruence.
    + rewrite IH. split; [by constructor|]. intros Hall. by inversion Hall.
Qed.

Lemma find_app_none_l {A} (q : A → bool) (l1 l2 : list A) :
  List.find q l1 = None → List.find q (l1 ++ l2) = List.find q l2.
Proof.
  induction l1 as [|x l1 IH]; simpl; [done|].
  destruct (q x); [discriminate|exact IH].
Qed.

Lemma get_collection_set_eq name docs s :
  get_collection name (set_coll name docs s) = docs.
Proof. unfold get_collection, set_coll. simpl. by rewrite lookup_insert_eq. Qed.

Lemma get_collection_set_ne name name' docs s :
  name ≠ name' → get_collection name' (set_coll name docs s) = get_collection name' s.
Proof.
  intros Hne. unfold get_collection, set_coll. simpl. by rewrite lookup_insert_ne.
Qed.

(** ** C9: the worker partition tag *)

Lemma int_str_small z :
  0 ≤ z < 8 → "workers_partition_" +:+ int_str z ∈ get_all_worker_partitions.
Proof.
  intros Hz. unfold get_all_worker_partitions.
  apply list_elem_of_fmap. exists z. split; [done|].
  apply elem_of_seqZ. lia.
Qed.

Lemma hash_partition_range w : 0 ≤ hash_partition w 8 < 8.
Proof. unfold hash_partition. apply Z.mod_pos_bound. lia. Qed.

Lemma worker_partition_listed w :
  get_worker_partition_collection w ∈ get_all_worker_partitions.
Proof.
  unfold get_worker_partition_collection. apply int_str_small, hash_partition_range.
Qed.

(** C9: the partition tag of a worker id is a function of the canonical
    string form of the id alone (an id and its string form, and any two
    values that print alike, get the same tag), it lies in [0,8), and the
    collection it resolves to is one of the eight worker partitions. *)
Theorem hash_partition_stable_in_range (w : value) :
  (∀ w', py_str w' = py_str w → hash_partition w' 8 = hash_partition w 8) ∧
  hash_partition (VStr (py_str w)) 8 = hash_partition w 8 ∧
  0 ≤ hash_partition w 8 < 8 ∧
  get_worker_partition_collection w ∈ get_all_worker_partitions.
Proof.
  split; [|split; [|split]].
  - intros w' Hw. unfold hash_partition. by rewrite Hw.
  - done.
  - apply hash_partition_range.
  - apply worker_partition_listed.
Qed.

(** ** C7: one application per job and worker *)

(** C7: when exactly one application of the worker to the job is stored,
    [create_application] raises the duplicate error, and the database after
    the call is the database before it: nothing is inserted and the count of
    the pair is still 1. *)
Theorem create_application_duplicate (s : db) (job_id worker_id j w : value)
    (t1 t2 : datetime) :
  id_of_arg job_id = Ok j →
  id_of_arg worker_id = Ok w →
  pair_count j w s = 1%nat →
  ∃ s', create_application job_id worker_id t1 t2 s =
          (Err (ValueError "Application already exists for this job"), s') ∧
        s' = s ∧ pair_count j w s' = 1%nat.
Proof.
  intros Hj Hw Hcount. exists s. split; [|done].
  unfold create_application. monad_unfold. rewrite Hj, Hw.
  match goal with
  | |- context [List.find ?q ?l] => destruct (List.find q l) as [a|] eqn:Hfind
  end; [done|].
  apply find_none_filter in Hfind. unfold pair_count in Hcount.
  rewrite Hfind in Hcount. discriminate.
Qed.

(** ** Partition discovery *)

Lemma elem_of_collection_names p s :
  p ∈ list_collection_names s ↔ is_Some (colls s !! p).
Proof.
  unfold list_collection_names. rewrite list_elem_of_fmap. split.
  - intros [[p' l] [-> Hin]]. apply elem_of_map_to_list in Hin. by exists l.
  - intros [l Hl]. exists (p, l). split; [done|]. by apply elem_of_map_to_list.
Qed.

Lemma elem_of_job_partitions p s :
  p ∈ _get_all_job_partitions s ↔
  is_Some (colls s !! p) ∧ String.prefix "jobs_" p = true ∧ p ≠ "jobs".
Proof.
  unfold _get_all_job_partitions.
  rewrite list_elem_of_In, filter_In, <- list_elem_of_In, elem_of_collection_names.
  rewrite andb_true_iff, negb_true_iff, String.eqb_neq. tauto.
Qed.

Lemma job_partition_not_applications p s :
  p ∈ _get_all_job_partitions s → p ≠ "applications".
Proof. intros (_ & Hp & _)%elem_of_job_partitions ->. discriminate. Qed.

Lemma job_partitions_set_coll name docs s p :
  is_Some (colls s !! name) →
  p ∈ _get_all_job_partitions (set_coll name docs s) ↔ p ∈ _get_all_job_partitions s.
Proof.
  intros Hname. rewrite !elem_of_job_partitions. unfold set_coll. simpl.
  destruct (decide (name = p)) as [->|Hne].
  - rewrite lookup_insert_eq. by intuition eauto.
  - by rewrite lookup_insert_ne.
Qed.

Lemma find_some_collection_exists q name s d :
  List.find q (get_collection name s) = Some d → is_Some (colls s !! name).
Proof.
  unfold get_collection. destruct (colls s !! name); [eauto|discriminate].
Qed.

(** ** C10: deleting a job that no partition holds *)

Lemma delete_one_absent name q s :
  List.find q (get_collection name s) = None → delete_one name q s = (Ok 0, s).
Proof. intros Hf. unfold delete_one. by rewrite Hf. Qed.

Lemma delete_in_partitions_absent names j s :
  (∀ p, p ∈ names → List.find (field_is "_id" j) (get_collection p s) = None) →
  delete_in_partitions names j s = (Ok false, s).
Proof.
  induction names as [|p names IH]; intros Habs; simpl; [done|].
  monad_unfold. rewrite delete_one_absent by (apply Habs; left).
  simpl. apply IH. intros p' Hp'. apply Habs. by right.
Qed.

Lemma filter_negb_changes {A} (q : A → bool) (l : list A) :
  List.find q l ≠ None → List.filter (λ a, negb (q a)) l ≠ l.
Proof.
  intros Hf Heq. destruct (List.find q l) as [a|] eqn:Ha; [|done].
  apply find_some_holds in Ha as [Hq Hin].
  rewrite <- Heq in Hin. apply list_elem_of_In, filter_In in Hin as [_ Hn].
  rewrite Hq in Hn. discriminate.
Qed.

(** C10: when no year partition holds the job, [delete_job] returns 0, and
    yet the applications collection after the call holds exactly the
    applications of the other jobs; the other collections are as before.
    So when some application referenced the job, the database has changed
    although no job was deleted. *)
Theorem delete_job_not_found_cascades (s : db) (job_id j : value) :
  id_of_arg job_id = Ok j →
  (∀ p, p ∈ _get_all_job_partitions s →
        List.find (field_is "_id" j) (get_collection p s) = None) →
  ∃ s', delete_job job_id s = (Ok 0, s') ∧
        get_collection "applications" s' =
          List.filter (λ a, negb (field_is "job_id" j a)) (get_collection "applications" s) ∧
        (∀ c, c ≠ "applications" → colls s' !! c = colls s !! c) ∧
        (List.find (field_is "job_id" j) (get_collection "applications" s) ≠ None →
         s' ≠ s).
Proof.
  intros Hj Habs. unfold delete_job. monad_unfold. rewrite Hj.
  unfold delete_many.
  destruct (List.find (field_is "job_id" j) (get_collection "applications" s))
    as [a|] eqn:Hfind.
  - set (apps := List.filter (λ d, negb (field_is "job_id" j d))
                   (get_collection "applications" s)).
    pose proof (find_some_collection_exists _ _ _ _ Hfind) as Hex.
    rewrite delete_in_partitions_absent.
    + exists (set_coll "applications" apps s). split; [done|].
      split; [by rewrite get_collection_set_eq|]. split.
      * intros c Hc. unfold set_coll. simpl. by rewrite lookup_insert_ne.
      * intros _ Heq.
        assert (Hsame : get_collection "applications" (set_coll "applications" apps s)
                        = get_collection "applications" s) by (by rewrite Heq).
        rewrite get_collection_set_eq in Hsame.
        eapply (filter_negb_changes (field_is "job_id" j)); [|exact Hsame].
        by rewrite Hfind.
    + intros p Hp. apply job_partitions_set_coll in Hp; [|done].
      rewrite get_collection_set_ne; [by apply Habs|].
      intros <-. by apply job_partition_not_applications in Hp.
  - rewrite delete_in_partitions_absent by done.
    exists s. split; [done|]. split; [|split; [done|done]].
    apply find_none_forall in Hfind. symmetry.
    apply forallb_filter_id. apply forallb_forall.
    intros a Ha. apply list_elem_of_In in Ha.
    rewrite Forall_forall in Hfind. by rewrite (Hfind a Ha).
Qed.

(** ** Serialization *)

Lemma field_is_true key v d : field_is key v d = true ↔ d !! key = Some v.
Proof. unfold field_is. apply bool_decide_eq_true. Qed.

Lemma serialize_doc_lookup_id d v :
  d !! "_id" = Some v →
  serialize_doc d !! "id" =
    Some (match d !! "id" with
          | Some x => serialize_value x
          | None => VStr (py_str v)
          end).
Proof.
  intros Hid. unfold serialize_doc. rewrite Hid.
  rewrite lookup_union, lookup_fmap, lookup_delete_ne by done.
  rewrite lookup_singleton_eq. by destruct (d !! "id").
Qed.

Lemma serialize_doc_lookup_other d k :
  k ≠ "_id" → k ≠ "id" → serialize_doc d !! k = serialize_value <$> d !! k.
Proof.
  intros H1 H2. unfold serialize_doc.
  rewrite lookup_union, lookup_fmap, lookup_delete_ne by done.
  destruct (d !! "_id").
  - rewrite lookup_singleton_ne by done. by destruct (d !! k).
  - rewrite lookup_empty. by destruct (d !! k).
Qed.

(** ** C6: point lookup of a worker *)

Lemma find_in_partitions_first_hit names q s :
  find_in_partitions names q s = (Ok (serialize_doc <$> first_hit names q s), s).
Proof.
  unfold first_hit. induction names as [|p names IH]; simpl; [done|].
  monad_unfold. destruct (List.find q (get_collection p s)); [done|]. exact IH.
Qed.

Lemma first_hit_none names q s :
  first_hit names q s = None ↔
  ∀ p, p ∈ names → List.find q (get_collection p s) = None.
Proof.
  unfold first_hit. induction names as [|p names IH]; simpl.
  - split; [|done]. intros _ p Hp. inversion Hp.
  - destruct (List.find q (get_collection p s)) as [d|] eqn:Hp; simpl.
    + split; [done|]. intros Hall. specialize (Hall p). rewrite Hp in Hall.
      discriminate Hall. by left.
    + rewrite IH. split.
      * intros Hall p' Hp'. apply elem_of_cons in Hp' as [->|Hp']; auto.
      * intros Hall p' Hp'. apply Hall. by right.
Qed.

Lemma first_hit_holds names q s d :
  first_hit names q s = Some d →
  q d = true ∧ ∃ p, p ∈ names ∧ d ∈ get_collection p s.
Proof.
  unfold first_hit. induction names as [|p names IH]; simpl; [done|].
  destruct (List.find q (get_collection p s)) as [d'|] eqn:Hp; simpl.
  - intros [= ->]. apply find_some_holds in Hp as [Hq Hin].
    split; [done|]. exists p. split; [by left|done].
  - intros Hd. destruct (IH Hd) as [Hq (p' & Hp' & Hin)].
    split; [done|]. exists p'. split; [by right|done].
Qed.

(** C6: [get_worker_by_id] first asks the partition computed from the hash
    of the id.  A worker record found there is returned, serialized, with
    its [worker_id].  When that partition has no such record, the partitions
    are scanned in the order of [get_all_worker_partitions] and the first
    hit is returned.  When no partition holds the id, the result is [None]. *)
Theorem get_worker_by_id_lookup (s : db) (worker_id w : value) :
  id_of_arg worker_id = Ok w →
  (∀ d, hashed_hit w s = Some d → is_Some (d !! "user_id") →
     ∃ i u, serialize_doc d !! "id" = Some i ∧
            serialize_doc d !! "user_id" = Some u ∧
            (d !! "id" = None → i = VStr (py_str w)) ∧
            get_worker_by_id worker_id s =
              (Ok (Some (<["user_id" := VStr (py_str u)]>
                           (<["worker_id" := i]> (serialize_doc d)))), s)) ∧
  (hashed_hit w s = None →
     ∀ d, first_hit get_all_worker_partitions (field_is "_id" w) s = Some d →
       ∃ i, serialize_doc d !! "id" = Some i ∧
            (d !! "id" = None → i = VStr (py_str w)) ∧
            get_worker_by_id worker_id s =
              (Ok (Some (<["worker_id" := i]> (serialize_doc d))), s)) ∧
  ((∀ p, p ∈ get_all_worker_partitions →
         List.find (field_is "_id" w) (get_collection p s) = None) →
     get_worker_by_id worker_id s = (Ok None, s)).
Proof.
  intros Hw. split; [|split].
  - intros d Hd [u Hu].
    pose proof Hd as Hd'. apply find_some_holds in Hd' as [Hid%field_is_true _].
    pose proof (serialize_doc_lookup_id d w Hid) as Hi.
    pose proof (serialize_doc_lookup_other d "user_id" ltac:(done) ltac:(done)) as Hsu.
    rewrite Hu in Hsu. simpl in Hsu.
    eexists _, _. split; [exact Hi|]. split; [exact Hsu|]. split.
    { by intros ->. }
    unfold get_worker_by_id, hashed_hit in *. monad_unfold. rewrite Hw, Hd.
    rewrite Hi. rewrite lookup_insert_ne by done. by rewrite Hsu.
  - intros Hd d Hfirst.
    pose proof Hfirst as Hq. apply first_hit_holds in Hq as [Hid%field_is_true _].
    pose proof (serialize_doc_lookup_id d w Hid) as Hi.
    eexists. split; [exact Hi|]. split.
    { by intros ->. }
    unfold get_worker_by_id, hashed_hit, _find_worker_in_partitions in *.
    monad_unfold. rewrite Hw, Hd.
    rewrite find_in_partitions_first_hit, Hfirst. simpl. by rewrite Hi.
  - intros Habs.
    unfold get_worker_by_id, _find_worker_in_partitions. monad_unfold. rewrite Hw.
    rewrite Habs.
    + rewrite find_in_partitions_first_hit.
      by rewrite (proj2 (first_hit_none _ _ _) Habs).
    + apply worker_partition_listed.
Qed.

(** ** Inserting under a fresh identifier *)

Lemma oid_fresh_collection name s :
  oid_fresh s →
  Forall (λ d : doc, d !! "_id" ≠ Some (VId (next_oid s))) (get_collection name s).
Proof.
  intros Hfresh. unfold get_collection.
  destruct (colls s !! name) as [docs|] eqn:Hname; simpl; [|constructor].
  exact (Hfresh name docs Hname).
Qed.

Lemma ids_present_collection name s :
  ids_present s → Forall (λ d : doc, is_Some (d !! "_id")) (get_collection name s).
Proof.
  intros Hids. unfold get_collection.
  destruct (colls s !! name) as [docs|] eqn:Hname; simpl; [|constructor].
  exact (Hids name docs Hname).
Qed.

Lemma existsb_field_is_false key v (l : list doc) :
  Forall (λ d : doc, d !! key ≠ Some v) l → existsb (field_is key v) l = false.
Proof.
  induction 1 as [|d l Hd _ IH]; simpl; [done|].
  rewrite IH, orb_false_r. unfold field_is. by apply bool_decide_eq_false.
Qed.

Lemma find_field_is_none key v (l : list doc) :
  Forall (λ d : doc, d !! key ≠ Some v) l → List.find (field_is key v) l = None.
Proof.
  intros Hall. apply find_none_forall. eapply Forall_impl; [exact Hall|].
  intros d Hd. unfold field_is. by apply bool_decide_eq_false.
Qed.

Lemma insert_one_generates name d s :
  d !! "_id" = None →
  Forall (λ x : doc, x !! "_id" ≠ Some (VId (next_oid s))) (get_collection name s) →
  insert_one name d s =
    (Ok (VId (next_oid s), <["_id" := VId (next_oid s)]> d),
     set_coll name (get_collection name s ++ [<["_id" := VId (next_oid s)]> d])
       (mk_db (colls s) (N.succ (next_oid s)))).
Proof.
  intros Hd Hfresh. unfold insert_one. rewrite Hd.
  rewrite lookup_insert_eq. simpl.
  change (get_collection name (mk_db (colls s) (N.succ (next_oid s))))
    with (get_collection name s).
  by rewrite existsb_field_is_false.
Qed.

Lemma insert_one_keeps_id name d v s :
  d !! "_id" = Some v →
  Forall (λ x : doc, x !! "_id" ≠ Some v) (get_collection name s) →
  insert_one name d s = (Ok (v, d), set_coll name (get_collection name s ++ [d]) s).
Proof.
  intros Hd Hfresh. unfold insert_one. rewrite Hd. simpl. rewrite Hd. simpl.
  by rewrite existsb_field_is_false.
Qed.

Lemma remove_first_last q (l : list doc) x :
  List.find q l = None → q x = true → remove_first q (l ++ [x]) = l.
Proof.
  intros Hl Hx. induction l as [|y l IH]; simpl in *.
  - by rewrite Hx.
  - destruct (q y); [discriminate|]. by rewrite IH.
Qed.

Lemma find_last q (l : list doc) x :
  List.find q l = None → q x = true → List.find q (l ++ [x]) = Some x.
Proof. intros Hl Hx. rewrite find_app_none_l by done. simpl. by rewrite Hx. Qed.

(** ** C2: [ensure_worker_row] twice *)

Lemma worker_partitions_list :
  get_all_worker_partitions =
    ["workers_partition_0"; "workers_partition_1"; "workers_partition_2";
     "workers_partition_3"; "workers_partition_4"; "workers_partition_5";
     "workers_partition_6"; "workers_partition_7"].
Proof. reflexivity. Qed.

Lemma worker_partitions_nodup : NoDup get_all_worker_partitions.
Proof. rewrite worker_partitions_list. apply (bool_decide_unpack _). by vm_compute. Qed.

Lemma worker_partition_not_staging p :
  p ∈ get_all_worker_partitions → p ≠ "workers".
Proof.
  rewrite worker_partitions_list. intros Hp ->.
  repeat (apply elem_of_cons in Hp as [Hp|Hp]; [discriminate Hp|]).
  inversion Hp.
Qed.

(** The number of documents that [query] selects over the collections
    [names]. *)
Lemma count_zero names (q : doc → bool) s :
  (∀ p, p ∈ names → List.find q (get_collection p s) = None) →
  sum_list ((λ p, length (List.filter q (get_collection p s))) <$> names) = 0%nat.
Proof.
  induction names as [|a names IH]; intros Hnone; csimpl; [done|].
  rewrite (proj1 (find_none_filter _ _) (Hnone a ltac:(by left))). csimpl.
  apply IH. intros p Hp. apply Hnone. by right.
Qed.

Lemma count_ext names (q : doc → bool) s s' :
  (∀ p, p ∈ names → get_collection p s' = get_collection p s) →
  sum_list ((λ p, length (List.filter q (get_collection p s'))) <$> names) =
  sum_list ((λ p, length (List.filter q (get_collection p s))) <$> names).
Proof.
  induction names as [|a names IH]; intros Hsame; csimpl; [done|].
  rewrite (Hsame a) by (by left). f_equal. apply IH.
  intros p Hp. apply Hsame. by right.
Qed.

Lemma count_inserted names (q : doc → bool) s s' p x :
  NoDup names → p ∈ names →
  (∀ p', p' ∈ names → List.find q (get_collection p' s) = None) →
  get_collection p s' = (get_collection p s ++ [x])%list →
  (∀ p', p' ∈ names → p' ≠ p → get_collection p' s' = get_collection p' s) →
  q x = true →
  sum_list ((λ p, length (List.filter q (get_collection p s'))) <$> names) = 1%nat.
Proof.
  intros Hnd Hp Hnone Hat Hother Hx.
  induction Hnd as [|a names Ha Hnd IH]; [inversion Hp|].
  csimpl. apply elem_of_cons in Hp as [<-|Hp].
  - rewrite Hat, List.filter_app, length_app. csimpl. rewrite Hx. csimpl.
    rewrite (proj1 (find_none_filter _ _) (Hnone p ltac:(by left))). csimpl.
    f_equal. rewrite (count_ext names q s s').
    + apply count_zero. intros p' Hp'. apply Hnone. by right.
    + intros p' Hp'. apply Hother; [by right|]. by intros ->.
  - rewrite Hother; [|by left|by intros ->].
    rewrite (proj1 (find_none_filter _ _) (Hnone a ltac:(by left))). csimpl.
    apply IH; [done| |].
    + intros p' Hp'. apply Hnone. by right.
    + intros p' Hp' Hne. apply Hother; [by right|done].
Qed.

Lemma count_positive names (q : doc → bool) s d :
  first_hit names q s = Some d →
  (1 ≤ sum_list ((λ p, length (List.filter q (get_collection p s))) <$> names))%nat.
Proof.
  unfold first_hit. induction names as [|a names IH]; csimpl; [done|].
  destruct (List.find q (get_collection a s)) as [d'|] eqn:Ha; csimpl.
  - intros _. destruct (List.filter q (get_collection a s)) eqn:Hf.
    + apply find_none_filter in Hf. congruence.
    + csimpl. lia.
  - intros Hd. specialize (IH Hd). lia.
Qed.

Lemma first_hit_inserted names (q : doc → bool) s s' p x :
  p ∈ names →
  (∀ p', p' ∈ names → List.find q (get_collection p' s) = None) →
  get_collection p s' = (get_collection p s ++ [x])%list →
  (∀ p', p' ∈ names → p' ≠ p → get_collection p' s' = get_collection p' s) →
  q x = true →
  first_hit names q s' = Some x.
Proof.
  unfold first_hit. intros Hp Hnone Hat Hother Hx.
  induction names as [|a names IH]; [inversion Hp|]. simpl.
  destruct (decide (a = p)) as [->|Hne].
  - rewrite Hat, find_last; [done| |done]. apply Hnone. by left.
  - rewrite Hother; [|by left|done]. rewrite Hnone by (by left). simpl.
    apply elem_of_cons in Hp as [->|Hp]; [done|].
    apply IH; [done| |].
    + intros p' Hp'. apply Hnone. by right.
    + intros p' Hp' Hne'. apply Hother; [by right|done].
Qed.

Lemma serialize_doc_lookup_plain d k :
  d !! "_id" = None → serialize_doc d !! k = serialize_value <$> d !! k.
Proof.
  intros Hid. unfold serialize_doc. rewrite Hid, lookup_union, lookup_fmap, lookup_empty.
  destruct (decide (k = "_id")) as [->|Hk].
  - by rewrite lookup_delete_eq, Hid.
  - rewrite lookup_delete_ne by done. by destruct (d !! k).
Qed.

Lemma serialize_doc_no_id d : serialize_doc d !! "_id" = None.
Proof.
  unfold serialize_doc. rewrite lookup_union, lookup_fmap, lookup_delete_eq.
  destruct (d !! "_id"); [by rewrite lookup_singleton_ne|by rewrite lookup_empty].
Qed.

(** An existing worker is returned with its [worker_id], and nothing is
    written. *)
Lemma ensure_worker_row_existing s user_id u full_name skills t d v :
  id_of_arg user_id = Ok u →
  first_hit get_all_worker_partitions (field_is "user_id" u) s = Some d →
  d !! "_id" = Some v →
  ∃ r i, ensure_worker_row user_id full_name skills t s = (Ok r, s) ∧
         r !! "worker_id" = Some i ∧
         serialize_doc (serialize_doc d) !! "id" = Some i.
Proof.
  intros Hu Hd Hv.
  pose proof (serialize_doc_lookup_id d v Hv) as Hi.
  pose proof (serialize_doc_lookup_plain (serialize_doc d) "id"
                (serialize_doc_no_id d)) as Hii.
  rewrite Hi in Hii. simpl in Hii.
  eexists _, _. split; [|split; [|exact Hii]].
  - unfold ensure_worker_row, _find_worker_in_partitions. monad_unfold.
    rewrite Hu, find_in_partitions_first_hit, Hd. simpl. by rewrite Hii.
  - by rewrite lookup_insert_eq.
Qed.

(** A user without worker record gets one, in the partition of the new
    id; the staging collection is left as it was. *)
Lemma ensure_worker_row_creates s user_id u full_name skills t :
  id_of_arg user_id = Ok u →
  oid_fresh s →
  first_hit get_all_worker_partitions (field_is "user_id" u) s = None →
  ∃ s1 wd,
    ensure_worker_row user_id full_name skills t s =
      (Ok {[ "worker_id" := VStr (oid_str (next_oid s)); "user_id" := VStr (py_str u) ]}, s1) ∧
    wd = <["_id" := VId (next_oid s)]> (new_worker_doc u full_name skills t) ∧
    get_collection (get_worker_partition_collection (VId (next_oid s))) s1 =
      (get_collection (get_worker_partition_collection (VId (next_oid s))) s ++ [wd])%list ∧
    (∀ c, c ≠ get_worker_partition_collection (VId (next_oid s)) →
          get_collection c s1 = get_collection c s).
Proof.
  intros Hu Hfresh Hnone.
  set (n := next_oid s).
  set (p := get_worker_partition_collection (VId n)).
  assert (Hp : p ≠ "workers") by apply worker_partition_not_staging, worker_partition_listed.
  unfold ensure_worker_row, _find_worker_in_partitions. monad_unfold.
  rewrite Hu, find_in_partitions_first_hit, Hnone. simpl.
  rewrite insert_one_generates; [|done|by apply oid_fresh_collection].
  fold n. fold p. rewrite insert_insert_eq.
  set (wd := <["_id" := VId n]> (new_worker_doc u full_name skills t)).
  set (s_a := set_coll "workers" _ _).
  rewrite (insert_one_keeps_id p wd (VId n)); [|by apply lookup_insert_eq|].
  2:{ unfold s_a. rewrite get_collection_set_ne by done.
      by apply (oid_fresh_collection p s). }
  set (s_b := set_coll p _ s_a).
  assert (Hw_b : get_collection "workers" s_b = (get_collection "workers" s ++ [wd])%list).
  { unfold s_b, s_a. rewrite get_collection_set_ne by done.
    by rewrite get_collection_set_eq. }
  assert (Hold : List.find (field_is "_id" (VId n)) (get_collection "workers" s) = None).
  { apply find_field_is_none. by apply (oid_fresh_collection "workers" s). }
  assert (Hwd : field_is "_id" (VId n) wd = true).
  { apply field_is_true. apply lookup_insert_eq. }
  unfold delete_one. rewrite Hw_b, find_last by done.
  rewrite remove_first_last by done.
  eexists _, wd. split; [done|]. split; [done|]. split.
  - rewrite get_collection_set_ne by done. unfold s_b.
    rewrite get_collection_set_eq. unfold s_a.
    by rewrite get_collection_set_ne.
  - intros c Hc. destruct (decide (c = "workers")) as [->|Hcw].
    + by rewrite get_collection_set_eq.
    + rewrite get_collection_set_ne by done. unfold s_b.
      rewrite get_collection_set_ne by done. unfold s_a.
      by rewrite get_collection_set_ne.
Qed.

(** C2: on a database whose stored documents have their [_id], where the
    next generated id is unused and the user has at most one worker record,
    two calls of [ensure_worker_row] for the user both succeed and return the
    same [worker_id]; afterwards exactly one worker record of the user exists
    over the eight partitions, and the unpartitioned [workers] collection
    holds what it held before the calls: no staging copy is left. *)
Theorem ensure_worker_row_idempotent (s : db) (user_id u : value)
    (full_name skills full_name' skills' : value) (t1 t2 : datetime) :
  id_of_arg user_id = Ok u →
  oid_fresh s →
  ids_present s →
  (worker_count u s ≤ 1)%nat →
  ∃ r1 r2 s1 s2 i,
    ensure_worker_row user_id full_name skills t1 s = (Ok r1, s1) ∧
    ensure_worker_row user_id full_name' skills' t2 s1 = (Ok r2, s2) ∧
    r1 !! "worker_id" = Some i ∧
    r2 !! "worker_id" = Some i ∧
    worker_count u s2 = 1%nat ∧
    get_collection "workers" s2 = get_collection "workers" s.
Proof.
  intros Hu Hfresh Hids Hcount.
  destruct (first_hit get_all_worker_partitions (field_is "user_id" u) s)
    as [d|] eqn:Hfirst.
  - (* the worker exists: both calls read it *)
    destruct (first_hit_holds _ _ _ _ Hfirst) as [_ (p & Hp & Hin)].
    pose proof (ids_present_collection p s Hids) as Hall.
    rewrite Forall_forall in Hall. destruct (Hall d Hin) as [v Hv].
    destruct (ensure_worker_row_existing s user_id u full_name skills t1 d v
                Hu Hfirst Hv) as (r1 & i & Hr1 & Hi1 & Hi).
    destruct (ensure_worker_row_existing s user_id u full_name' skills' t2 d v
                Hu Hfirst Hv) as (r2 & i' & Hr2 & Hi2 & Hi').
    assert (i' = i) as -> by congruence.
    exists r1, r2, s, s, i. repeat split; try done.
    pose proof (count_positive _ _ _ _ Hfirst) as Hpos.
    unfold worker_count in *. lia.
  - (* no worker yet: the first call creates it, the second finds it *)
    destruct (ensure_worker_row_creates s user_id u full_name skills t1
                Hu Hfresh Hfirst) as (s1 & wd & Hr1 & Hwd & Hat & Hother).
    set (p := get_worker_partition_collection (VId (next_oid s))) in *.
    assert (Hp : p ∈ get_all_worker_partitions) by apply worker_partition_listed.
    assert (Hq : field_is "user_id" u wd = true).
    { apply field_is_true. subst wd. rewrite lookup_insert_ne by done.
      unfold new_worker_doc. by simplify_map_eq. }
    assert (Hnone : ∀ p', p' ∈ get_all_worker_partitions →
              List.find (field_is "user_id" u) (get_collection p' s) = None).
    { by apply first_hit_none. }
    assert (Hfirst1 : first_hit get_all_worker_partitions (field_is "user_id" u) s1
                      = Some wd).
    { apply (first_hit_inserted _ _ s s1 p); auto. }
    assert (Hv : wd !! "_id" = Some (VId (next_oid s))).
    { subst wd. apply lookup_insert_eq. }
    destruct (ensure_worker_row_existing s1 user_id u full_name' skills' t2 wd _
                Hu Hfirst1 Hv) as (r2 & i & Hr2 & Hi2 & Hi).
    assert (Hnoid : wd !! "id" = None).
    { subst wd. rewrite lookup_insert_ne by done.
      unfold new_worker_doc. by simplify_map_eq. }
    rewrite (serialize_doc_lookup_plain _ _ (serialize_doc_no_id wd)) in Hi.
    rewrite (serialize_doc_lookup_id wd _ Hv), Hnoid in Hi. simpl in Hi.
    injection Hi as <-.
    eexists _, r2, s1, s1, _. split; [exact Hr1|]. split; [exact Hr2|].
    split; [by simplify_map_eq|]. split; [exact Hi2|]. split.
    + unfold worker_count.
      apply (count_inserted _ _ s s1 p wd); auto using worker_partitions_nodup.
    + apply Hother. intros Heq.
      by apply (worker_partition_not_staging p).
Qed.

(** ** C8: posting a job and reading it back *)

Lemma find_job_in_first_hit names j s :
  find_job_in names j s = (Ok (job_view <$> first_hit names (field_is "_id" j) s), s).
Proof.
  unfold first_hit. induction names as [|p names IH]; simpl; [done|].
  monad_unfold.
  destruct (List.find (field_is "_id" j) (get_collection p s)) as [d|] eqn:Hd; [|exact IH].
  simpl. apply find_some_holds in Hd as [Hid%field_is_true _].
  unfold job_view. by rewrite (serialize_doc_lookup_id d j Hid).
Qed.

Lemma jobs_partition_name_ok year :
  String.prefix "jobs_" (get_jobs_partition_collection year) = true ∧
  get_jobs_partition_collection year ≠ "jobs".
Proof.
  assert (Hp : String.prefix "jobs_" (get_jobs_partition_collection year) = true).
  { unfold get_jobs_partition_collection. cbv [String.append]. cbn.
    by destruct (int_str year). }
  split; [done|]. intros Heq. rewrite Heq in Hp. discriminate Hp.
Qed.

Lemma salary_field_value data key v :
  salary_field data key = Ok v → serialize_value v = v.
Proof.
  unfold salary_field. destruct (truthy _); [|by intros [= <-]].
  destruct (py_float _); [by intros [= <-]|done].
Qed.

(** What a successful [post_job] did. *)
Lemma post_job_inserts s s' employer_id data t jid :
  oid_fresh s →
  post_job employer_id data t s = (Ok jid, s') →
  ∃ e smin smax,
    id_of_arg employer_id = Ok e ∧
    salary_field data "salary_min" = Ok smin ∧
    salary_field data "salary_max" = Ok smax ∧
    jid = VId (next_oid s) ∧
    s' = set_coll (get_jobs_partition_collection (dt_year t))
           (get_collection (get_jobs_partition_collection (dt_year t)) s ++
              [<["_id" := VId (next_oid s)]> (new_job_doc e data smin smax t)])
           (mk_db (colls s) (N.succ (next_oid s))).
Proof.
  intros Hfresh. unfold post_job. monad_unfold.
  destruct (id_of_arg employer_id) as [e|]; [|done].
  destruct (salary_field data "salary_min") as [smin|]; [|done].
  destruct (salary_field data "salary_max") as [smax|]; [|done].
  rewrite insert_one_generates; [|done|by apply oid_fresh_collection].
  intros [= <- <-]. by exists e, smin, smax.
Qed.

(** C8, amended: on a database where the next generated id is unused,
    whenever [post_job] accepts an employer id and a field set,
    [get_job_by_id] on the returned id finds the job, with its id, the
    employer id, the title, required skills, description and location as
    supplied (the empty string when absent), both salary bounds as
    [post_job] converted them (a float, or null for an absent or falsy
    bound), the status open and the posting time.  No order between the
    salary bounds is part of the statement. *)
Theorem post_job_round_trip (s s' : db) (employer_id jid : value) (data : doc)
    (t : datetime) :
  oid_fresh s →
  post_job employer_id data t s = (Ok jid, s') →
  ∃ job e smin smax,
    get_job_by_id jid s' = (Ok (Some job), s') ∧
    id_of_arg employer_id = Ok e ∧
    salary_field data "salary_min" = Ok smin ∧
    salary_field data "salary_max" = Ok smax ∧
    job !! "job_id" = Some (VStr (py_str jid)) ∧
    job !! "id" = Some (VStr (py_str jid)) ∧
    job !! "employer_id" = Some (serialize_value e) ∧
    job !! "title" = Some (serialize_value (get_or data "title" (VStr ""))) ∧
    job !! "required_skills" =
      Some (serialize_value (get_or data "required_skills" (VStr ""))) ∧
    job !! "description" = Some (serialize_value (get_or data "description" (VStr ""))) ∧
    job !! "location" = Some (serialize_value (get_or data "location" (VStr ""))) ∧
    job !! "salary_min" = Some smin ∧
    job !! "salary_max" = Some smax ∧
    job !! "status" = Some (VStr "open") ∧
    job !! "posted_at" = Some (VDate t).
Proof.
  intros Hfresh Hpost.
  destruct (post_job_inserts _ _ _ _ _ _ Hfresh Hpost)
    as (e & smin & smax & He & Hmin & Hmax & -> & ->).
  set (n := next_oid s).
  set (p := get_jobs_partition_collection (dt_year t)).
  set (jd := <["_id" := VId n]> (new_job_doc e data smin smax t)).
  set (s0 := mk_db (colls s) (N.succ n)).
  set (s' := set_coll p _ s0).
  assert (Hfirst : first_hit (_get_all_job_partitions s') (field_is "_id" (VId n)) s'
                   = Some jd).
  { apply (first_hit_inserted _ _ s s' p).
    - apply elem_of_job_partitions. destruct (jobs_partition_name_ok (dt_year t)).
      split; [|done]. unfold s', set_coll. simpl. rewrite lookup_insert_eq. eauto.
    - intros p' _. apply find_field_is_none. by apply oid_fresh_collection.
    - unfold s'. by rewrite get_collection_set_eq.
    - intros p' _ Hne. unfold s'. by rewrite get_collection_set_ne.
    - apply field_is_true. apply lookup_insert_eq. }
  assert (Hid : jd !! "_id" = Some (VId n)) by apply lookup_insert_eq.
  assert (Hnoid : jd !! "id" = None).
  { unfold jd, new_job_doc. by simplify_map_eq. }
  assert (Hsid : serialize_doc jd !! "id" = Some (VStr (py_str (VId n)))).
  { by rewrite (serialize_doc_lookup_id jd _ Hid), Hnoid. }
  assert (Hfield : ∀ k v, k ≠ "_id" → k ≠ "id" → k ≠ "job_id" →
            new_job_doc e data smin smax t !! k = Some v →
            job_view jd !! k = Some (serialize_value v)).
  { intros k v H1 H2 H3 Hk. unfold job_view. rewrite lookup_insert_ne by done.
    rewrite serialize_doc_lookup_other by done. unfold jd.
    rewrite lookup_insert_ne by done. by rewrite Hk. }
  exists (job_view jd), e, smin, smax.
  split.
  { unfold get_job_by_id. monad_unfold. simpl.
    by rewrite find_job_in_first_hit, Hfirst. }
  do 3 (split; [done|]).
  split. { unfold job_view. by rewrite Hsid, lookup_insert_eq. }
  split. { unfold job_view. by rewrite lookup_insert_ne. }
  split. { by apply Hfield. }
  split. { by apply Hfield. }
  split. { by apply Hfield. }
  split. { by apply Hfield. }
  split. { by apply Hfield. }
  split. { rewrite <- (salary_field_value _ _ _ Hmin). by apply Hfield. }
  split. { rewrite <- (salary_field_value _ _ _ Hmax). by apply Hfield. }
  split. { by apply (Hfield "status" (VStr "open")). }
  by apply (Hfield "posted_at" (VDate t)).
Qed.

(** ** C5: the merge of [worker_matched_jobs] *)

Lemma posted_key_serialize d : posted_key (serialize_doc d) = posted_key d.
Proof.
  unfold posted_key. rewrite serialize_doc_lookup_other by done.
  by destruct (d !! "posted_at") as [[]|].
Qed.

Lemma key_or_min_serialize d : key_or_min (serialize_doc d) = key_or_min d.
Proof. unfold key_or_min. by rewrite posted_key_serialize. Qed.

Lemma dated_has_key d : dated d → is_Some (posted_key d).
Proof.
  unfold dated, posted_key. destruct (d !! "posted_at") as [[]|]; by eauto.
Qed.

Lemma sort_by_posted_at_ok l :
  Forall dated l →
  ∃ l', sort_by_posted_at l = Ok l' ∧ l' ≡ₚ l ∧ StronglySorted posted_ge l'.
Proof.
  intros Hall. unfold sort_by_posted_at.
  destruct (length l <=? 1)%nat eqn:Hlen.
  - exists l. split; [done|]. split; [done|].
    apply Nat.leb_le in Hlen. destruct l as [|x [|y l]]; simpl in Hlen; [| |lia];
      repeat constructor.
  - assert (Hkeys : forallb (λ d, bool_decide (is_Some (posted_key d))) l = true).
    { apply forallb_forall. intros d Hd. apply bool_decide_eq_true, dated_has_key.
      rewrite Forall_forall in Hall. apply Hall. by apply list_elem_of_In. }
    rewrite Hkeys. exists (sort_desc l).
    split; [done|]. split; [apply sort_desc_perm|apply sort_desc_sorted].
Qed.

(** The keys of a list of rows sorted most recent first. *)
Lemma sorted_keys l l' :
  l' ≡ₚ l → StronglySorted posted_ge l' → key_or_min <$> l' = ksort (key_or_min <$> l).
Proof.
  intros Hperm Hsorted. apply ksort_unique; [by rewrite Hperm|].
  apply StronglySorted_Sorted.
  by apply (StronglySorted_fmap key_or_min posted_ge dt_ge).
Qed.

Lemma mongo_sort_keys l :
  Forall dated l →
  key_or_min <$> mongo_sort_posted_desc l = ksort (key_or_min <$> l).
Proof.
  intros Hall. apply sorted_keys; [apply mongo_sort_perm|].
  apply Sorted_StronglySorted; [apply _|]. by apply mongo_sort_sorted.
Qed.

Lemma pick_lookup keys (d : doc) k :
  pick keys d !! k = if decide (k ∈ keys) then d !! k else None.
Proof.
  induction keys as [|key keys IH]; simpl.
  - rewrite lookup_empty. destruct (decide (k ∈ [])) as [Hin|]; [inversion Hin|done].
  - destruct (decide (k ∈ key :: keys)) as [Hin|Hnin].
    + destruct (decide (k = key)) as [->|Hne].
      * destruct (d !! key) eqn:Hkey; [by rewrite lookup_insert_eq|].
        rewrite IH. by destruct (decide _).
      * apply elem_of_cons in Hin as [?|Hin]; [done|].
        destruct (d !! key); [rewrite lookup_insert_ne by done|];
          rewrite IH; by rewrite decide_True.
    + apply not_elem_of_cons in Hnin as [Hne Hnin].
      destruct (d !! key); [rewrite lookup_insert_ne by done|];
        rewrite IH; by rewrite decide_False.
Qed.

Lemma set_opt_lookup_ne key v (d : doc) k :
  key ≠ k → set_opt key v d !! k = d !! k.
Proof. intros Hne. destruct v; simpl; [by rewrite lookup_insert_ne|done]. Qed.

(** A row of the pipeline carries the [_id] of its job. *)
Lemma matched_project_id job employer application :
  matched_project job employer application !! "_id" = job !! "_id".
Proof.
  unfold matched_project. rewrite !set_opt_lookup_ne by done.
  rewrite lookup_insert_ne by done. rewrite pick_lookup.
  by rewrite decide_True by (by left).
Qed.

(** Where every job has exactly one employer, the rows of a partition are
    its jobs that pass the [$match] stage, one row per job, in order. *)
Lemma matched_rows_per_job s w skills location p :
  Forall (λ job, length (lookup_employers s job) = 1%nat) (get_collection p s) →
  (λ row : doc, row !! "_id") <$> matched_rows s w skills location p =
  (λ job : doc, job !! "_id") <$>
    List.filter (matched_filter skills location) (get_collection p s).
Proof.
  unfold matched_rows. induction 1 as [|job jobs Hjob _ IH]; [done|].
  rewrite bind_cons, fmap_app, IH. simpl. unfold matched_rows_of at 1.
  destruct (matched_filter skills location job); [|done].
  destruct (lookup_employers s job) as [|employer [|]]; try done.
  csimpl. by rewrite matched_project_id.
Qed.

Lemma matched_scan_ok s w skills location names :
  skills ≠ [] → forallb regex_compiles skills = true →
  matched_scan s w skills location names =
    names ≫= λ p, take 100 (mongo_sort_posted_desc (matched_rows s w skills location p)).
Proof.
  intros Hne Hcomp. unfold matched_scan. apply list_bind_ext; [|done].
  intros p. unfold matched_aggregate.
  by rewrite Hcomp, bool_decide_eq_false_2.
Qed.

Section Merge.
Context (rows : string → list doc).

Let capped (p : string) : list doc := take 100 (mongo_sort_posted_desc (rows p)).

Lemma capped_dated names :
  Forall dated (names ≫= rows) → Forall dated (names ≫= capped).
Proof.
  induction names as [|p names IH]; [done|].
  rewrite !bind_cons, !Forall_app. intros [Hp Hrest]. split; [|by apply IH].
  unfold capped. apply Forall_take. by rewrite mongo_sort_perm.
Qed.

Lemma capped_keys names :
  Forall dated (names ≫= rows) →
  take 100 (ksort (key_or_min <$> (names ≫= capped))) =
  take 100 (ksort (key_or_min <$> (names ≫= rows))).
Proof.
  induction names as [|p names IH]; [done|].
  rewrite !bind_cons, !fmap_app, Forall_app. intros [Hp Hrest].
  unfold capped at 1. rewrite fmap_take, mongo_sort_keys by done.
  rewrite take_ksort_app_take. apply take_ksort_app_r. by apply IH.
Qed.

Lemma capped_perm names :
  (length (names ≫= rows) ≤ 100)%nat → names ≫= capped ≡ₚ names ≫= rows.
Proof.
  induction names as [|p names IH]; [done|].
  rewrite !bind_cons, length_app. intros Hlen.
  unfold capped at 1. rewrite take_ge.
  - rewrite mongo_sort_perm. f_equiv. apply IH. lia.
  - rewrite mongo_sort_perm. lia.
Qed.
End Merge.

(** C5: when the worker has at least one skill, every skill compiles as a
    pattern and every matching row carries a datetime (or no) [posted_at],
    [worker_matched_jobs] returns at most 100 rows, most recent first over
    all the partitions together; their [posted_at] values are the 100 most
    recent of all the matching rows of all the partitions, whatever the
    order of the rows within the partitions; and when at most 100 rows match
    in all, the result is the serialized rows of all the partitions, each
    once. *)
Theorem worker_matched_jobs_merge (s : db) (worker_id w : value) (skills : string)
    (location : option string) :
  id_of_arg worker_id = Ok w →
  skill_tokens skills ≠ [] →
  forallb regex_compiles (skill_tokens skills) = true →
  Forall dated (all_matched_rows s w (skill_tokens skills) location) →
  ∃ out,
    worker_matched_jobs worker_id skills location s = (Ok out, s) ∧
    (length out ≤ 100)%nat ∧
    StronglySorted posted_ge out ∧
    key_or_min <$> out =
      take 100 (ksort (key_or_min <$> all_matched_rows s w (skill_tokens skills) location)) ∧
    ((length (all_matched_rows s w (skill_tokens skills) location) ≤ 100)%nat →
     out ≡ₚ serialize_doc <$> all_matched_rows s w (skill_tokens skills) location).
Proof.
  intros Hw Hne Hcomp Hdated. unfold all_matched_rows in *.
  set (names := _get_all_job_partitions s) in *.
  set (rows := matched_rows s w (skill_tokens skills) location) in *.
  set (scan := names ≫= λ p, take 100 (mongo_sort_posted_desc (rows p))).
  destruct (sort_by_posted_at_ok scan) as (sorted & Hsort & Hperm & Hsorted).
  { by apply capped_dated. }
  exists (serialize_doc <$> take 100 sorted). split; [|split; [|split; [|split]]].
  - unfold worker_matched_jobs. monad_unfold. rewrite Hw.
    rewrite matched_scan_ok by done. fold names rows.
    assert (Hs : sort_by_posted_at
                   (names ≫= λ p, take 100 (mongo_sort_posted_desc (rows p)))
                 = Ok sorted) by exact Hsort.
    by rewrite Hs.
  - rewrite length_fmap, length_take. lia.
  - apply (StronglySorted_fmap serialize_doc posted_ge posted_ge).
    + intros a b. unfold posted_ge. by rewrite !key_or_min_serialize.
    + apply (StronglySorted_app_1_l _ _ (drop 100 sorted)). by rewrite take_drop.
  - rewrite <- list_fmap_compose.
    trans (key_or_min <$> take 100 sorted).
    { apply list_fmap_ext. intros ?? _. apply key_or_min_serialize. }
    rewrite fmap_take, (sorted_keys scan sorted) by done.
    by apply capped_keys.
  - intros Hlen. f_equiv. rewrite take_ge.
    + rewrite Hperm. by apply capped_perm.
    + rewrite Hperm. unfold scan. by rewrite (capped_perm rows names).
Qed.

(** ** C1, C3, C4: the paths that read the unpartitioned collections *)

(** [search_jobs] reads the collections [jobs] and [employers] and nothing
    else: what the year partitions hold does not reach its result. *)
Lemma search_jobs_reads_unpartitioned s s' query_text location skills :
  get_collection "jobs" s = get_collection "jobs" s' →
  get_collection "employers" s = get_collection "employers" s' →
  (search_jobs query_text location skills s).1 =
  (search_jobs query_text location skills s').1.
Proof.
  intros Hjobs Hemp. unfold search_jobs, search_aggregate. monad_unfold.
  destruct (forallb regex_compiles _); [|done]. simpl.
  unfold lookup_employers. by rewrite Hjobs, Hemp.
Qed.

(** [update_job] looks for the job in the collection [jobs] alone. *)
Lemma update_job_reads_unpartitioned s job_id j data now :
  id_of_arg job_id = Ok j →
  List.find (field_is "_id" j) (get_collection "jobs" s) = None →
  update_job job_id data now s = (Err (ValueError "Job not found"), s).
Proof.
  intros Hj Hnone. unfold update_job. monad_unfold. by rewrite Hj, Hnone.
Qed.

Lemma delete_one_other name q s p :
  name ≠ p → get_collection p (delete_one name q s).2 = get_collection p s.
Proof.
  intros Hne. unfold delete_one.
  destruct (List.find q (get_collection name s)); [|done].
  simpl. by rewrite get_collection_set_ne.
Qed.

Lemma delete_one_ok name q s : ∃ n, (delete_one name q s).1 = Ok n.
Proof. unfold delete_one. destruct (List.find _ _); eauto. Qed.

(** [delete_user] writes to no worker partition. *)
Lemma delete_user_keeps_partitions s user_id p :
  p ∈ get_all_worker_partitions →
  get_collection p (delete_user user_id s).2 = get_collection p s.
Proof.
  intros Hp.
  assert (Hne : "workers" ≠ p ∧ "employers" ≠ p ∧ "admins" ≠ p ∧ "users" ≠ p).
  { rewrite worker_partitions_list in Hp.
    repeat (apply elem_of_cons in Hp as [->|Hp]; [by repeat split|]).
    inversion Hp. }
  destruct Hne as (H1 & H2 & H3 & H4).
  unfold delete_user. monad_unfold.
  destruct (id_of_arg user_id) as [u|]; [|done].
  destruct (List.find _ (get_collection "users" s)); [|done].
  pose proof (delete_one_other "workers" (field_is "user_id" u) s p H1) as E1.
  destruct (delete_one "workers" _ s) as [[n1|e1] s1] eqn:D1;
    [|by destruct (delete_one_ok "workers" (field_is "user_id" u) s) as [? Hok];
        rewrite D1 in Hok].
  pose proof (delete_one_other "employers" (field_is "user_id" u) s1 p H2) as E2.
  destruct (delete_one "employers" _ s1) as [[n2|e2] s2] eqn:D2;
    [|by destruct (delete_one_ok "employers" (field_is "user_id" u) s1) as [? Hok];
        rewrite D2 in Hok].
  pose proof (delete_one_other "admins" (field_is "user_id" u) s2 p H3) as E3.
  destruct (delete_one "admins" _ s2) as [[n3|e3] s3] eqn:D3;
    [|by destruct (delete_one_ok "admins" (field_is "user_id" u) s2) as [? Hok];
        rewrite D3 in Hok].
  simpl in *. rewrite delete_one_other by done. congruence.
Qed.

End Properties.

(** * Further properties of the modelled functions *)

From Stdlib Require DecimalZ DecimalPos.

(** ** Identifiers and their string form *)

Lemma string_length_app s1 s2 :
  String.length (s1 +:+ s2) = (String.length s1 + String.length s2)%nat.
Proof.
  induction s1 as [|c s1 IH]; [done|].
  change (String c s1 +:+ s2) with (String c (s1 +:+ s2)). simpl. by rewrite IH.
Qed.

Lemma hex_fixed_length width n : String.length (hex_fixed width n) = width.
Proof.
  revert n. induction width as [|w IH]; intros n; [done|].
  simpl. rewrite string_length_app, IH. simpl. lia.
Qed.

Lemma hex_parse_app acc s1 s2 :
  hex_parse acc (s1 +:+ s2) =
    match hex_parse acc s1 with
    | Some a => hex_parse a s2
    | None => None
    end.
Proof.
  revert acc. induction s1 as [|c s1 IH]; intros acc; [done|].
  change (String c s1 +:+ s2) with (String c (s1 +:+ s2)). simpl.
  destruct (hex_value c); [apply IH|done].
Qed.

Lemma hex_value_digit d : (d < 16)%N → hex_value (hex_digit d) = Some d.
Proof.
  intros Hd.
  assert (Hcases : d ∈ (N.of_nat <$> seq 0 16)).
  { apply list_elem_of_fmap. exists (N.to_nat d). split; [lia|].
    apply elem_of_seq. lia. }
  simpl in Hcases.
  repeat (apply elem_of_cons in Hcases as [->|Hcases]; [reflexivity|]).
  inversion Hcases.
Qed.

Lemma hex_parse_fixed width n acc :
  hex_parse acc (hex_fixed width n) = Some (acc * 16 ^ N.of_nat width + n mod 16 ^ N.of_nat width)%N.
Proof.
  revert n acc. induction width as [|w IH]; intros n acc.
  - simpl. rewrite N.mod_1_r. f_equal. lia.
  - change (hex_fixed (S w) n)
      with (hex_fixed w (n / 16)%N +:+ String (hex_digit (n mod 16)%N) "").
    rewrite hex_parse_app, IH. simpl.
    rewrite hex_value_digit by (apply N.mod_lt; lia). f_equal.
    rewrite Nat2N.inj_succ, N.pow_succ_r'.
    rewrite (N.Div0.mod_mul_r n 16 (16 ^ N.of_nat w)). lia.
Qed.

(** * The other functions of the repositories

    Equality queries are [field_is], as before: the values that these
    functions query are [ObjectId]s and strings. *)

Section Repositories.
Context `{Runtime}.

(** [find_many(collection_name, query)] without sort and limit. *)
Definition find_many (name : string) (query : doc → bool) : M (list doc) :=
  gets (λ s, List.filter query (get_collection name s)).

(** [doc = serialize_doc(doc); doc[alias] = doc["id"]]. *)
Definition with_alias (alias : string) (d : doc) : M doc :=
  let d := serialize_doc d in
  id ← getitem d "id";
  mret (<[alias := id]> d).

(** [a or b]. *)
Definition py_or (a b : value) : value := if truthy a then a else b.

(** ** Users and profiles ([models/user_model_mongo.py]) *)

Definition create_user (email password_hash role : value) (now : datetime) : M value :=
  let user_doc : doc :=
    {[ "email" := email; "password_hash" := password_hash; "role" := role;
       "created_at" := VDate now ]} in
  '(inserted_id, _) ← insert_one "users" user_doc;
  mret inserted_id.

Definition get_user_by_email (email : value) : M (option doc) :=
  user ← find_one "users" (field_is "email" email);
  match user with
  | Some user => user ← with_alias "user_id" user; mret (Some user)
  | None => mret None
  end.

Definition get_user_by_id (user_id : value) : M (option doc) :=
  user_id ← lift (id_of_arg user_id);
  user ← find_one "users" (field_is "_id" user_id);
  match user with
  | Some user => user ← with_alias "user_id" user; mret (Some user)
  | None => mret None
  end.

(** [doc[alias] = doc["id"]; doc["user_id"] = str(doc["user_id"])] on a
    serialized profile. *)
Definition profile_view (alias : string) (d : doc) : M doc :=
  d ← with_alias alias d;
  user_id ← getitem d "user_id";
  mret (<["user_id" := VStr (py_str user_id)]> d).

Definition get_worker_by_user (user_id : value) : M (option doc) :=
  user_id ← lift (id_of_arg user_id);
  worker ← _find_worker_in_partitions (field_is "user_id" user_id);
  match worker with
  | Some worker => worker ← profile_view "worker_id" worker; mret (Some worker)
  | None => mret None
  end.

(** The [$set] document of [upsert_worker_profile]: a field that [data]
    lacks is set to the empty string. *)
Definition worker_profile_fields (data : doc) (now : datetime) : doc :=
  let experience_value :=
    py_or (get_or data "experience_years" VNull) (get_or data "experience" (VStr "")) in
  {[ "full_name" := get_or data "full_name" (VStr "");
     "skills" := get_or data "skills" (VStr "");
     "phone" := get_or data "phone" (VStr "");
     "location" := get_or data "location" (VStr "");
     "experience" := experience_value;
     "experience_years" := experience_value;
     "age" := get_or data "age" (VStr "");
     "gender" := get_or data "gender" (VStr "");
     "updated_at" := VDate now ]}.

Definition upsert_worker_profile (worker_id : value) (data : doc) (now : datetime) : M Z :=
  worker_id ← lift (id_of_arg worker_id);
  let partition_coll := get_worker_partition_collection worker_id in
  update_one partition_coll (field_is "_id" worker_id) (worker_profile_fields data now).

Definition create_employer_profile (user_id company_name employer_name : value)
    (now : datetime) : M value :=
  user_id ← lift (id_of_arg user_id);
  let employer_doc : doc :=
    {[ "user_id" := user_id; "employer_name" := employer_name;
       "company_name" := company_name; "location" := VStr ""; "phone" := VStr "";
       "created_at" := VDate now ]} in
  '(inserted_id, _) ← insert_one "employers" employer_doc;
  mret inserted_id.

Definition get_employer_by_user (user_id : value) : M (option doc) :=
  user_id ← lift (id_of_arg user_id);
  employer ← find_one "employers" (field_is "user_id" user_id);
  match employer with
  | Some employer => employer ← profile_view "employer_id" employer; mret (Some employer)
  | None => mret None
  end.

Definition create_admin_profile (user_id admin_name department : value)
    (now : datetime) : M value :=
  user_id ← lift (id_of_arg user_id);
  let admin_doc : doc :=
    {[ "user_id" := user_id; "admin_name" := admin_name; "department" := department;
       "created_at" := VDate now ]} in
  '(inserted_id, _) ← insert_one "admins" admin_doc;
  mret inserted_id.

Definition get_admin_by_user (user_id : value) : M (option doc) :=
  user_id ← lift (id_of_arg user_id);
  admin ← find_one "admins" (field_is "user_id" user_id);
  match admin with
  | Some admin => admin ← profile_view "admin_id" admin; mret (Some admin)
  | None => mret None
  end.

Definition upsert_admin_profile (admin_id : value) (data : doc) (now : datetime) : M Z :=
  admin_id ← lift (id_of_arg admin_id);
  update_one "admins" (field_is "_id" admin_id)
    {[ "admin_name" := get_or data "admin_name" (VStr "");
       "department" := get_or data "department" (VStr "");
       "updated_at" := VDate now ]}.

(** ** Applications ([models/application_model_mongo.py]) *)

Definition valid_status (status : value) : bool :=
  bool_decide (status ∈ [VStr "pending"; VStr "approved"; VStr "rejected"]).

Definition update_application_status (application_id status : value) (now : datetime)
    : M Z :=
  application_id ← lift (id_of_arg application_id);
  if valid_status status
  then update_one "applications" (field_is "_id" application_id)
         {[ "application_status" := status; "updated_at" := VDate now ]}
  else raise (ValueError "Invalid status. Must be 'pending', 'approved', or 'rejected'").

Definition get_application_by_id (application_id : value) : M (option doc) :=
  application_id ← lift (id_of_arg application_id);
  app ← find_one "applications" (field_is "_id" application_id);
  match app with
  | Some app => app ← with_alias "application_id" app; mret (Some app)
  | None => mret None
  end.

Definition delete_application (application_id : value) : M Z :=
  application_id ← lift (id_of_arg application_id);
  delete_one "applications" (field_is "_id" application_id).

(** ** Listings of jobs ([models/job_model_mongo.py]) *)

(** The loop [for job in all_jobs: job = serialize_doc(job);
    job[alias] = job["id"]; result.append(job)]. *)
Fixpoint with_alias_all (alias : string) (docs : list doc) : M (list doc) :=
  match docs with
  | [] => mret []
  | d :: docs =>
      d ← with_alias alias d;
      docs ← with_alias_all alias docs;
      mret (d :: docs)
  end.

Definition get_jobs_by_employer (employer_id : value) : M (list doc) :=
  employer_id ← lift (id_of_arg employer_id);
  all_jobs ← gets (λ s,
    _get_all_job_partitions s ≫= λ partition_name,
      List.filter (field_is "employer_id" employer_id) (get_collection partition_name s));
  all_jobs ← lift (sort_by_posted_at all_jobs);
  with_alias_all "job_id" all_jobs.

Definition admin_project (job employer : doc) : doc :=
  set_opt "company_name" (employer !! "company_name")
    (<["employer_id" := to_string_field "employer_id" job]>
      (<["job_id" := to_string_field "_id" job]>
        (pick ["_id"; "title"; "required_skills"; "description"; "salary_min";
               "salary_max"; "location"; "status"; "posted_at"] job))).

(** The pipeline of [admin_list_jobs] before [$sort], on one partition. *)
Definition admin_rows (s : db) (partition_name : string) : list doc :=
  get_collection partition_name s ≫= λ job, admin_project job <$> lookup_employers s job.

Definition admin_list_jobs : M (list doc) :=
  all_results ← gets (λ s,
    _get_all_job_partitions s ≫= λ partition_name,
      mongo_sort_posted_desc (admin_rows s partition_name));
  all_results ← lift (sort_by_posted_at all_results);
  mret (serialize_doc <$> all_results).

(** ** Registration ([app.py]) *)

(** [register] from the reading of the role on.  [email] is the stripped
    and lower-cased address of the request and [pw_hash] the hash of its
    password; [data] is the request body; [t_user] and [t_profile] are the
    readings of the clock in [create_user] and in the profile function.
    The result is the [user_id] of the answer. *)
Definition register (data : doc) (email pw_hash : value) (t_user t_profile : datetime)
    : M value :=
  role ← getitem data "role";
  _ ← create_user email pw_hash role t_user;
  user ← get_user_by_email email;
  match user with
  | None => raise TypeError
  | Some user =>
      user_id ← getitem user "user_id";
      _ ← (if bool_decide (role = VStr "employer") then
             _ ← create_employer_profile user_id (get_or data "company_name" (VStr ""))
                   (get_or data "employer_name" (VStr "")) t_profile;
             mret ()
           else if bool_decide (role = VStr "worker") then
             _ ← ensure_worker_row user_id (get_or data "full_name" (VStr ""))
                   (get_or data "skills" (VStr "")) t_profile;
             mret ()
           else if bool_decide (role = VStr "admin") then
             _ ← create_admin_profile user_id (get_or data "admin_name" (VStr ""))
                   (get_or data "department" VNull) t_profile;
             mret ()
           else mret ());
      mret user_id
  end.

(** ** Routes ([app.py]) *)

(** [try: body except Exception as e: handler]. *)
Definition catch {A} (body : M A) (handler : exn → M A) : M A :=
  λ s,
    match body s with
    | (Ok a, s') => (Ok a, s')
    | (Err e, s') => handler e s'
    end.

(** The body of a route after the role check: [sub] is the subject of the
    token, [body] the request body; the answer is the message and the
    status of the response. *)
Definition api_worker_apply (sub : value) (body : doc) (now1 now2 : datetime)
    : M (string * Z) :=
  let user_id := sub in
  job_id ← getitem body "job_id";
  w ← get_worker_by_user user_id;
  match w with
  | None => mret ("worker profile missing", 400)
  | Some w =>
      job ← get_job_by_id job_id;
      match job with
      | None => mret ("job not found", 404)
      | Some _ =>
          worker_id ← getitem w "worker_id";
          _ ← create_application job_id worker_id now1 now2;
          mret ("applied", 200)
      end
  end.

Definition api_employer_update_application (sub : value) (body : doc)
    (application_id : string) (now : datetime) : M (string * Z) :=
  let new_status := get_or body "status" VNull in
  if negb (bool_decide (new_status ∈ [VStr "approved"; VStr "rejected"]))
  then mret ("invalid status", 400)
  else
    aid ← lift (to_object_id (VStr application_id));
    application ← find_one "applications" (field_is "_id" aid);
    match application with
    | None => mret ("application not found", 404)
    | Some application =>
        job_id ← getitem application "job_id";
        job ← get_job_by_id (VStr (py_str job_id));
        match job with
        | None => mret ("job not found", 404)
        | Some job =>
            emp ← get_employer_by_user sub;
            match emp with
            | None => mret ("forbidden", 403)
            | Some emp =>
                let job_employer_id := py_str (get_or job "employer_id" VNull) in
                employer_id ← getitem emp "employer_id";
                let current_employer_id := py_str employer_id in
                if negb (String.eqb job_employer_id current_employer_id)
                then mret ("forbidden", 403)
                else
                  _ ← update_application_status (VStr application_id) new_status now;
                  mret ("updated", 200)
            end
        end
    end.

Definition api_admin_delete_user (sub : value) (user_id : string) : M (string * Z) :=
  catch
    (let current_user_id := sub in
     if bool_decide (VStr user_id = current_user_id)
     then mret ("Cannot delete your own account", 400)
     else
       user_obj_id ← lift (to_object_id (VStr user_id));
       user ← find_one "users" (field_is "_id" user_obj_id);
       match user with
       | None => mret ("User not found", 404)
       | Some _ =>
           _ ← delete_one "workers" (field_is "user_id" user_obj_id);
           _ ← delete_one "employers" (field_is "user_id" user_obj_id);
           _ ← delete_one "admins" (field_is "user_id" user_obj_id);
           result ← delete_one "users" (field_is "_id" user_obj_id);
           if 0 <? result then mret ("User deleted successfully", 200)
           else mret ("User not found", 404)
       end)
    (λ _, mret ("Error deleting user", 500)).

(** [t_row] and [t_save] are the readings of the clock in
    [ensure_worker_row] and in [upsert_worker_profile]. *)
Definition api_worker_update_profile (sub : value) (payload : doc)
    (t_row t_save : datetime) : M (string * Z) :=
  let user_id := sub in
  w ← get_worker_by_user user_id;
  w ← match w with
      | None =>
          _ ← ensure_worker_row user_id (get_or payload "full_name" (VStr ""))
                (get_or payload "skills" (VStr "")) t_row;
          get_worker_by_user user_id
      | Some w => mret (Some w)
      end;
  match w with
  | None => raise TypeError
  | Some w =>
      worker_id ← getitem w "worker_id";
      _ ← upsert_worker_profile worker_id payload t_save;
      mret ("worker profile saved", 200)
  end.

End Repositories.

Section MoreProperties.
Context `{Runtime}.

Lemma id_of_arg_oid_str (o : oid) :
  (o < 2 ^ 96)%N → id_of_arg (VStr (oid_str o)) = Ok (VId o).
Proof.
  intros Ho. unfold id_of_arg, to_object_id, oid_str.
  rewrite hex_fixed_length. simpl Nat.eqb. cbv iota.
  rewrite hex_parse_fixed. rewrite N.mod_small by (simpl; lia).
  by rewrite N.mul_0_l, N.add_0_l.
Qed.

(** X1: the string that [str] prints for an [ObjectId] is accepted by
    [to_object_id], and by the opening of every repository function, and
    gives the [ObjectId] back. *)
Theorem to_object_id_round_trip (o : oid) :
  (o < 2 ^ 96)%N →
  to_object_id (VStr (oid_str o)) = Ok (VId o) ∧
  id_of_arg (VStr (py_str (VId o))) = Ok (VId o).
Proof. intros Ho. split; by apply id_of_arg_oid_str. Qed.

(** ** Serialization *)

Lemma serialize_value_idemp v : serialize_value (serialize_value v) = serialize_value v.
Proof. by destruct v. Qed.

Lemma serialize_doc_values d k v :
  serialize_doc d !! k = Some v → serialize_value v = v.
Proof.
  unfold serialize_doc. rewrite lookup_union_Some_raw, lookup_fmap.
  intros [Hv|[_ Hv]].
  - destruct (delete "_id" d !! k) as [x|]; simplify_eq/=.
    apply serialize_value_idemp.
  - destruct (d !! "_id"); [|by rewrite lookup_empty in Hv].
    apply lookup_singleton_Some in Hv as [_ <-]. done.
Qed.

(** X2: a serialized document has no [_id], holds no [ObjectId] under any
    field, and serializing it again changes nothing. *)
Theorem serialize_doc_idempotent (d : doc) :
  serialize_doc d !! "_id" = None ∧
  (∀ k o, serialize_doc d !! k ≠ Some (VId o)) ∧
  serialize_doc (serialize_doc d) = serialize_doc d.
Proof.
  split; [apply serialize_doc_no_id|]. split.
  - intros k o Hk. by apply serialize_doc_values in Hk.
  - apply map_eq. intros k.
    rewrite (serialize_doc_lookup_plain _ _ (serialize_doc_no_id d)).
    destruct (serialize_doc d !! k) as [v|] eqn:Hk; [|done].
    simpl. by rewrite (serialize_doc_values d k v).
Qed.

(** ** Where [post_job] writes *)

Lemma int_str_inj z z' : int_str z = int_str z' → z = z'.
Proof.
  unfold int_str. intros Heq. apply DecimalZ.to_int_inj.
  assert (Hnn : ∀ x, Z.to_int x ≠ Decimal.Pos Decimal.Nil ∧
                     Z.to_int x ≠ Decimal.Neg Decimal.Nil).
  { intros [|p|p]; simpl; split; try discriminate;
      intros [= Hp]; by apply DecimalPos.Unsigned.to_uint_nonnil in Hp. }
  destruct (Hnn z) as [Hz1 Hz2], (Hnn z') as [Hz1' Hz2'].
  pose proof (NilZero.isi _ Hz1 Hz2) as Hi. pose proof (NilZero.isi _ Hz1' Hz2') as Hi'.
  rewrite Heq in Hi. congruence.
Qed.

Lemma jobs_partition_name_inj year year' :
  get_jobs_partition_collection year = get_jobs_partition_collection year' → year = year'.
Proof.
  unfold get_jobs_partition_collection. intros Heq.
  apply int_str_inj. by apply (inj (String.app "jobs_")) in Heq.
Qed.

(** X3: a successful [post_job] appends one document, under the returned
    id, to the partition named after the year of the posting time, which
    partition discovery lists from then on; every other collection is as
    before, so no partition of another year holds the job. *)
Theorem post_job_partition (s s' : db) (employer_id jid : value) (data : doc)
    (t : datetime) :
  oid_fresh s →
  post_job employer_id data t s = (Ok jid, s') →
  get_jobs_partition_collection (dt_year t) ∈ _get_all_job_partitions s' ∧
  (∃ job, job !! "_id" = Some jid ∧
          get_collection (get_jobs_partition_collection (dt_year t)) s' =
            (get_collection (get_jobs_partition_collection (dt_year t)) s ++ [job])%list) ∧
  (∀ c, c ≠ get_jobs_partition_collection (dt_year t) →
        get_collection c s' = get_collection c s) ∧
  (∀ year, year ≠ dt_year t →
        List.find (field_is "_id" jid)
          (get_collection (get_jobs_partition_collection year) s') = None).
Proof.
  intros Hfresh Hpost.
  destruct (post_job_inserts _ _ _ _ _ _ Hfresh Hpost)
    as (e & smin & smax & He & Hmin & Hmax & -> & ->).
  set (p := get_jobs_partition_collection (dt_year t)).
  assert (Hother : ∀ c, c ≠ p →
            get_collection c (set_coll p
              (get_collection p s ++
                 [<["_id" := VId (next_oid s)]> (new_job_doc e data smin smax t)])
              (mk_db (colls s) (N.succ (next_oid s)))) = get_collection c s).
  { intros c Hc. by rewrite get_collection_set_ne. }
  split; [|split; [|split]].
  - apply elem_of_job_partitions. destruct (jobs_partition_name_ok (dt_year t)).
    split; [|done]. unfold set_coll. simpl. rewrite lookup_insert_eq. eauto.
  - eexists. split; [apply lookup_insert_eq|]. by rewrite get_collection_set_eq.
  - exact Hother.
  - intros year Hyear. rewrite Hother.
    + apply find_field_is_none. by apply oid_fresh_collection.
    + intros Heq. by apply jobs_partition_name_inj in Heq.
Qed.

Lemma insert_one_error name d s s' e :
  insert_one name d s = (Err e, s') → colls s' = colls s.
Proof.
  unfold insert_one. destruct (d !! "_id"); simpl;
    destruct (existsb _ _); by intros [= _ <-].
Qed.

(** X4: when [post_job] raises (an employer id that is no [ObjectId], a
    salary that is not a number), no collection has changed. *)
Theorem post_job_error_writes_nothing (s s' : db) (employer_id : value) (data : doc)
    (t : datetime) (e : exn) :
  post_job employer_id data t s = (Err e, s') → colls s' = colls s.
Proof.
  unfold post_job. monad_unfold.
  destruct (id_of_arg employer_id) as [emp|]; [|by intros [= _ <-]].
  destruct (salary_field data "salary_min") as [smin|]; [|by intros [= _ <-]].
  destruct (salary_field data "salary_max") as [smax|]; [|by intros [= _ <-]].
  destruct (insert_one _ _ s) as [[[i d]|e'] s1] eqn:Hins; [done|].
  intros [= _ <-]. by apply insert_one_error in Hins.
Qed.

(** ** What [worker_matched_jobs] returns *)

Lemma sort_by_posted_at_perm l l' : sort_by_posted_at l = Ok l' → l' ≡ₚ l.
Proof.
  unfold sort_by_posted_at. destruct (length l <=? 1)%nat; [by intros [= <-]|].
  destruct (forallb _ l); [|done]. intros [= <-]. apply sort_desc_perm.
Qed.

Lemma matched_scan_failed s w skills location names :
  skills = [] ∨ forallb regex_compiles skills = false →
  matched_scan s w skills location names = [].
Proof.
  intros Hbad. unfold matched_scan.
  induction names as [|p names IH]; [done|].
  rewrite bind_cons, IH, app_nil_r. unfold matched_aggregate.
  destruct Hbad as [->|Hcomp]; [done|].
  by rewrite Hcomp, orb_true_r.
Qed.

(** X5: for a worker without usable skill (no skill between the commas, or
    a skill that does not compile as a pattern) every partition query
    fails, the failures are swallowed, and [worker_matched_jobs] returns
    the empty list with the database untouched. *)
Theorem worker_matched_jobs_no_skill (s : db) (worker_id w : value) (skills : string)
    (location : option string) :
  id_of_arg worker_id = Ok w →
  skill_tokens skills = [] ∨ forallb regex_compiles (skill_tokens skills) = false →
  worker_matched_jobs worker_id skills location s = (Ok [], s).
Proof.
  intros Hw Hbad. unfold worker_matched_jobs. monad_unfold. rewrite Hw.
  by rewrite matched_scan_failed.
Qed.

Lemma matched_scan_elem s w skills location names row :
  row ∈ matched_scan s w skills location names →
  ∃ p, p ∈ names ∧ row ∈ matched_rows s w skills location p.
Proof.
  unfold matched_scan. intros (p & Hrow & Hp)%list_elem_of_bind.
  exists p. split; [done|]. unfold matched_aggregate in Hrow.
  destruct (_ || _); [inversion Hrow|].
  apply (subseteq_take 100) in Hrow. by rewrite mongo_sort_perm in Hrow.
Qed.

(** X6: every row that [worker_matched_jobs] returns is the serialized
    projection of a job of some year partition that is open and passes the
    match stage, joined with an employer of the employers collection: a
    closed job, or a job without employer record, is never returned. *)
Theorem worker_matched_jobs_sound (s s' : db) (worker_id : value) (skills : string)
    (location : option string) (out : list doc) (row : doc) :
  worker_matched_jobs worker_id skills location s = (Ok out, s') →
  row ∈ out →
  ∃ w p job employer,
    id_of_arg worker_id = Ok w ∧
    p ∈ _get_all_job_partitions s ∧
    job ∈ get_collection p s ∧
    employer ∈ get_collection "employers" s ∧
    job !! "status" = Some (VStr "open") ∧
    matched_filter (skill_tokens skills) location job = true ∧
    row = serialize_doc (matched_project job employer (lookup_applications s w job)).
Proof.
  unfold worker_matched_jobs. monad_unfold.
  destruct (id_of_arg worker_id) as [w|]; [|done].
  destruct (sort_by_posted_at _) as [sorted|] eqn:Hsort; [|done].
  intros [= <- <-] Hrow.
  apply list_elem_of_fmap in Hrow as (row' & -> & Hrow).
  apply (subseteq_take 100) in Hrow.
  rewrite (sort_by_posted_at_perm _ _ Hsort) in Hrow.
  apply matched_scan_elem in Hrow as (p & Hp & Hrow).
  unfold matched_rows in Hrow.
  apply list_elem_of_bind in Hrow as (job & Hrow & Hjob).
  unfold matched_rows_of in Hrow.
  destruct (matched_filter _ _ job) eqn:Hfilter; [|inversion Hrow].
  apply list_elem_of_fmap in Hrow as (employer & -> & Hemp).
  unfold lookup_employers in Hemp.
  apply list_elem_of_In, filter_In in Hemp as [Hemp%list_elem_of_In _].
  exists w, p, job, employer. repeat split; try done.
  unfold matched_filter in Hfilter.
  apply andb_true_iff in Hfilter as [Hopen%andb_true_iff _].
  destruct Hopen as [Hopen _]. by apply field_is_true.
Qed.

(** ** Listings of jobs over the partitions *)

Lemma with_alias_ok alias d v s :
  d !! "_id" = Some v →
  with_alias alias d s =
    (Ok (<[alias := default VNull (serialize_doc d !! "id")]> (serialize_doc d)), s).
Proof.
  intros Hv. unfold with_alias. monad_unfold.
  by rewrite (serialize_doc_lookup_id d v Hv).
Qed.

Lemma with_alias_all_ok alias docs s :
  Forall (λ d : doc, is_Some (d !! "_id")) docs →
  with_alias_all alias docs s =
    (Ok ((λ d, <[alias := default VNull (serialize_doc d !! "id")]> (serialize_doc d))
           <$> docs), s).
Proof.
  induction 1 as [|d docs [v Hv] _ IH]; [done|].
  simpl. unfold mbind, M_bind at 1. rewrite (with_alias_ok alias d v s Hv).
  unfold mbind, M_bind at 1. by rewrite IH.
Qed.

Lemma bind_perm_ext {A B} (f g : A → list B) (l : list A) :
  (∀ x, f x ≡ₚ g x) → l ≫= f ≡ₚ l ≫= g.
Proof.
  intros Hfg. induction l as [|x l IH]; [done|].
  rewrite !bind_cons. by rewrite Hfg, IH.
Qed.

Lemma partition_docs_have_ids s names (f : string → list doc) :
  ids_present s →
  (∀ p, f p ⊆ get_collection p s) →
  Forall (λ d : doc, is_Some (d !! "_id")) (names ≫= f).
Proof.
  intros Hids Hsub. apply Forall_forall. intros d (p & Hd & _)%list_elem_of_bind.
  pose proof (ids_present_collection p s Hids) as Hall.
  rewrite Forall_forall in Hall. apply Hall. by apply Hsub.
Qed.

Lemma filter_subseteq {A} (q : A → bool) (l : list A) : List.filter q l ⊆ l.
Proof. intros x Hx. by apply list_elem_of_In, filter_In in Hx as [?%list_elem_of_In _]. Qed.

(** X7: [get_jobs_by_employer] returns every job of the employer that any
    year partition holds, each once and serialized with its [job_id], most
    recent first and without cap (on stored documents that have their
    [_id] and a datetime, or no, [posted_at]). *)
Theorem get_jobs_by_employer_complete (s : db) (employer_id e : value) :
  id_of_arg employer_id = Ok e →
  ids_present s →
  Forall dated (_get_all_job_partitions s ≫= λ p,
                  List.filter (field_is "employer_id" e) (get_collection p s)) →
  ∃ sorted,
    get_jobs_by_employer employer_id s = (Ok (job_view <$> sorted), s) ∧
    sorted ≡ₚ (_get_all_job_partitions s ≫= λ p,
                 List.filter (field_is "employer_id" e) (get_collection p s)) ∧
    StronglySorted posted_ge sorted ∧
    StronglySorted posted_ge (job_view <$> sorted).
Proof.
  intros He Hids Hdated.
  destruct (sort_by_posted_at_ok _ Hdated) as (sorted & Hsort & Hperm & Hsorted).
  exists sorted. split; [|split; [done|split; [done|]]].
  - unfold get_jobs_by_employer. monad_unfold. rewrite He, Hsort.
    rewrite with_alias_all_ok; [done|]. rewrite Hperm.
    apply (partition_docs_have_ids s); [done|]. intros p. apply filter_subseteq.
  - apply (StronglySorted_fmap job_view posted_ge posted_ge); [|done].
    intros a b. unfold posted_ge, job_view, key_or_min, posted_key.
    rewrite !lookup_insert_ne by done.
    by rewrite !serialize_doc_lookup_other by done;
      destruct (a !! "posted_at") as [[]|], (b !! "posted_at") as [[]|].
Qed.

(** X8: [admin_list_jobs] returns the serialized rows of all the year
    partitions, one per job and employer record of the job, most recent
    first and without cap; a job of the unpartitioned collection, or one
    without employer record, is not listed. *)
Theorem admin_list_jobs_complete (s : db) :
  Forall dated (_get_all_job_partitions s ≫= admin_rows s) →
  ∃ sorted,
    admin_list_jobs s = (Ok (serialize_doc <$> sorted), s) ∧
    sorted ≡ₚ _get_all_job_partitions s ≫= admin_rows s ∧
    StronglySorted posted_ge sorted.
Proof.
  intros Hdated.
  assert (Hscan : (_get_all_job_partitions s ≫= λ p, mongo_sort_posted_desc (admin_rows s p))
                  ≡ₚ _get_all_job_partitions s ≫= admin_rows s).
  { apply bind_perm_ext. intros p. apply mongo_sort_perm. }
  destruct (sort_by_posted_at_ok
              (_get_all_job_partitions s ≫= λ p, mongo_sort_posted_desc (admin_rows s p)))
    as (sorted & Hsort & Hperm & Hsorted).
  { by rewrite Hscan. }
  exists sorted. split; [|split; [by rewrite Hperm|done]].
  unfold admin_list_jobs. monad_unfold. by rewrite Hsort.
Qed.

(** ** Deleting and updating a job *)

Lemma delete_one_found name q s d :
  List.find q (get_collection name s) = Some d →
  delete_one name q s = (Ok 1, set_coll name (remove_first q (get_collection name s)) s).
Proof. intros Hf. unfold delete_one. by rewrite Hf. Qed.

Lemma delete_in_partitions_hit names j s p d :
  p ∈ names →
  List.find (field_is "_id" j) (get_collection p s) = Some d →
  (∀ p', p' ∈ names → p' ≠ p →
         List.find (field_is "_id" j) (get_collection p' s) = None) →
  delete_in_partitions names j s =
    (Ok true, set_coll p (remove_first (field_is "_id" j) (get_collection p s)) s).
Proof.
  intros Hp Hd Hother. induction names as [|a names IH]; [inversion Hp|].
  simpl. monad_unfold. destruct (decide (a = p)) as [->|Hne].
  - by rewrite (delete_one_found _ _ _ d).
  - rewrite delete_one_absent by (apply Hother; [by left|done]). simpl.
    apply elem_of_cons in Hp as [->|Hp]; [done|].
    apply IH; [done|]. intros p' Hp' Hne'. apply Hother; [by right|done].
Qed.

Lemma remove_first_single (q : doc → bool) (l : list doc) :
  length (List.filter q l) = 1%nat → List.find q (remove_first q l) = None.
Proof.
  induction l as [|x l IH]; simpl; [done|].
  destruct (q x) eqn:Hx; simpl.
  - intros Hlen. apply find_none_filter.
    destruct (List.filter q l); [done|discriminate].
  - intros Hlen. rewrite Hx. by apply IH.
Qed.

Lemma find_job_in_none names j s :
  (∀ p, p ∈ names → List.find (field_is "_id" j) (get_collection p s) = None) →
  find_job_in names j s = (Ok None, s).
Proof.
  intros Hnone. rewrite find_job_in_first_hit.
  by rewrite (proj2 (first_hit_none _ _ _) Hnone).
Qed.

(** X9: when exactly one year partition holds the job, once, [delete_job]
    returns 1, the applications of the job are gone, the other applications
    are kept, and afterwards no partition holds the job: [get_job_by_id]
    returns [None]. *)
Theorem delete_job_found (s : db) (job_id j : value) (p : string) (d : doc) :
  id_of_arg job_id = Ok j →
  p ∈ _get_all_job_partitions s →
  List.find (field_is "_id" j) (get_collection p s) = Some d →
  length (List.filter (field_is "_id" j) (get_collection p s)) = 1%nat →
  (∀ p', p' ∈ _get_all_job_partitions s → p' ≠ p →
         List.find (field_is "_id" j) (get_collection p' s) = None) →
  ∃ s', delete_job job_id s = (Ok 1, s') ∧
        get_collection "applications" s' =
          List.filter (λ a, negb (field_is "job_id" j a)) (get_collection "applications" s) ∧
        get_collection p s' = remove_first (field_is "_id" j) (get_collection p s) ∧
        get_job_by_id job_id s' = (Ok None, s').
Proof.
  intros Hj Hp Hd Hone Hother.
  assert (Hpa : p ≠ "applications") by (by apply job_partition_not_applications in Hp).
  (* the state after the cascade *)
  assert (Hcascade : ∃ s1,
            delete_many "applications" (field_is "job_id" j) s = ((delete_many "applications" (field_is "job_id" j) s).1, s1) ∧
            (∃ n, (delete_many "applications" (field_is "job_id" j) s).1 = Ok n) ∧
            get_collection "applications" s1 =
              List.filter (λ a, negb (field_is "job_id" j a)) (get_collection "applications" s) ∧
            (∀ c, c ≠ "applications" → get_collection c s1 = get_collection c s) ∧
            (∀ c, c ∈ _get_all_job_partitions s1 ↔ c ∈ _get_all_job_partitions s)).
  { unfold delete_many.
    destruct (List.find (field_is "job_id" j) (get_collection "applications" s))
      as [a|] eqn:Hfind.
    - eexists. split; [done|]. split; [by eexists|]. split; [by rewrite get_collection_set_eq|].
      split; [intros c Hc; by rewrite get_collection_set_ne|].
      intros c. apply job_partitions_set_coll. by eapply find_some_collection_exists.
    - exists s. split; [done|]. split; [by eexists|]. split; [|done].
      apply find_none_forall in Hfind. symmetry.
      apply forallb_filter_id, forallb_forall. intros a Ha%list_elem_of_In.
      rewrite Forall_forall in Hfind. by rewrite (Hfind a Ha). }
  destruct Hcascade as (s1 & Hs1 & [n Hn] & Happs & Hsame & Hnames).
  rewrite Hn in Hs1.
  set (s2 := set_coll p (remove_first (field_is "_id" j) (get_collection p s1)) s1).
  assert (Hdel : delete_in_partitions (_get_all_job_partitions s1) j s1 = (Ok true, s2)).
  { apply (delete_in_partitions_hit _ _ _ _ d).
    - by apply Hnames.
    - by rewrite Hsame.
    - intros p' Hp' Hne. rewrite Hsame.
      + apply Hother; [by apply Hnames|done].
      + by apply job_partition_not_applications in Hp'. }
  exists s2. split; [|split; [|split]].
  - unfold delete_job. monad_unfold. by rewrite Hj, Hs1, Hdel.
  - unfold s2. rewrite get_collection_set_ne by done. exact Happs.
  - unfold s2. by rewrite get_collection_set_eq, Hsame.
  - unfold get_job_by_id. monad_unfold. rewrite Hj.
    apply find_job_in_none. intros p' Hp'.
    assert (Hp1 : p' ∈ _get_all_job_partitions s).
    { apply Hnames. unfold s2 in Hp'. apply job_partitions_set_coll in Hp'; [done|].
      apply Hnames in Hp. by apply elem_of_job_partitions in Hp as [? _]. }
    unfold s2. destruct (decide (p' = p)) as [->|Hne].
    + rewrite get_collection_set_eq, Hsame by done. by apply remove_first_single.
    + rewrite get_collection_set_ne by done. rewrite Hsame.
      * by apply Hother.
      * by apply job_partition_not_applications in Hp1.
Qed.

Lemma find_update_first (q : doc → bool) (f : doc → doc) (l : list doc) d :
  List.find q l = Some d → q (f d) = true →
  List.find q (update_first q f l) = Some (f d).
Proof.
  intros Hd Hfd. induction l as [|x l IH]; simpl in *; [done|].
  destruct (q x) eqn:Hx; simpl.
  - injection Hd as ->. by rewrite Hfd.
  - rewrite Hx. by apply IH.
Qed.

(** An [update_one] that finds its document and changes it. *)
Lemma update_one_applies name (q : doc → bool) (set_fields : doc) s d :
  List.find q (get_collection name s) = Some d →
  set_fields ∪ d ≠ d →
  q (set_fields ∪ d) = true →
  ∃ s', update_one name q set_fields s = (Ok 1, s') ∧
        List.find q (get_collection name s') = Some (set_fields ∪ d) ∧
        (∀ c, c ≠ name → get_collection c s' = get_collection c s).
Proof.
  intros Hd Hchange Hq. unfold update_one. rewrite Hd.
  rewrite bool_decide_eq_false_2 by done. eexists. split; [done|]. split.
  - rewrite get_collection_set_eq. by apply (find_update_first q (λ d, set_fields ∪ d)).
  - intros c Hc. by rewrite get_collection_set_ne.
Qed.

Lemma update_one_absent name (q : doc → bool) set_fields s :
  List.find q (get_collection name s) = None →
  update_one name q set_fields s = (Ok 0, s).
Proof. intros Hd. unfold update_one. by rewrite Hd. Qed.

(** The fields that [update_job] may write, beside [updated_at]. *)
Definition updatable : list string :=
  ["title"; "required_skills"; "description"; "salary_min"; "salary_max"; "location";
   "status"].

(** A field that the field set supplies, and not as null. *)
Definition supplied (data : doc) (key : string) : option value :=
  match data !! key with
  | None | Some VNull => None
  | Some v => Some v
  end.

Lemma copy_field_supplied data key conv u :
  copy_field data key conv u =
    match supplied data key with
    | None => Ok u
    | Some v => match conv v with Ok v' => Ok (<[key := v']> u) | Err e => Err e end
    end.
Proof. unfold copy_field, supplied. by destruct (data !! key) as [[]|]. Qed.

Lemma copy_field_lookup data key conv u u' k :
  copy_field data key conv u = Ok u' →
  u' !! k =
    if decide (k = key)
    then match supplied data key with
         | None => u !! k
         | Some v => match conv v with Ok v' => Some v' | Err _ => None end
         end
    else u !! k.
Proof.
  rewrite copy_field_supplied. destruct (decide (k = key)) as [->|Hne].
  - destruct (supplied data key) as [v|]; [|by intros [= <-]].
    destruct (conv v); [intros [= <-]; by rewrite lookup_insert_eq|done].
  - destruct (supplied data key) as [v|]; [|by intros [= <-]].
    destruct (conv v); [intros [= <-]; by rewrite lookup_insert_ne|done].
Qed.

Lemma build_update_fields_lookup data u k :
  build_update_fields data = Ok u →
  u !! k =
    if decide (k ∈ updatable)
    then match supplied data k with
         | None => None
         | Some v =>
             if decide (k ∈ ["salary_min"; "salary_max"])
             then match as_float v with Ok v' => Some v' | Err _ => None end
             else Some v
         end
    else None.
Proof.
  unfold build_update_fields, rbind.
  destruct (copy_field data "title" Ok ∅) as [u1|] eqn:H1; [|done].
  destruct (copy_field data "required_skills" Ok u1) as [u2|] eqn:H2; [|done].
  destruct (copy_field data "description" Ok u2) as [u3|] eqn:H3; [|done].
  destruct (copy_field data "salary_min" as_float u3) as [u4|] eqn:H4; [|done].
  destruct (copy_field data "salary_max" as_float u4) as [u5|] eqn:H5; [|done].
  destruct (copy_field data "location" Ok u5) as [u6|] eqn:H6; [|done].
  intros H7.
  rewrite (copy_field_lookup _ _ _ _ _ k H7), (copy_field_lookup _ _ _ _ _ k H6),
    (copy_field_lookup _ _ _ _ _ k H5), (copy_field_lookup _ _ _ _ _ k H4),
    (copy_field_lookup _ _ _ _ _ k H3), (copy_field_lookup _ _ _ _ _ k H2),
    (copy_field_lookup _ _ _ _ _ k H1), lookup_empty.
  destruct (decide (k ∈ updatable)) as [Hin|Hnin].
  - unfold updatable in Hin.
    repeat (apply elem_of_cons in Hin as [->|Hin];
      [repeat (rewrite decide_False by discriminate);
       rewrite (decide_True (P := _ = _)) by done;
       repeat (rewrite (decide_False (P := _ = _)) by discriminate);
       destruct (supplied data _) as [v|]; [|done];
       first [ rewrite (decide_True (P := _ ∈ _)) by (by repeat constructor)
             | rewrite (decide_False (P := _ ∈ _))
                 by (intros Hs; repeat (apply elem_of_cons in Hs as [Hs|Hs];
                                          [discriminate Hs|]); inversion Hs) ];
       done|]).
    inversion Hin.
  - repeat (rewrite (decide_False (P := k = _));
            [|intros ->; apply Hnin; by repeat constructor]).
    done.
Qed.

(** X10: for a job that the collection [jobs] holds, [update_job] with a
    field set that supplies none of the updatable fields, or supplies them
    as null, returns 0 and writes nothing, whatever else the field set
    holds. *)
Theorem update_job_without_fields (s : db) (job_id j : value) (data : doc)
    (now : datetime) (d : doc) :
  id_of_arg job_id = Ok j →
  List.find (field_is "_id" j) (get_collection "jobs" s) = Some d →
  (∀ k, k ∈ updatable → get_or data k VNull = VNull) →
  update_job job_id data now s = (Ok 0, s).
Proof.
  intros Hj Hd Hnull.
  assert (Hbuild : build_update_fields data = Ok ∅).
  { assert (Hk : ∀ k conv u, k ∈ updatable → copy_field data k conv u = Ok u).
    { intros k conv u Hk. specialize (Hnull k Hk). unfold get_or, copy_field in *.
      destruct (data !! k) as [v|]; simpl in *; [by subst v|done]. }
    unfold build_update_fields, rbind, updatable in *.
    rewrite !Hk; [done|..]; by repeat constructor. }
  unfold update_job. monad_unfold. rewrite Hj, Hd, Hbuild. simpl.
  by rewrite bool_decide_eq_true_2.
Qed.

(** X11: [update_job] is a sparse patch of the job that the collection
    [jobs] holds: when the conversions succeed and at least one updatable
    field is supplied, it returns 1; afterwards the job has the supplied
    non-null text fields and the new [updated_at], every field that the
    field set lacks or holds as null is as before, and so is every field
    outside the updatable ones (the id, the employer, the posting time). *)
Theorem update_job_patch (s : db) (job_id j : value) (data u : doc) (now : datetime)
    (d : doc) :
  id_of_arg job_id = Ok j →
  List.find (field_is "_id" j) (get_collection "jobs" s) = Some d →
  build_update_fields data = Ok u →
  u ≠ ∅ →
  d !! "updated_at" ≠ Some (VDate now) →
  ∃ s' d',
    update_job job_id data now s = (Ok 1, s') ∧
    List.find (field_is "_id" j) (get_collection "jobs" s') = Some d' ∧
    d' !! "updated_at" = Some (VDate now) ∧
    (∀ k v, k ∈ ["title"; "required_skills"; "description"; "location"; "status"] →
            data !! k = Some v → v ≠ VNull → d' !! k = Some v) ∧
    (∀ k, k ≠ "updated_at" → get_or data k VNull = VNull → d' !! k = d !! k) ∧
    (∀ k, k ≠ "updated_at" → k ∉ updatable → d' !! k = d !! k) ∧
    (∀ c, c ≠ "jobs" → get_collection c s' = get_collection c s).
Proof.
  intros Hj Hd Hu Hne Hchange.
  set (u' := <["updated_at" := VDate now]> u).
  assert (Hlook : ∀ k, k ≠ "updated_at" → (u' ∪ d) !! k =
            match u !! k with Some v => Some v | None => d !! k end).
  { intros k Hk. unfold u'. rewrite lookup_union, lookup_insert_ne by done.
    by destruct (u !! k), (d !! k). }
  assert (Hid : d !! "_id" = Some j).
  { apply find_some_holds in Hd as [Hq _]. by apply field_is_true. }
  destruct (update_one_applies "jobs" (field_is "_id" j) u' s d Hd) as (s' & Hup & Hfind & Hother).
  { intros Heq. apply Hchange. rewrite <- Heq. unfold u'.
    rewrite lookup_union, lookup_insert_eq. by destruct (d !! "updated_at"). }
  { apply field_is_true. rewrite Hlook by done.
    rewrite (build_update_fields_lookup data u "_id" Hu).
    rewrite decide_False; [done|]. unfold updatable. intros Hin.
    repeat (apply elem_of_cons in Hin as [Hin|Hin]; [discriminate Hin|]). inversion Hin. }
  exists s', (u' ∪ d). split; [|split; [done|split; [|split; [|split; [|split; [|done]]]]]].
  - unfold update_job. monad_unfold. rewrite Hj, Hd, Hu. simpl.
    by rewrite bool_decide_eq_false_2.
  - unfold u'. rewrite lookup_union, lookup_insert_eq. by destruct (d !! "updated_at").
  - intros k v Hk Hdata Hv.
    assert (Hfacts : k ≠ "updated_at" ∧ k ∈ updatable ∧ k ∉ ["salary_min"; "salary_max"]).
    { repeat (apply elem_of_cons in Hk as [->|Hk];
                [split; [done|split; [by repeat constructor|]];
                 intros Hin;
                 repeat (apply elem_of_cons in Hin as [Hin|Hin]; [discriminate Hin|]);
                 inversion Hin|]).
      inversion Hk. }
    destruct Hfacts as (Hkne & Hkup & Hsal).
    rewrite Hlook by done. rewrite (build_update_fields_lookup data u k Hu).
    rewrite decide_True by done.
    assert (Hsup : supplied data k = Some v) by (unfold supplied; rewrite Hdata; by destruct v).
    by rewrite Hsup, decide_False.
  - intros k Hk Hnull. rewrite Hlook by done.
    rewrite (build_update_fields_lookup data u k Hu).
    assert (Hsup : supplied data k = None).
    { unfold get_or, supplied in *.
      destruct (data !! k) as [v|]; simpl in Hnull; [by subst v|done]. }
    rewrite Hsup. by destruct (decide _).
  - intros k Hk Hnot. rewrite Hlook by done.
    rewrite (build_update_fields_lookup data u k Hu). by rewrite decide_False.
Qed.

(** ** Applications *)

(** The document that [create_application] inserts. *)
Definition new_application_doc (j w : value) (t1 t2 : datetime) (n : oid) : doc :=
  <["_id" := VId n]>
    {[ "job_id" := j; "worker_id" := w; "application_status" := VStr "pending";
       "applied_at" := VDate t1; "created_at" := VDate t2 ]}.

Lemma create_application_new s job_id worker_id j w t1 t2 :
  id_of_arg job_id = Ok j →
  id_of_arg worker_id = Ok w →
  oid_fresh s →
  pair_count j w s = 0%nat →
  create_application job_id worker_id t1 t2 s =
    (Ok (VId (next_oid s)),
     set_coll "applications"
       (get_collection "applications" s ++ [new_application_doc j w t1 t2 (next_oid s)])
       (mk_db (colls s) (N.succ (next_oid s)))).
Proof.
  intros Hj Hw Hfresh Hcount. unfold create_application. monad_unfold.
  rewrite Hj, Hw.
  assert (Hnone : List.find (λ d, field_is "job_id" j d && field_is "worker_id" w d)
                    (get_collection "applications" s) = None).
  { apply find_none_filter. unfold pair_count in Hcount.
    by destruct (List.filter _ _). }
  rewrite Hnone. by rewrite insert_one_generates; [|done|apply oid_fresh_collection].
Qed.

Lemma get_application_by_id_found s application_id a d :
  id_of_arg application_id = Ok a →
  List.find (field_is "_id" a) (get_collection "applications" s) = Some d →
  get_application_by_id application_id s =
    (Ok (Some (<["application_id" := default VNull (serialize_doc d !! "id")]>
                 (serialize_doc d))), s).
Proof.
  intros Ha Hd. unfold get_application_by_id. monad_unfold. rewrite Ha, Hd.
  pose proof Hd as [Hid%field_is_true _]%find_some_holds.
  unfold mbind, M_bind. by rewrite (with_alias_ok _ d a s Hid).
Qed.

(** X12: on a database with no application of the worker to the job (and
    an unused next id), [create_application] stores one pending
    application, under the returned id, which [get_application_by_id]
    returns with the job and the worker; the count of the pair is then 1,
    and a second [create_application] for the pair raises the duplicate
    error and writes nothing. *)
Theorem create_application_then_duplicate (s : db) (job_id worker_id j w : value)
    (t1 t2 t3 t4 : datetime) :
  id_of_arg job_id = Ok j →
  id_of_arg worker_id = Ok w →
  oid_fresh s →
  pair_count j w s = 0%nat →
  ∃ aid s1 app,
    create_application job_id worker_id t1 t2 s = (Ok aid, s1) ∧
    pair_count j w s1 = 1%nat ∧
    get_application_by_id aid s1 = (Ok (Some app), s1) ∧
    app !! "application_id" = Some (VStr (py_str aid)) ∧
    app !! "application_status" = Some (VStr "pending") ∧
    app !! "job_id" = Some (serialize_value j) ∧
    app !! "worker_id" = Some (serialize_value w) ∧
    create_application job_id worker_id t3 t4 s1 =
      (Err (ValueError "Application already exists for this job"), s1).
Proof.
  intros Hj Hw Hfresh Hcount.
  set (n := next_oid s).
  set (a := new_application_doc j w t1 t2 n).
  set (s1 := set_coll "applications" (get_collection "applications" s ++ [a])
               (mk_db (colls s) (N.succ n))).
  assert (Happs : get_collection "applications" s1 = (get_collection "applications" s ++ [a])%list).
  { unfold s1. by rewrite get_collection_set_eq. }
  assert (Hpair : field_is "job_id" j a && field_is "worker_id" w a = true).
  { apply andb_true_iff. split; apply field_is_true; unfold a, new_application_doc;
      by simplify_map_eq. }
  assert (Hold : List.filter (λ d, field_is "job_id" j d && field_is "worker_id" w d)
                   (get_collection "applications" s) = []).
  { unfold pair_count in Hcount. by destruct (List.filter _ _). }
  assert (Hfind : List.find (field_is "_id" (VId n)) (get_collection "applications" s1)
                  = Some a).
  { rewrite Happs. apply find_last.
    - apply find_field_is_none. by apply oid_fresh_collection.
    - apply field_is_true. apply lookup_insert_eq. }
  assert (Hser : ∀ k v, k ≠ "_id" → k ≠ "id" → k ≠ "application_id" → a !! k = Some v →
            (<["application_id" := default VNull (serialize_doc a !! "id")]>
               (serialize_doc a)) !! k = Some (serialize_value v)).
  { intros k v H1 H2 H3 Hk. rewrite lookup_insert_ne by done.
    rewrite serialize_doc_lookup_other by done. by rewrite Hk. }
  eexists (VId n), s1, _. split; [by apply create_application_new|].
  split.
  { unfold pair_count. rewrite Happs, List.filter_app, Hold. simpl. by rewrite Hpair. }
  split; [by apply (get_application_by_id_found s1 (VId n) (VId n) a)|].
  split.
  { rewrite lookup_insert_eq.
    rewrite (serialize_doc_lookup_id a (VId n)) by apply lookup_insert_eq.
    unfold a, new_application_doc. by simplify_map_eq. }
  split. { by apply (Hser "application_status" (VStr "pending")). }
  split. { by apply (Hser "job_id" j). }
  split. { by apply (Hser "worker_id" w). }
  unfold create_application. monad_unfold. rewrite Hj, Hw, Happs.
  rewrite find_app_none_l by (by apply find_none_filter).
  simpl. by rewrite Hpair.
Qed.

(** X13: [delete_application] undoes [create_application]: after creating
    an application and deleting it by the returned id, the applications
    collection holds what it held before, and the id is not found. *)
Theorem create_then_delete_application (s : db) (job_id worker_id j w : value)
    (t1 t2 : datetime) :
  id_of_arg job_id = Ok j →
  id_of_arg worker_id = Ok w →
  oid_fresh s →
  pair_count j w s = 0%nat →
  ∃ aid s1 s2,
    create_application job_id worker_id t1 t2 s = (Ok aid, s1) ∧
    delete_application aid s1 = (Ok 1, s2) ∧
    get_collection "applications" s2 = get_collection "applications" s ∧
    get_application_by_id aid s2 = (Ok None, s2).
Proof.
  intros Hj Hw Hfresh Hcount.
  set (n := next_oid s).
  set (a := new_application_doc j w t1 t2 n).
  set (s1 := set_coll "applications" (get_collection "applications" s ++ [a])
               (mk_db (colls s) (N.succ n))).
  assert (Hold : List.find (field_is "_id" (VId n)) (get_collection "applications" s) = None).
  { apply find_field_is_none. by apply oid_fresh_collection. }
  assert (Ha : field_is "_id" (VId n) a = true).
  { apply field_is_true. apply lookup_insert_eq. }
  exists (VId n), s1, (set_coll "applications" (get_collection "applications" s) s1).
  split; [by apply create_application_new|]. split; [|split].
  - unfold delete_application, delete_one. monad_unfold. simpl.
    unfold s1 at 1 2. rewrite get_collection_set_eq.
    by rewrite find_last, remove_first_last.
  - by rewrite get_collection_set_eq.
  - unfold get_application_by_id. monad_unfold. simpl.
    by rewrite get_collection_set_eq, Hold.
Qed.

(** X14: [update_application_status] rejects every status other than
    pending, approved and rejected before it writes anything; with one of
    the three, on a stored application, [get_application_by_id] afterwards
    shows the new status, and the job, the worker and every other field but
    [updated_at] are as before. *)
Theorem update_application_status_spec (s : db) (application_id a status : value)
    (now : datetime) :
  id_of_arg application_id = Ok a →
  (valid_status status = false →
     update_application_status application_id status now s =
       (Err (ValueError "Invalid status. Must be 'pending', 'approved', or 'rejected'"), s)) ∧
  (∀ d, valid_status status = true →
     List.find (field_is "_id" a) (get_collection "applications" s) = Some d →
     ∃ n s' app,
       update_application_status application_id status now s = (Ok n, s') ∧
       get_application_by_id application_id s' = (Ok (Some app), s') ∧
       app !! "application_status" = Some (serialize_value status) ∧
       (∀ k, k ∉ ["application_status"; "updated_at"; "application_id"; "id"; "_id"] →
             app !! k = serialize_value <$> d !! k)).
Proof.
  intros Ha. split.
  - intros Hbad. unfold update_application_status. monad_unfold. by rewrite Ha, Hbad.
  - intros d Hok Hd.
    set (u := ({[ "application_status" := status; "updated_at" := VDate now ]} : doc)).
    assert (Hid : d !! "_id" = Some a).
    { apply find_some_holds in Hd as [Hq _]. by apply field_is_true. }
    assert (Hu : ∀ k, k ≠ "application_status" → k ≠ "updated_at" → u !! k = None).
    { intros k H1 H2. unfold u. by simplify_map_eq. }
    assert (Hq : field_is "_id" a (u ∪ d) = true).
    { apply field_is_true. by rewrite lookup_union, Hu, Hid. }
    assert (Hnew : ∃ n s', update_one "applications" (field_is "_id" a) u s = (Ok n, s') ∧
              List.find (field_is "_id" a) (get_collection "applications" s') = Some (u ∪ d)).
    { destruct (decide (u ∪ d = d)) as [Heq|Hne].
      - exists 0, s. split; [|by rewrite Heq].
        unfold update_one. by rewrite Hd, bool_decide_eq_true_2.
      - destruct (update_one_applies "applications" _ u s d Hd Hne Hq) as (s' & ? & ? & _).
        by exists 1, s'. }
    destruct Hnew as (n & s' & Hup & Hfind).
    eexists n, s', _. split; [|split; [|split]].
    + unfold update_application_status. monad_unfold. by rewrite Ha, Hok.
    + by apply (get_application_by_id_found s' application_id a (u ∪ d)).
    + rewrite lookup_insert_ne by done. rewrite serialize_doc_lookup_other by done.
      rewrite lookup_union. unfold u. rewrite lookup_insert_eq.
      by destruct (d !! "application_status").
    + intros k Hk.
      assert (Hks : k ≠ "application_status" ∧ k ≠ "updated_at" ∧ k ≠ "application_id" ∧
                    k ≠ "id" ∧ k ≠ "_id").
      { repeat split; intros ->; apply Hk; by repeat constructor. }
      destruct Hks as (H1 & H2 & H3 & H4 & H5).
      rewrite lookup_insert_ne by done. rewrite serialize_doc_lookup_other by done.
      rewrite lookup_union, Hu by done. by destruct (d !! k).
Qed.

(** ** Worker profiles *)

Ltac literal_lookup :=
  repeat (rewrite lookup_insert_ne by discriminate);
  first [apply lookup_insert_eq | apply lookup_singleton_eq
        | apply lookup_singleton_ne; discriminate].

Lemma find_worker_first_hit q s :
  _find_worker_in_partitions q s =
    (Ok (serialize_doc <$> first_hit get_all_worker_partitions q s), s).
Proof. apply find_in_partitions_first_hit. Qed.

(** X15: [upsert_worker_profile] writes to the partition of the hash of
    the id and to no other: for a worker record that sits in another
    partition it returns 0 and changes nothing, although [get_worker_by_id]
    finds the worker by its scan. *)
Theorem upsert_worker_profile_outside_hash (s : db) (worker_id w : value) (data : doc)
    (now : datetime) (d : doc) :
  id_of_arg worker_id = Ok w →
  hashed_hit w s = None →
  first_hit get_all_worker_partitions (field_is "_id" w) s = Some d →
  upsert_worker_profile worker_id data now s = (Ok 0, s) ∧
  ∃ r, get_worker_by_id worker_id s = (Ok (Some r), s).
Proof.
  intros Hw Hmiss Hd. unfold hashed_hit in Hmiss. split.
  - unfold upsert_worker_profile. monad_unfold. rewrite Hw.
    by apply update_one_absent.
  - pose proof Hd as [Hid%field_is_true _]%first_hit_holds.
    unfold get_worker_by_id. monad_unfold. rewrite Hw, Hmiss.
    rewrite find_worker_first_hit, Hd. simpl.
    rewrite (serialize_doc_lookup_id d w Hid). by eexists.
Qed.


Lemma new_worker_doc_user u full_name skills t :
  new_worker_doc u full_name skills t !! "user_id" = Some u.
Proof. unfold new_worker_doc. literal_lookup. Qed.

Lemma new_worker_doc_none u full_name skills t k :
  k ∈ ["_id"; "id"; "updated_at"] → new_worker_doc u full_name skills t !! k = None.
Proof.
  intros Hk. unfold new_worker_doc.
  repeat (apply elem_of_cons in Hk as [->|Hk]; [literal_lookup|]). inversion Hk.
Qed.




Lemma get_worker_by_user_found s user_id u d v :
  id_of_arg user_id = Ok u →
  first_hit get_all_worker_partitions (field_is "user_id" u) s = Some d →
  d !! "_id" = Some v →
  ∃ r i, get_worker_by_user user_id s = (Ok (Some r), s) ∧
         r !! "worker_id" = Some i ∧
         serialize_doc (serialize_doc d) !! "id" = Some i ∧
         r !! "user_id" = Some (VStr (py_str (serialize_value u))).
Proof.
  intros Hu Hd Hv.
  pose proof Hd as [Huser%field_is_true _]%first_hit_holds.
  pose proof (serialize_doc_lookup_id d v Hv) as Hi.
  pose proof (serialize_doc_lookup_plain (serialize_doc d) "id" (serialize_doc_no_id d)) as Hii.
  rewrite Hi in Hii. simpl in Hii.
  assert (Hsu : serialize_doc d !! "user_id" = Some (serialize_value u)).
  { rewrite serialize_doc_lookup_other by done. by rewrite Huser. }
  pose proof (serialize_doc_lookup_plain (serialize_doc d) "user_id"
                (serialize_doc_no_id d)) as Huu.
  rewrite Hsu in Huu. simpl in Huu.
  rewrite serialize_value_idemp in Huu.
  eexists _, _. split; [|split; [|split; [exact Hii|]]].
  - unfold get_worker_by_user, profile_view, with_alias. monad_unfold.
    rewrite Hu, find_worker_first_hit, Hd. simpl. rewrite Hii.
    rewrite lookup_insert_ne by done. by rewrite Huu.
  - rewrite lookup_insert_ne by done. apply lookup_insert_eq.
  - apply lookup_insert_eq.
Qed.

(** X17: after [ensure_worker_row] for a user, whether the worker existed
    or was created, [get_worker_by_user] for the user finds a worker, with
    the [worker_id] that [ensure_worker_row] returned and the user id as a
    string. *)
Theorem ensure_then_get_worker_by_user (s : db) (user_id u full_name skills : value)
    (t : datetime) :
  id_of_arg user_id = Ok u →
  oid_fresh s →
  ids_present s →
  ∃ r1 s1 r2 i,
    ensure_worker_row user_id full_name skills t s = (Ok r1, s1) ∧
    get_worker_by_user user_id s1 = (Ok (Some r2), s1) ∧
    r1 !! "worker_id" = Some i ∧
    r2 !! "worker_id" = Some i ∧
    r2 !! "user_id" = Some (VStr (py_str (serialize_value u))).
Proof.
  intros Hu Hfresh Hids.
  destruct (first_hit get_all_worker_partitions (field_is "user_id" u) s)
    as [d|] eqn:Hfirst.
  - destruct (first_hit_holds _ _ _ _ Hfirst) as [_ (p & Hp & Hin)].
    pose proof (ids_present_collection p s Hids) as Hall.
    rewrite Forall_forall in Hall. destruct (Hall d Hin) as [v Hv].
    destruct (ensure_worker_row_existing s user_id u full_name skills t d v Hu Hfirst Hv)
      as (r1 & i & Hr1 & Hi1 & Hi).
    destruct (get_worker_by_user_found s user_id u d v Hu Hfirst Hv)
      as (r2 & i' & Hr2 & Hi2 & Hi' & Huser).
    assert (i' = i) as -> by congruence.
    by exists r1, s, r2, i.
  - destruct (ensure_worker_row_creates s user_id u full_name skills t Hu Hfresh Hfirst)
      as (s1 & wd & Hr1 & Hwd & Hat & Hother).
    set (p := get_worker_partition_collection (VId (next_oid s))) in *.
    assert (Hq : field_is "user_id" u wd = true).
    { apply field_is_true. subst wd. rewrite lookup_insert_ne by done.
      apply new_worker_doc_user. }
    assert (Hfirst1 : first_hit get_all_worker_partitions (field_is "user_id" u) s1
                      = Some wd).
    { apply (first_hit_inserted _ _ s s1 p).
      - apply worker_partition_listed.
      - by apply first_hit_none.
      - exact Hat.
      - intros p' _ Hne. by apply Hother.
      - exact Hq. }
    assert (Hv : wd !! "_id" = Some (VId (next_oid s))) by (subst wd; apply lookup_insert_eq).
    destruct (get_worker_by_user_found s1 user_id u wd _ Hu Hfirst1 Hv)
      as (r2 & i & Hr2 & Hi2 & Hi & Huser).
    assert (Hnoid : wd !! "id" = None).
    { subst wd. rewrite lookup_insert_ne by done.
      apply new_worker_doc_none. by repeat constructor. }
    rewrite (serialize_doc_lookup_plain _ _ (serialize_doc_no_id wd)) in Hi.
    rewrite (serialize_doc_lookup_id wd _ Hv), Hnoid in Hi. simpl in Hi.
    injection Hi as <-.
    eexists _, s1, r2, _. split; [exact Hr1|]. split; [exact Hr2|].
    split; [apply lookup_insert_eq|]. by split.
Qed.

(** ** Users and profiles *)

(** Every stored [ObjectId] is older than the next one the driver
    generates. *)
Definition ids_below (s : db) : Prop :=
  map_Forall (λ _ docs,
      Forall (λ d : doc, ∀ o, d !! "_id" = Some (VId o) → (o < next_oid s)%N) docs)
    (colls s).

Lemma ids_below_collection name s :
  ids_below s →
  Forall (λ d : doc, ∀ o, d !! "_id" = Some (VId o) → (o < next_oid s)%N)
    (get_collection name s).
Proof.
  intros Hs. unfold get_collection. destruct (colls s !! name) as [l|] eqn:Hl; simpl.
  - by apply (Hs name l).
  - constructor.
Qed.

Lemma ids_below_fresh s : ids_below s → oid_fresh s.
Proof.
  intros Hs name l Hl. specialize (Hs name l Hl). simpl in *.
  eapply Forall_impl; [exact Hs|]. intros d Hd Heq. specialize (Hd _ Heq). lia.
Qed.

(** The state after an insert that generates the id. *)
Definition inserted (name : string) (d : doc) (s : db) : db :=
  set_coll name (get_collection name s ++ [<["_id" := VId (next_oid s)]> d])
    (mk_db (colls s) (N.succ (next_oid s))).

Lemma inserted_at name d s :
  get_collection name (inserted name d s) =
    (get_collection name s ++ [<["_id" := VId (next_oid s)]> d])%list.
Proof. unfold inserted. by rewrite get_collection_set_eq. Qed.

Lemma inserted_other name d s c :
  c ≠ name → get_collection c (inserted name d s) = get_collection c s.
Proof. intros Hc. unfold inserted. by rewrite get_collection_set_ne. Qed.

Lemma ids_below_inserted name d s : ids_below s → ids_below (inserted name d s).
Proof.
  intros Hs. unfold ids_below, inserted, set_coll. simpl.
  apply map_Forall_insert_2.
  - apply Forall_app. split.
    + eapply Forall_impl; [exact (ids_below_collection name s Hs)|].
      intros x Hx o Ho. specialize (Hx o Ho). lia.
    + constructor; [|constructor]. intros o Ho. rewrite lookup_insert_eq in Ho.
      injection Ho as <-. lia.
  - intros c l Hl. specialize (Hs c l Hl). simpl in Hs.
    eapply Forall_impl; [exact Hs|]. intros x Hx o Ho. specialize (Hx o Ho). lia.
Qed.

Lemma insert_one_inserted name d s :
  d !! "_id" = None →
  oid_fresh s →
  insert_one name d s = (Ok (VId (next_oid s), <["_id" := VId (next_oid s)]> d),
                         inserted name d s).
Proof. intros Hd Hs. apply insert_one_generates; [done|by apply oid_fresh_collection]. Qed.

Lemma find_app_some_l {A} (q : A → bool) (l1 l2 : list A) x :
  List.find q l1 = Some x → List.find q (l1 ++ l2) = Some x.
Proof.
  induction l1 as [|a l1 IH]; simpl; [done|]. destruct (q a); [done|apply IH].
Qed.

Definition user_doc (email pw role : value) (now : datetime) : doc :=
  {[ "email" := email; "password_hash" := pw; "role" := role; "created_at" := VDate now ]}.

Lemma create_user_new s email pw role now :
  oid_fresh s →
  create_user email pw role now s =
    (Ok (VId (next_oid s)), inserted "users" (user_doc email pw role now) s).
Proof.
  intros Hfresh. unfold create_user. monad_unfold.
  fold (user_doc email pw role now).
  rewrite insert_one_inserted; [done| |done]. unfold user_doc. literal_lookup.
Qed.

(** The record that the user getters return for the stored user [d]. *)
Definition user_view (d : doc) : doc :=
  <["user_id" := default VNull (serialize_doc d !! "id")]> (serialize_doc d).

Lemma get_user_by_id_found s user_id u d :
  id_of_arg user_id = Ok u →
  List.find (field_is "_id" u) (get_collection "users" s) = Some d →
  get_user_by_id user_id s = (Ok (Some (user_view d)), s).
Proof.
  intros Hu Hd. unfold get_user_by_id. monad_unfold. rewrite Hu, Hd.
  pose proof Hd as [Hid%field_is_true _]%find_some_holds.
  unfold mbind, M_bind. by rewrite (with_alias_ok _ d u s Hid).
Qed.

Lemma get_user_by_email_found s email d v :
  List.find (field_is "email" email) (get_collection "users" s) = Some d →
  d !! "_id" = Some v →
  get_user_by_email email s = (Ok (Some (user_view d)), s).
Proof.
  intros Hd Hid. unfold get_user_by_email. monad_unfold. rewrite Hd.
  unfold mbind, M_bind. by rewrite (with_alias_ok _ d v s Hid).
Qed.

Lemma user_view_id d v :
  d !! "_id" = Some v → d !! "id" = None → user_view d !! "user_id" = Some (VStr (py_str v)).
Proof.
  intros Hv Hid. unfold user_view. rewrite lookup_insert_eq.
  by rewrite (serialize_doc_lookup_id d v Hv), Hid.
Qed.

Lemma user_view_field d k :
  k ∉ ["_id"; "id"; "user_id"] → user_view d !! k = serialize_value <$> d !! k.
Proof.
  intros Hk. unfold user_view.
  rewrite lookup_insert_ne by (intros <-; apply Hk; by repeat constructor).
  apply serialize_doc_lookup_other; intros ->; apply Hk; by repeat constructor.
Qed.

(** X18: [create_user] stores the user under a new id, and
    [get_user_by_id] on that id returns it, with the id as the string
    [user_id] and with the email, the hash and the role as given; when no
    user had the email, [get_user_by_email] returns the same record. *)
Theorem create_user_round_trip (s : db) (email pw role : value) (now : datetime) :
  oid_fresh s →
  ∃ uid s1 r,
    create_user email pw role now s = (Ok uid, s1) ∧
    get_user_by_id uid s1 = (Ok (Some r), s1) ∧
    r !! "user_id" = Some (VStr (py_str uid)) ∧
    r !! "email" = Some (serialize_value email) ∧
    r !! "password_hash" = Some (serialize_value pw) ∧
    r !! "role" = Some (serialize_value role) ∧
    (List.find (field_is "email" email) (get_collection "users" s) = None →
     get_user_by_email email s1 = (Ok (Some r), s1)).
Proof.
  intros Hfresh.
  set (n := next_oid s).
  set (d := <["_id" := VId n]> (user_doc email pw role now)).
  set (s1 := inserted "users" (user_doc email pw role now) s).
  assert (Hid : d !! "_id" = Some (VId n)) by apply lookup_insert_eq.
  assert (Hk : ∀ k, k ≠ "_id" → d !! k = user_doc email pw role now !! k).
  { intros k Hk. unfold d. by rewrite lookup_insert_ne. }
  assert (Hnoid : d !! "id" = None).
  { rewrite Hk by done. unfold user_doc. literal_lookup. }
  assert (Husers : get_collection "users" s1 = (get_collection "users" s ++ [d])%list)
    by apply inserted_at.
  assert (Hfind : List.find (field_is "_id" (VId n)) (get_collection "users" s1) = Some d).
  { rewrite Husers. apply find_last.
    - apply find_field_is_none. by apply oid_fresh_collection.
    - by apply field_is_true. }
  assert (Hfield : ∀ k v, k ∉ ["_id"; "id"; "user_id"] →
            user_doc email pw role now !! k = Some v →
            user_view d !! k = Some (serialize_value v)).
  { intros k v Hnot Hv. rewrite user_view_field by done.
    rewrite Hk, Hv; [done|]. intros ->. apply Hnot. by repeat constructor. }
  assert (Hnot : ∀ k, k ∈ ["email"; "password_hash"; "role"] →
            k ∉ ["_id"; "id"; "user_id"]).
  { intros k Hin Hout.
    repeat (apply elem_of_cons in Hin as [->|Hin];
            [repeat (apply elem_of_cons in Hout as [Hout|Hout]; [discriminate Hout|]);
             inversion Hout|]).
    inversion Hin. }
  exists (VId n), s1, (user_view d).
  split; [by apply create_user_new|].
  split; [by apply (get_user_by_id_found s1 (VId n) (VId n))|].
  split; [by apply user_view_id|].
  split. { apply Hfield; [apply Hnot; by repeat constructor|]. unfold user_doc. literal_lookup. }
  split. { apply Hfield; [apply Hnot; by repeat constructor|]. unfold user_doc. literal_lookup. }
  split. { apply Hfield; [apply Hnot; by repeat constructor|]. unfold user_doc. literal_lookup. }
  intros Hnone. apply (get_user_by_email_found s1 email d (VId n)); [|done].
  rewrite Husers. apply find_last; [done|]. apply field_is_true.
  rewrite Hk by done. unfold user_doc. literal_lookup.
Qed.

(** X19: [create_user] does not look for the email: on a database that
    holds a user with the email it stores one more, and
    [get_user_by_email] answers afterwards what it answered before, the
    older user. *)
Theorem create_user_duplicate_email (s : db) (email pw role : value) (now : datetime)
    (old : doc) :
  oid_fresh s →
  List.find (field_is "email" email) (get_collection "users" s) = Some old →
  ∃ uid s1,
    create_user email pw role now s = (Ok uid, s1) ∧
    length (List.filter (field_is "email" email) (get_collection "users" s1)) =
      S (length (List.filter (field_is "email" email) (get_collection "users" s))) ∧
    (get_user_by_email email s1).1 = (get_user_by_email email s).1.
Proof.
  intros Hfresh Hold.
  set (s1 := inserted "users" (user_doc email pw role now) s).
  assert (Husers : get_collection "users" s1 =
            (get_collection "users" s ++
               [<["_id" := VId (next_oid s)]> (user_doc email pw role now)])%list)
    by apply inserted_at.
  exists (VId (next_oid s)), s1. split; [by apply create_user_new|]. split.
  - rewrite Husers, List.filter_app, length_app. simpl.
    replace (field_is "email" email _) with true; [simpl; lia|].
    symmetry. apply field_is_true. rewrite lookup_insert_ne by done.
    unfold user_doc. literal_lookup.
  - unfold get_user_by_email. monad_unfold.
    rewrite Husers, (find_app_some_l _ _ _ old Hold), Hold.
    unfold with_alias. monad_unfold. by destruct (serialize_doc old !! "id").
Qed.
Lemma remove_first_at_most_one (q : doc → bool) (l : list doc) :
  (length (List.filter q l) ≤ 1)%nat → List.find q (remove_first q l) = None.
Proof.
  induction l as [|a l IH]; simpl; [done|]. destruct (q a) eqn:Hq; simpl.
  - intros Hle. apply find_none_filter. destruct (List.filter q l); [done|simpl in Hle; lia].
  - rewrite Hq. exact IH.
Qed.

Lemma remove_first_absent (q : doc → bool) (l : list doc) :
  List.find q l = None → remove_first q l = l.
Proof.
  induction l as [|a l IH]; simpl; [done|]. destruct (q a); [done|].
  intros Hl. by rewrite IH.
Qed.

(** What [delete_one] returns and leaves, found or not. *)
Lemma delete_one_spec name q s :
  ∃ n s', delete_one name q s = (Ok n, s') ∧
          get_collection name s' = remove_first q (get_collection name s) ∧
          (∀ c, c ≠ name → get_collection c s' = get_collection c s) ∧
          (is_Some (List.find q (get_collection name s)) → n = 1).
Proof.
  unfold delete_one. destruct (List.find q (get_collection name s)) as [d|] eqn:Hd.
  - eexists _, _. split; [done|]. split; [by rewrite get_collection_set_eq|].
    split; [|done]. intros c Hc. by rewrite get_collection_set_ne.
  - exists 0, s. split; [done|]. split; [by rewrite remove_first_absent|].
    split; [done|]. by intros [? ?].
Qed.

Lemma profile_view_ok alias d v u s :
  alias ≠ "user_id" →
  d !! "_id" = Some v →
  d !! "user_id" = Some u →
  profile_view alias d s =
    (Ok (<["user_id" := VStr (py_str (serialize_value u))]>
           (<[alias := default VNull (serialize_doc d !! "id")]> (serialize_doc d))), s).
Proof.
  intros Halias Hv Hu. unfold profile_view. monad_unfold.
  unfold mbind, M_bind. rewrite (with_alias_ok _ d v s Hv).
  rewrite lookup_insert_ne by done.
  rewrite serialize_doc_lookup_other by done. by rewrite Hu.
Qed.

(** X20: [delete_user] on a stored user, of whom the database holds one
    user record and at most one employer and one admin profile, returns 1,
    and afterwards none of [get_user_by_id], [get_employer_by_user] and
    [get_admin_by_user] finds anything for the user; the collections other
    than the four it deletes from are as before. *)
Theorem delete_user_cascade (s : db) (user_id u : value) (d : doc) :
  id_of_arg user_id = Ok u →
  List.find (field_is "_id" u) (get_collection "users" s) = Some d →
  (length (List.filter (field_is "_id" u) (get_collection "users" s)) ≤ 1)%nat →
  (length (List.filter (field_is "user_id" u) (get_collection "employers" s)) ≤ 1)%nat →
  (length (List.filter (field_is "user_id" u) (get_collection "admins" s)) ≤ 1)%nat →
  ∃ s',
    delete_user user_id s = (Ok 1, s') ∧
    get_user_by_id user_id s' = (Ok None, s') ∧
    get_employer_by_user user_id s' = (Ok None, s') ∧
    get_admin_by_user user_id s' = (Ok None, s') ∧
    (∀ c, c ∉ ["workers"; "employers"; "admins"; "users"] →
          get_collection c s' = get_collection c s).
Proof.
  intros Hu Hd Husers Hemp Hadm.
  destruct (delete_one_spec "workers" (field_is "user_id" u) s)
    as (n1 & s1 & H1 & _ & H1o & _).
  destruct (delete_one_spec "employers" (field_is "user_id" u) s1)
    as (n2 & s2 & H2 & H2c & H2o & _).
  destruct (delete_one_spec "admins" (field_is "user_id" u) s2)
    as (n3 & s3 & H3 & H3c & H3o & _).
  destruct (delete_one_spec "users" (field_is "_id" u) s3)
    as (n4 & s4 & H4 & H4c & H4o & H4n).
  assert (Hu3 : get_collection "users" s3 = get_collection "users" s).
  { by rewrite H3o, H2o, H1o. }
  rewrite Hu3 in H4c, H4n. rewrite H4n in H4 by (by rewrite Hd).
  exists s4. split; [|split; [|split; [|split]]].
  - unfold delete_user. monad_unfold. rewrite Hu, Hd.
    unfold mbind, M_bind. by rewrite H1, H2, H3.
  - unfold get_user_by_id. monad_unfold. rewrite Hu, H4c.
    by rewrite remove_first_at_most_one.
  - unfold get_employer_by_user. monad_unfold. rewrite Hu.
    rewrite H4o, H3o, H2c, H1o by done. by rewrite remove_first_at_most_one.
  - unfold get_admin_by_user. monad_unfold. rewrite Hu.
    rewrite H4o, H3c, H2o, H1o by done. by rewrite remove_first_at_most_one.
  - intros c Hc.
    assert (Hne : c ≠ "workers" ∧ c ≠ "employers" ∧ c ≠ "admins" ∧ c ≠ "users").
    { repeat split; intros ->; apply Hc; by repeat constructor. }
    destruct Hne as (? & ? & ? & ?). by rewrite H4o, H3o, H2o, H1o.
Qed.

(** ** Registration *)

Definition employer_doc (u company employer : value) (now : datetime) : doc :=
  {[ "user_id" := u; "employer_name" := employer; "company_name" := company;
     "location" := VStr ""; "phone" := VStr ""; "created_at" := VDate now ]}.

Lemma create_employer_profile_new s user_id u company employer now :
  id_of_arg user_id = Ok u →
  oid_fresh s →
  create_employer_profile user_id company employer now s =
    (Ok (VId (next_oid s)), inserted "employers" (employer_doc u company employer now) s).
Proof.
  intros Hu Hfresh. unfold create_employer_profile. monad_unfold. rewrite Hu.
  fold (employer_doc u company employer now).
  rewrite insert_one_inserted; [done| |done]. unfold employer_doc. literal_lookup.
Qed.

Lemma get_employer_by_user_found s user_id u d v :
  id_of_arg user_id = Ok u →
  List.find (field_is "user_id" u) (get_collection "employers" s) = Some d →
  d !! "_id" = Some v →
  get_employer_by_user user_id s =
    (Ok (Some (<["user_id" := VStr (py_str (serialize_value u))]>
                 (<["employer_id" := default VNull (serialize_doc d !! "id")]>
                    (serialize_doc d)))), s).
Proof.
  intros Hu Hd Hv. unfold get_employer_by_user. monad_unfold. rewrite Hu, Hd.
  pose proof Hd as [Huser%field_is_true _]%find_some_holds.
  unfold mbind, M_bind. by rewrite (profile_view_ok _ d v u s).
Qed.

(** X21: registration of an employer under an email that no user has.
    On a database whose ids are all older than the next one, [register]
    answers with the string of the new user's id; [get_user_by_id] on that
    string returns the user with the email and the role, and
    [get_employer_by_user] on it returns a profile of that user with the
    company and employer names of the request, or the empty string where
    the request has none. *)
Theorem register_employer (s : db) (data : doc) (email pw : value) (t1 t2 : datetime) :
  data !! "role" = Some (VStr "employer") →
  ids_below s →
  (next_oid s < 2 ^ 96)%N →
  List.find (field_is "email" email) (get_collection "users" s) = None →
  List.find (field_is "user_id" (VId (next_oid s))) (get_collection "employers" s) = None →
  ∃ uid s' user emp,
    register data email pw t1 t2 s = (Ok (VStr uid), s') ∧
    get_user_by_id (VStr uid) s' = (Ok (Some user), s') ∧
    user !! "email" = Some (serialize_value email) ∧
    user !! "role" = Some (VStr "employer") ∧
    get_employer_by_user (VStr uid) s' = (Ok (Some emp), s') ∧
    emp !! "user_id" = Some (VStr uid) ∧
    emp !! "company_name" = Some (serialize_value (get_or data "company_name" (VStr ""))) ∧
    emp !! "employer_name" = Some (serialize_value (get_or data "employer_name" (VStr ""))).
Proof.
  intros Hrole Hbelow Hbound Hnone Hnoemp.
  set (role := VStr "employer").
  set (n := next_oid s) in *.
  set (ud := user_doc email pw role t1).
  set (d := <["_id" := VId n]> ud).
  set (s1 := inserted "users" ud s).
  set (ed := employer_doc (VId n) (get_or data "company_name" (VStr ""))
               (get_or data "employer_name" (VStr "")) t2).
  set (e := <["_id" := VId (next_oid s1)]> ed).
  set (s2 := inserted "employers" ed s1).
  assert (Hfresh : oid_fresh s) by by apply ids_below_fresh.
  assert (Hfresh1 : oid_fresh s1) by by apply ids_below_fresh, ids_below_inserted.
  assert (Hparse : id_of_arg (VStr (oid_str n)) = Ok (VId n)) by by apply id_of_arg_oid_str.
  assert (Hd_id : d !! "_id" = Some (VId n)) by apply lookup_insert_eq.
  assert (Hd_k : ∀ k, k ≠ "_id" → d !! k = ud !! k).
  { intros k Hk. unfold d. by rewrite lookup_insert_ne. }
  assert (Hd_noid : d !! "id" = None).
  { rewrite Hd_k by done. unfold ud, user_doc. literal_lookup. }
  assert (Hd_email : d !! "email" = Some email).
  { rewrite Hd_k by done. unfold ud, user_doc. literal_lookup. }
  assert (Hd_role : d !! "role" = Some role).
  { rewrite Hd_k by done. unfold ud, user_doc. literal_lookup. }
  assert (Husers1 : get_collection "users" s1 = (get_collection "users" s ++ [d])%list)
    by apply inserted_at.
  assert (Husers2 : get_collection "users" s2 = (get_collection "users" s ++ [d])%list).
  { unfold s2. by rewrite inserted_other. }
  assert (Hemps2 : get_collection "employers" s2 = (get_collection "employers" s ++ [e])%list).
  { unfold s2. rewrite inserted_at. unfold s1 at 1. by rewrite inserted_other. }
  assert (He_id : e !! "_id" = Some (VId (next_oid s1))) by apply lookup_insert_eq.
  assert (He_k : ∀ k, k ≠ "_id" → e !! k = ed !! k).
  { intros k Hk. unfold e. by rewrite lookup_insert_ne. }
  assert (He_user : e !! "user_id" = Some (VId n)).
  { rewrite He_k by done. unfold ed, employer_doc. literal_lookup. }
  assert (Hbyemail : get_user_by_email email s1 = (Ok (Some (user_view d)), s1)).
  { apply (get_user_by_email_found s1 email d (VId n)); [|done].
    rewrite Husers1. apply find_last; [done|]. by apply field_is_true. }
  assert (Hreg : register data email pw t1 t2 s = (Ok (VStr (oid_str n)), s2)).
  { unfold register. monad_unfold. rewrite Hrole.
    unfold mbind, M_bind. rewrite (create_user_new s email pw (VStr "employer") t1 Hfresh).
    fold role ud s1. rewrite Hbyemail.
    rewrite (user_view_id d (VId n) Hd_id Hd_noid). simpl py_str.
    rewrite bool_decide_eq_true_2 by done.
    by rewrite (create_employer_profile_new s1 _ (VId n) _ _ t2 Hparse Hfresh1). }
  assert (Hser : ∀ k v, k ∉ ["_id"; "id"; "user_id"; "employer_id"] → ed !! k = Some v →
            (<["user_id" := VStr (py_str (serialize_value (VId n)))]>
               (<["employer_id" := default VNull (serialize_doc e !! "id")]>
                  (serialize_doc e))) !! k = Some (serialize_value v)).
  { intros k v Hk Hv.
    assert (Hne : k ≠ "_id" ∧ k ≠ "id" ∧ k ≠ "user_id" ∧ k ≠ "employer_id").
    { repeat split; intros ->; apply Hk; by repeat constructor. }
    destruct Hne as (? & ? & ? & ?). rewrite !lookup_insert_ne by done.
    rewrite serialize_doc_lookup_other by done. by rewrite He_k, Hv. }
  exists (oid_str n), s2, (user_view d),
    (<["user_id" := VStr (py_str (serialize_value (VId n)))]>
       (<["employer_id" := default VNull (serialize_doc e !! "id")]> (serialize_doc e))).
  split; [exact Hreg|]. split.
  { apply (get_user_by_id_found s2 _ (VId n) d Hparse). rewrite Husers2.
    apply find_last; [|by apply field_is_true].
    apply find_field_is_none. by apply oid_fresh_collection. }
  split. { rewrite user_view_field, Hd_email; [done|].
           intros Hin. repeat (apply elem_of_cons in Hin as [Hin|Hin]; [discriminate Hin|]).
           inversion Hin. }
  split. { rewrite user_view_field, Hd_role; [done|].
           intros Hin. repeat (apply elem_of_cons in Hin as [Hin|Hin]; [discriminate Hin|]).
           inversion Hin. }
  split.
  { apply (get_employer_by_user_found s2 _ (VId n) e (VId (next_oid s1)) Hparse);
      [|exact He_id].
    rewrite Hemps2. apply find_last; [done|]. by apply field_is_true. }
  split. { by rewrite lookup_insert_eq. }
  split.
  - apply Hser; [|unfold ed, employer_doc; literal_lookup].
    intros Hin. repeat (apply elem_of_cons in Hin as [Hin|Hin]; [discriminate Hin|]).
    inversion Hin.
  - apply Hser; [|unfold ed, employer_doc; literal_lookup].
    intros Hin. repeat (apply elem_of_cons in Hin as [Hin|Hin]; [discriminate Hin|]).
    inversion Hin.
Qed.

(** X22: [register] does not refuse an email that a user already has.
    With the role employer it stores a second user under the email,
    answers with the id of the older user, whom [get_user_by_email] finds
    first, and attaches the new employer profile to that older user. *)
Theorem register_existing_email (s : db) (data : doc) (email pw : value)
    (t1 t2 : datetime) (old : doc) (o : oid) :
  data !! "role" = Some (VStr "employer") →
  ids_below s →
  (next_oid s < 2 ^ 96)%N →
  List.find (field_is "email" email) (get_collection "users" s) = Some old →
  old !! "_id" = Some (VId o) →
  old !! "id" = None →
  ∃ s' u e,
    register data email pw t1 t2 s = (Ok (VStr (oid_str o)), s') ∧
    get_collection "users" s' = (get_collection "users" s ++ [u])%list ∧
    u !! "email" = Some email ∧
    get_collection "employers" s' = (get_collection "employers" s ++ [e])%list ∧
    e !! "user_id" = Some (VId o).
Proof.
  intros Hrole Hbelow Hbound Hold Hid Hnoid.
  set (role := VStr "employer").
  set (ud := user_doc email pw role t1).
  set (s1 := inserted "users" ud s).
  set (ed := employer_doc (VId o) (get_or data "company_name" (VStr ""))
               (get_or data "employer_name" (VStr "")) t2).
  set (s2 := inserted "employers" ed s1).
  assert (Hfresh : oid_fresh s) by by apply ids_below_fresh.
  assert (Hfresh1 : oid_fresh s1) by by apply ids_below_fresh, ids_below_inserted.
  assert (Ho : (o < 2 ^ 96)%N).
  { pose proof (ids_below_collection "users" s Hbelow) as Hall.
    rewrite Forall_forall in Hall.
    apply find_some_holds in Hold as [_ Hin]. specialize (Hall old Hin o Hid). lia. }
  assert (Hparse : id_of_arg (VStr (oid_str o)) = Ok (VId o)) by by apply id_of_arg_oid_str.
  assert (Husers1 : get_collection "users" s1 =
            (get_collection "users" s ++ [<["_id" := VId (next_oid s)]> ud])%list)
    by apply inserted_at.
  assert (Hbyemail : get_user_by_email email s1 = (Ok (Some (user_view old)), s1)).
  { apply (get_user_by_email_found s1 email old (VId o)); [|done].
    rewrite Husers1. by apply find_app_some_l. }
  exists s2, (<["_id" := VId (next_oid s)]> ud), (<["_id" := VId (next_oid s1)]> ed).
  split; [|split; [|split; [|split]]].
  - unfold register. monad_unfold. rewrite Hrole.
    unfold mbind, M_bind. rewrite (create_user_new s email pw (VStr "employer") t1 Hfresh).
    fold role ud s1. rewrite Hbyemail.
    rewrite (user_view_id old (VId o) Hid Hnoid). simpl py_str.
    rewrite bool_decide_eq_true_2 by done.
    by rewrite (create_employer_profile_new s1 _ (VId o) _ _ t2 Hparse Hfresh1).
  - unfold s2. by rewrite inserted_other.
  - rewrite lookup_insert_ne by done. unfold ud, user_doc. literal_lookup.
  - unfold s2. rewrite inserted_at. unfold s1 at 1. by rewrite inserted_other.
  - rewrite lookup_insert_ne by done. unfold ed, employer_doc. literal_lookup.
Qed.
(** ** Admin profiles *)

Lemma update_first_last (q : doc → bool) (f : doc → doc) (l : list doc) x :
  List.find q l = None → q x = true → update_first q f (l ++ [x]) = (l ++ [f x])%list.
Proof.
  intros Hl Hx. induction l as [|a l IH]; simpl in *; [by rewrite Hx|].
  destruct (q a); [done|]. by rewrite IH.
Qed.

Definition admin_doc (u admin_name department : value) (now : datetime) : doc :=
  {[ "user_id" := u; "admin_name" := admin_name; "department" := department;
     "created_at" := VDate now ]}.

Definition admin_fields (data : doc) (now : datetime) : doc :=
  {[ "admin_name" := get_or data "admin_name" (VStr "");
     "department" := get_or data "department" (VStr "");
     "updated_at" := VDate now ]}.

(** X23: the admin profile round trip.  For a user without admin
    profile, [create_admin_profile] returns a new id;
    [upsert_admin_profile] on the string of that id returns 1; and
    [get_admin_by_user] for the user then returns the profile under that
    id, with the name and the department of the field set, or the empty
    string where the field set has none. *)
Theorem admin_profile_round_trip (s : db) (user_id u admin_name department : value)
    (data : doc) (t1 t2 : datetime) :
  id_of_arg user_id = Ok u →
  oid_fresh s →
  (next_oid s < 2 ^ 96)%N →
  List.find (field_is "user_id" u) (get_collection "admins" s) = None →
  ∃ aid s1 s2 r,
    create_admin_profile user_id admin_name department t1 s = (Ok aid, s1) ∧
    upsert_admin_profile (VStr (py_str aid)) data t2 s1 = (Ok 1, s2) ∧
    get_admin_by_user user_id s2 = (Ok (Some r), s2) ∧
    r !! "admin_id" = Some (VStr (py_str aid)) ∧
    r !! "user_id" = Some (VStr (py_str (serialize_value u))) ∧
    r !! "admin_name" = Some (serialize_value (get_or data "admin_name" (VStr ""))) ∧
    r !! "department" = Some (serialize_value (get_or data "department" (VStr ""))).
Proof.
  intros Hu Hfresh Hbound Hnone.
  set (n := next_oid s) in *.
  set (ad := admin_doc u admin_name department t1).
  set (a := <["_id" := VId n]> ad).
  set (s1 := inserted "admins" ad s).
  set (f := admin_fields data t2).
  set (s2 := set_coll "admins" (get_collection "admins" s ++ [f ∪ a]) s1).
  assert (Hparse : id_of_arg (VStr (oid_str n)) = Ok (VId n)) by by apply id_of_arg_oid_str.
  assert (Hold : List.find (field_is "_id" (VId n)) (get_collection "admins" s) = None).
  { apply find_field_is_none. by apply oid_fresh_collection. }
  assert (Ha_id : a !! "_id" = Some (VId n)) by apply lookup_insert_eq.
  assert (Ha_k : ∀ k, k ≠ "_id" → a !! k = ad !! k).
  { intros k Hk. unfold a. by rewrite lookup_insert_ne. }
  assert (Hf_none : ∀ k, k ∈ ["_id"; "id"; "user_id"; "admin_id"] → f !! k = None).
  { intros k Hk. unfold f, admin_fields.
    repeat (apply elem_of_cons in Hk as [->|Hk]; [literal_lookup|]). inversion Hk. }
  assert (Hfa_id : (f ∪ a) !! "_id" = Some (VId n)).
  { by rewrite lookup_union, Hf_none, Ha_id by (by repeat constructor). }
  assert (Had_user : ad !! "user_id" = Some u) by (unfold ad, admin_doc; literal_lookup).
  assert (Had_noid : ad !! "id" = None) by (unfold ad, admin_doc; literal_lookup).
  assert (Had_noat : ad !! "updated_at" = None) by (unfold ad, admin_doc; literal_lookup).
  assert (Hfa_user : (f ∪ a) !! "user_id" = Some u).
  { by rewrite lookup_union, Hf_none, Ha_k, Had_user by (done || by repeat constructor). }
  assert (Hfa_noid : (f ∪ a) !! "id" = None).
  { by rewrite lookup_union, Hf_none, Ha_k, Had_noid by (done || by repeat constructor). }
  assert (Hfa_k : ∀ k v, f !! k = Some v → (f ∪ a) !! k = Some v).
  { intros k v Hk. rewrite lookup_union, Hk. by destruct (a !! k). }
  assert (Hadmins1 : get_collection "admins" s1 = (get_collection "admins" s ++ [a])%list)
    by apply inserted_at.
  assert (Hcreate : create_admin_profile user_id admin_name department t1 s
                    = (Ok (VId n), s1)).
  { unfold create_admin_profile. monad_unfold. rewrite Hu.
    fold (admin_doc u admin_name department t1). fold ad.
    rewrite insert_one_inserted; [done| |done]. unfold ad, admin_doc. literal_lookup. }
  assert (Hupsert : upsert_admin_profile (VStr (oid_str n)) data t2 s1 = (Ok 1, s2)).
  { unfold upsert_admin_profile. monad_unfold. rewrite Hparse.
    fold (admin_fields data t2). fold f.
    unfold update_one. rewrite Hadmins1.
    rewrite (find_last _ _ a Hold) by by apply field_is_true.
    rewrite bool_decide_eq_false_2.
    - by rewrite update_first_last by (done || by apply field_is_true).
    - intros Heq. assert (Hat : (f ∪ a) !! "updated_at" = a !! "updated_at") by by rewrite Heq.
      rewrite (Hfa_k "updated_at" (VDate t2)), Ha_k, Had_noat in Hat by
        (done || (unfold f, admin_fields; literal_lookup)).
      discriminate Hat. }
  assert (Hser : ∀ k v, k ∉ ["_id"; "id"; "user_id"; "admin_id"] → f !! k = Some v →
            (<["user_id" := VStr (py_str (serialize_value u))]>
               (<["admin_id" := default VNull (serialize_doc (f ∪ a) !! "id")]>
                  (serialize_doc (f ∪ a)))) !! k = Some (serialize_value v)).
  { intros k v Hk Hv.
    assert (Hne : k ≠ "_id" ∧ k ≠ "id" ∧ k ≠ "user_id" ∧ k ≠ "admin_id").
    { repeat split; intros ->; apply Hk; by repeat constructor. }
    destruct Hne as (? & ? & ? & ?). rewrite !lookup_insert_ne by done.
    rewrite serialize_doc_lookup_other by done. by rewrite (Hfa_k k v Hv). }
  exists (VId n), s1, s2,
    (<["user_id" := VStr (py_str (serialize_value u))]>
       (<["admin_id" := default VNull (serialize_doc (f ∪ a) !! "id")]>
          (serialize_doc (f ∪ a)))).
  split; [exact Hcreate|]. split; [exact Hupsert|]. split.
  { unfold get_admin_by_user. monad_unfold. rewrite Hu.
    unfold s2 at 1. rewrite get_collection_set_eq.
    rewrite (find_last _ _ (f ∪ a) Hnone) by by apply field_is_true.
    unfold mbind, M_bind. by rewrite (profile_view_ok _ (f ∪ a) (VId n) u s2). }
  split.
  { rewrite lookup_insert_ne by done. rewrite lookup_insert_eq.
    by rewrite (serialize_doc_lookup_id _ _ Hfa_id), Hfa_noid. }
  split; [apply lookup_insert_eq|]. split.
  - apply Hser; [|unfold f, admin_fields; literal_lookup].
    intros Hin. repeat (apply elem_of_cons in Hin as [Hin|Hin]; [discriminate Hin|]).
    inversion Hin.
  - apply Hser; [|unfold f, admin_fields; literal_lookup].
    intros Hin. repeat (apply elem_of_cons in Hin as [Hin|Hin]; [discriminate Hin|]).
    inversion Hin.
Qed.

(** ** What the lookups leave alone *)

(** A computation that returns the database as it found it, also when it
    raises. *)
Definition reads_only {A} (m : M A) : Prop := ∀ s, (m s).2 = s.

Lemma reads_only_bind {A B} (m : M A) (f : A → M B) :
  reads_only m → (∀ a, reads_only (f a)) → reads_only (m ≫= f).
Proof.
  intros Hm Hf s. unfold mbind, M_bind. specialize (Hm s).
  destruct (m s) as [[a|e] s1]; simpl in *; subst; [apply Hf|done].
Qed.

Lemma reads_only_ret {A} (a : A) : reads_only (mret a).
Proof. by intros s. Qed.

Lemma reads_only_lift {A} (r : result A) : reads_only (lift r).
Proof. by intros s. Qed.

Lemma reads_only_gets {A} (f : db → A) : reads_only (gets f).
Proof. by intros s. Qed.

Lemma reads_only_raise {A} (e : exn) : reads_only (@raise A e).
Proof. by intros s. Qed.

Lemma reads_only_getitem d k : reads_only (getitem d k).
Proof. unfold getitem. destruct (d !! k); [apply reads_only_ret|apply reads_only_raise]. Qed.

Lemma reads_only_find_one name q : reads_only (find_one name q).
Proof. apply reads_only_gets. Qed.

Lemma reads_only_run {A} (m : M A) s : reads_only m → m s = ((m s).1, s).
Proof. intros Hm. specialize (Hm s). destruct (m s) as [r s']. simpl in *. by subst. Qed.

Ltac reads_only_step :=
  first [ apply reads_only_ret | apply reads_only_lift | apply reads_only_gets
        | apply reads_only_raise | apply reads_only_getitem | apply reads_only_find_one
        | apply reads_only_bind; [|intros ?]
        | match goal with
          | |- reads_only (match ?x with _ => _ end) => destruct x
          end ].

Ltac reads_only_auto := cbv zeta; repeat reads_only_step.

Lemma reads_only_with_alias alias d : reads_only (with_alias alias d).
Proof. unfold with_alias. reads_only_auto. Qed.

Lemma reads_only_profile_view alias d : reads_only (profile_view alias d).
Proof.
  unfold profile_view. apply reads_only_bind; [apply reads_only_with_alias|].
  intros ?. reads_only_auto.
Qed.

Lemma reads_only_find_in_partitions names q : reads_only (find_in_partitions names q).
Proof. intros s. by rewrite find_in_partitions_first_hit. Qed.

Lemma reads_only_find_job_in names j : reads_only (find_job_in names j).
Proof. intros s. by rewrite find_job_in_first_hit. Qed.

Lemma reads_only_with_alias_all alias l : reads_only (with_alias_all alias l).
Proof.
  induction l as [|d l IH]; simpl; [apply reads_only_ret|].
  apply reads_only_bind; [apply reads_only_with_alias|]. intros ?.
  apply reads_only_bind; [exact IH|]. intros ?. apply reads_only_ret.
Qed.

Lemma reads_only_get_job_by_id job_id : reads_only (get_job_by_id job_id).
Proof.
  unfold get_job_by_id. apply reads_only_bind; [apply reads_only_lift|]. intros ?.
  apply reads_only_bind; [apply reads_only_gets|]. intros ?. apply reads_only_find_job_in.
Qed.

Lemma reads_only_get_worker_by_user user_id : reads_only (get_worker_by_user user_id).
Proof.
  unfold get_worker_by_user, _find_worker_in_partitions.
  apply reads_only_bind; [apply reads_only_lift|]. intros ?.
  apply reads_only_bind; [apply reads_only_find_in_partitions|]. intros [w|].
  - apply reads_only_bind; [apply reads_only_profile_view|]. intros ?. apply reads_only_ret.
  - apply reads_only_ret.
Qed.

Lemma reads_only_get_employer_by_user user_id : reads_only (get_employer_by_user user_id).
Proof.
  unfold get_employer_by_user.
  apply reads_only_bind; [apply reads_only_lift|]. intros ?.
  apply reads_only_bind; [apply reads_only_find_one|]. intros [w|].
  - apply reads_only_bind; [apply reads_only_profile_view|]. intros ?. apply reads_only_ret.
  - apply reads_only_ret.
Qed.

(** X24: no lookup writes: each of the functions that get or list
    records returns the database as it found it, whatever its arguments and
    also when it raises. *)
Theorem lookups_read_only :
  (∀ email, reads_only (get_user_by_email email)) ∧
  (∀ user_id, reads_only (get_user_by_id user_id)) ∧
  (∀ user_id, reads_only (get_worker_by_user user_id)) ∧
  (∀ worker_id, reads_only (get_worker_by_id worker_id)) ∧
  (∀ user_id, reads_only (get_employer_by_user user_id)) ∧
  (∀ user_id, reads_only (get_admin_by_user user_id)) ∧
  (∀ job_id, reads_only (get_job_by_id job_id)) ∧
  (∀ employer_id, reads_only (get_jobs_by_employer employer_id)) ∧
  (∀ application_id, reads_only (get_application_by_id application_id)) ∧
  (∀ worker_id skills location, reads_only (worker_matched_jobs worker_id skills location)) ∧
  (∀ query_text location skills, reads_only (search_jobs query_text location skills)) ∧
  reads_only admin_list_jobs.
Proof.
  repeat split; intros.
  - unfold get_user_by_email.
    apply reads_only_bind; [apply reads_only_find_one|]. intros [u|]; [|apply reads_only_ret].
    apply reads_only_bind; [apply reads_only_with_alias|]. intros ?. apply reads_only_ret.
  - unfold get_user_by_id.
    apply reads_only_bind; [apply reads_only_lift|]. intros ?.
    apply reads_only_bind; [apply reads_only_find_one|]. intros [u|]; [|apply reads_only_ret].
    apply reads_only_bind; [apply reads_only_with_alias|]. intros ?. apply reads_only_ret.
  - apply reads_only_get_worker_by_user.
  - unfold get_worker_by_id, _find_worker_in_partitions. cbv zeta.
    apply reads_only_bind; [apply reads_only_lift|]. intros ?.
    apply reads_only_bind; [apply reads_only_find_one|]. intros [w|].
    + reads_only_auto.
    + apply reads_only_bind; [apply reads_only_find_in_partitions|]. intros [w|];
        reads_only_auto.
  - apply reads_only_get_employer_by_user.
  - unfold get_admin_by_user.
    apply reads_only_bind; [apply reads_only_lift|]. intros ?.
    apply reads_only_bind; [apply reads_only_find_one|]. intros [w|]; [|apply reads_only_ret].
    apply reads_only_bind; [apply reads_only_profile_view|]. intros ?. apply reads_only_ret.
  - apply reads_only_get_job_by_id.
  - unfold get_jobs_by_employer.
    apply reads_only_bind; [apply reads_only_lift|]. intros ?.
    apply reads_only_bind; [apply reads_only_gets|]. intros ?.
    apply reads_only_bind; [apply reads_only_lift|]. intros ?.
    apply reads_only_with_alias_all.
  - unfold get_application_by_id.
    apply reads_only_bind; [apply reads_only_lift|]. intros ?.
    apply reads_only_bind; [apply reads_only_find_one|]. intros [u|]; [|apply reads_only_ret].
    apply reads_only_bind; [apply reads_only_with_alias|]. intros ?. apply reads_only_ret.
  - unfold worker_matched_jobs. reads_only_auto.
  - unfold search_jobs. apply reads_only_bind; [|intros ?; apply reads_only_ret].
    unfold search_aggregate.
    destruct (forallb _ _); [apply reads_only_gets|apply reads_only_raise].
  - unfold admin_list_jobs. reads_only_auto.
Qed.

(** ** Routes *)

Lemma bind_run {A B} (m : M A) (f : A → M B) s :
  (m ≫= f) s =
    match m s with
    | (Ok a, s1) => f a s1
    | (Err e, s1) => (Err e, s1)
    end.
Proof. done. Qed.

Lemma get_job_by_id_found job_id s job :
  (get_job_by_id job_id s).1 = Ok (Some job) →
  ∃ j jd, id_of_arg job_id = Ok j ∧
          first_hit (_get_all_job_partitions s) (field_is "_id" j) s = Some jd ∧
          job = job_view jd.
Proof.
  unfold get_job_by_id. monad_unfold. destruct (id_of_arg job_id) as [j|e]; [|done].
  rewrite find_job_in_first_hit. simpl.
  destruct (first_hit _ _ s) as [jd|] eqn:Hjd; [|done]. intros [= <-]. by exists j, jd.
Qed.

Lemma update_application_status_runs application_id a status now s :
  id_of_arg application_id = Ok a →
  valid_status status = true →
  ∃ n s', update_application_status application_id status now s = (Ok n, s').
Proof.
  intros Ha Hst. unfold update_application_status. monad_unfold. rewrite Ha, Hst.
  unfold update_one. destruct (List.find _ _); [destruct (bool_decide _)|]; by eexists _, _.
Qed.

(** X25: [api_employer_update_application] writes only when it answers
    that it updated, and it answers so only for the employer of the job:
    the status is approved or rejected, the application is stored, its job
    is in a year partition, the caller has an employer profile, and the
    string of the job's [employer_id] is the string of the profile's id.
    Every other outcome, an exception too, leaves the database as it
    was. *)
Theorem api_employer_update_application_owner (s s' : db) (sub : value) (body : doc)
    (application_id : string) (now : datetime) (r : result (string * Z)) :
  api_employer_update_application sub body application_id now s = (r, s') →
  (r ≠ Ok ("updated", 200) → s' = s) ∧
  (r = Ok ("updated", 200) →
   ∃ aid a job_id j jd emp e n,
     get_or body "status" VNull ∈ [VStr "approved"; VStr "rejected"] ∧
     to_object_id (VStr application_id) = Ok aid ∧
     List.find (field_is "_id" aid) (get_collection "applications" s) = Some a ∧
     a !! "job_id" = Some job_id ∧
     id_of_arg (VStr (py_str job_id)) = Ok j ∧
     first_hit (_get_all_job_partitions s) (field_is "_id" j) s = Some jd ∧
     get_employer_by_user sub s = (Ok (Some emp), s) ∧
     emp !! "employer_id" = Some e ∧
     py_str (get_or (job_view jd) "employer_id" VNull) = py_str e ∧
     update_application_status (VStr application_id) (get_or body "status" VNull) now s
       = (Ok n, s')).
Proof.
  intros Hrun. unfold api_employer_update_application in Hrun. cbv zeta in Hrun.
  set (status := get_or body "status" VNull) in *.
  destruct (bool_decide (status ∈ [VStr "approved"; VStr "rejected"])) eqn:Hst;
    cbv beta iota delta [negb] in Hrun;
    [|injection Hrun as <- <-; by split].
  apply bool_decide_eq_true in Hst.
  rewrite bind_run in Hrun. unfold lift at 1 in Hrun.
  destruct (to_object_id (VStr application_id)) as [aid|err] eqn:Haid;
    [|injection Hrun as <- <-; by split].
  rewrite bind_run in Hrun. unfold find_one at 1, gets at 1 in Hrun.
  destruct (List.find (field_is "_id" aid) (get_collection "applications" s))
    as [a|] eqn:Ha; [|injection Hrun as <- <-; by split].
  rewrite bind_run in Hrun. unfold getitem at 1 in Hrun.
  destruct (a !! "job_id") as [job_id|] eqn:Hjob_id;
    [|injection Hrun as <- <-; by split].
  unfold mret at 1, M_ret at 1 in Hrun.
  rewrite bind_run in Hrun.
  rewrite (reads_only_run _ s (reads_only_get_job_by_id _)) in Hrun.
  destruct ((get_job_by_id (VStr (py_str job_id)) s).1) as [[job|]|err] eqn:Hjob;
    [| |]; try (injection Hrun as <- <-; by split).
  apply get_job_by_id_found in Hjob as (j & jd & Hj & Hjd & ->).
  rewrite bind_run in Hrun.
  rewrite (reads_only_run _ s (reads_only_get_employer_by_user _)) in Hrun.
  destruct ((get_employer_by_user sub s).1) as [[emp|]|err] eqn:Hemp;
    [| |]; try (injection Hrun as <- <-; by split).
  rewrite bind_run in Hrun. unfold getitem at 1 in Hrun.
  destruct (emp !! "employer_id") as [e|] eqn:He;
    [|injection Hrun as <- <-; by split].
  unfold mret at 1, M_ret at 1 in Hrun.
  destruct (String.eqb (py_str (get_or (job_view jd) "employer_id" VNull)) (py_str e))
    eqn:Heq; cbv beta iota delta [negb] in Hrun;
    [|injection Hrun as <- <-; by split].
  apply String.eqb_eq in Heq.
  assert (Hvalid : valid_status status = true).
  { unfold valid_status. apply bool_decide_eq_true.
    apply elem_of_cons in Hst as [->|Hst]; [by repeat constructor|].
    apply elem_of_cons in Hst as [->|Hst]; [by repeat constructor|]. inversion Hst. }
  destruct (update_application_status_runs (VStr application_id) aid status now s Haid Hvalid)
    as (n & s1 & Hup).
  rewrite bind_run, Hup in Hrun. injection Hrun as <- <-. split; [done|]. intros _.
  exists aid, a, job_id, j, jd, emp, e, n.
  repeat (split; [done|]). split; [|done].
  rewrite (reads_only_run _ s (reads_only_get_employer_by_user _)). by rewrite Hemp.
Qed.

Lemma first_hit_ext names (q : doc → bool) s s' :
  (∀ p, p ∈ names → get_collection p s' = get_collection p s) →
  first_hit names q s' = first_hit names q s.
Proof.
  unfold first_hit. intros Hsame. f_equal.
  induction names as [|p names IH]; [done|]. csimpl.
  rewrite (Hsame p) by by left.
  assert (Hrest : omap (λ p, List.find q (get_collection p s')) names
                  = omap (λ p, List.find q (get_collection p s)) names).
  { apply IH. intros p' Hp'. apply Hsame. by right. }
  by rewrite Hrest.
Qed.

Lemma worker_partition_not_applications p :
  p ∈ get_all_worker_partitions → p ≠ "applications".
Proof.
  rewrite worker_partitions_list. intros Hp.
  repeat (apply elem_of_cons in Hp as [->|Hp]; [done|]). inversion Hp.
Qed.

Lemma get_job_by_id_run job_id j s :
  id_of_arg job_id = Ok j →
  get_job_by_id job_id s =
    (Ok (job_view <$> first_hit (_get_all_job_partitions s) (field_is "_id" j) s), s).
Proof.
  intros Hj. unfold get_job_by_id. monad_unfold. rewrite Hj.
  apply find_job_in_first_hit.
Qed.

(** The route, once the worker and the job are found. *)
Lemma api_worker_apply_run s sub body job_id j u wd jd o t1 t2 :
  body !! "job_id" = Some job_id →
  id_of_arg sub = Ok u →
  first_hit get_all_worker_partitions (field_is "user_id" u) s = Some wd →
  wd !! "_id" = Some (VId o) →
  wd !! "id" = None →
  id_of_arg job_id = Ok j →
  first_hit (_get_all_job_partitions s) (field_is "_id" j) s = Some jd →
  api_worker_apply sub body t1 t2 s =
    match create_application job_id (VStr (oid_str o)) t1 t2 s with
    | (Ok _, s') => (Ok ("applied", 200), s')
    | (Err e, s') => (Err e, s')
    end.
Proof.
  intros Hbody Hu Hwd Hid Hnoid Hj Hjd.
  destruct (get_worker_by_user_found s sub u wd (VId o) Hu Hwd Hid)
    as (r & i & Hr & Hi & Hii & _).
  rewrite (serialize_doc_lookup_plain _ _ (serialize_doc_no_id wd)) in Hii.
  rewrite (serialize_doc_lookup_id wd _ Hid), Hnoid in Hii. simpl in Hii.
  injection Hii as <-.
  unfold api_worker_apply. cbv zeta.
  rewrite bind_run. unfold getitem at 1. rewrite Hbody. unfold mret at 1, M_ret at 1.
  rewrite bind_run, Hr. rewrite bind_run, (get_job_by_id_run job_id j s Hj), Hjd.
  change (job_view <$> Some jd) with (Some (job_view jd)). cbv beta iota.
  rewrite bind_run. unfold getitem at 1. rewrite Hi. unfold mret at 1, M_ret at 1.
  rewrite bind_run. by destruct (create_application _ _ _ _ s) as [[a|e] s'].
Qed.

(** X26: a worker applies through the route.  When the caller's worker
    record and the job are found (the job in a year partition) and the
    worker has not applied to the job, [api_worker_apply] answers that it
    applied and stores one application of the worker to the job; the same
    request again is not answered: [create_application] raises its
    duplicate error, and nothing more is stored. *)
Theorem api_worker_apply_twice (s : db) (sub u : value) (body : doc) (job_id j : value)
    (wd jd : doc) (o : oid) (t1 t2 t3 t4 : datetime) :
  body !! "job_id" = Some job_id →
  id_of_arg sub = Ok u →
  first_hit get_all_worker_partitions (field_is "user_id" u) s = Some wd →
  wd !! "_id" = Some (VId o) →
  wd !! "id" = None →
  (o < 2 ^ 96)%N →
  id_of_arg job_id = Ok j →
  first_hit (_get_all_job_partitions s) (field_is "_id" j) s = Some jd →
  oid_fresh s →
  pair_count j (VId o) s = 0%nat →
  ∃ s',
    api_worker_apply sub body t1 t2 s = (Ok ("applied", 200), s') ∧
    pair_count j (VId o) s' = 1%nat ∧
    api_worker_apply sub body t3 t4 s' =
      (Err (ValueError "Application already exists for this job"), s').
Proof.
  intros Hbody Hu Hwd Hid Hnoid Ho Hj Hjd Hfresh Hcount.
  assert (Hw : id_of_arg (VStr (oid_str o)) = Ok (VId o)) by by apply id_of_arg_oid_str.
  set (a := new_application_doc j (VId o) t1 t2 (next_oid s)).
  set (s1 := set_coll "applications" (get_collection "applications" s ++ [a])
               (mk_db (colls s) (N.succ (next_oid s)))).
  assert (Hcreate : create_application job_id (VStr (oid_str o)) t1 t2 s
                    = (Ok (VId (next_oid s)), s1))
    by by apply create_application_new.
  assert (Happs : get_collection "applications" s1
                  = (get_collection "applications" s ++ [a])%list).
  { unfold s1. by rewrite get_collection_set_eq. }
  assert (Hother : ∀ p, p ≠ "applications" → get_collection p s1 = get_collection p s).
  { intros p Hp. unfold s1. by rewrite get_collection_set_ne. }
  assert (Hpair : field_is "job_id" j a && field_is "worker_id" (VId o) a = true).
  { apply andb_true_iff. split; apply field_is_true; unfold a, new_application_doc;
      rewrite lookup_insert_ne by done; literal_lookup. }
  assert (Hold : List.filter (λ d, field_is "job_id" j d && field_is "worker_id" (VId o) d)
                   (get_collection "applications" s) = []).
  { unfold pair_count in Hcount. by destruct (List.filter _ _). }
  assert (Hwd1 : first_hit get_all_worker_partitions (field_is "user_id" u) s1 = Some wd).
  { rewrite <- Hwd. apply first_hit_ext. intros p Hp.
    by apply Hother, worker_partition_not_applications. }
  assert (Hjd1 : ∃ jd1, first_hit (_get_all_job_partitions s1) (field_is "_id" j) s1
                        = Some jd1).
  { destruct (first_hit (_get_all_job_partitions s1) (field_is "_id" j) s1) as [jd1|] eqn:H1;
      [by exists jd1|].
    destruct (first_hit_holds _ _ _ _ Hjd) as [Hq (p & Hp & Hin)].
    pose proof (job_partition_not_applications p s Hp) as Hne.
    assert (Hp1 : p ∈ _get_all_job_partitions s1).
    { apply elem_of_job_partitions in Hp as (Hsome & Hpre & Hjobs).
      apply elem_of_job_partitions. split; [|done].
      unfold s1, set_coll. simpl. by rewrite lookup_insert_ne. }
    pose proof (proj1 (first_hit_none _ _ _) H1 p Hp1) as Hnone.
    rewrite Hother in Hnone by done.
    apply find_none_forall in Hnone. rewrite Forall_forall in Hnone.
    specialize (Hnone jd Hin). congruence. }
  destruct Hjd1 as [jd1 Hjd1].
  exists s1. split; [|split].
  - rewrite (api_worker_apply_run s sub body job_id j u wd jd o t1 t2) by done.
    by rewrite Hcreate.
  - unfold pair_count. rewrite Happs, List.filter_app, Hold. simpl. by rewrite Hpair.
  - rewrite (api_worker_apply_run s1 sub body job_id j u wd jd1 o t3 t4) by done.
    unfold create_application. monad_unfold. rewrite Hj, Hw, Happs.
    rewrite find_app_none_l by (by apply find_none_filter).
    simpl. by rewrite Hpair.
Qed.

(** X27: the guard of [api_admin_delete_user] compares the id of the path
    with the subject of the token as strings.  The subject itself is
    refused, and nothing is written; another string that names the same
    [ObjectId] is let through, and the caller's own user record is
    deleted. *)
Theorem api_admin_delete_user_guard (s : db) (sub : value) (user_id : string)
    (u : value) (d : doc) :
  to_object_id (VStr user_id) = Ok u →
  id_of_arg sub = Ok u →
  sub ≠ VStr user_id →
  List.find (field_is "_id" u) (get_collection "users" s) = Some d →
  (length (List.filter (field_is "_id" u) (get_collection "users" s)) ≤ 1)%nat →
  api_admin_delete_user (VStr user_id) user_id s =
    (Ok ("Cannot delete your own account", 400), s) ∧
  ∃ s', api_admin_delete_user sub user_id s = (Ok ("User deleted successfully", 200), s') ∧
        get_user_by_id sub s' = (Ok None, s').
Proof.
  intros Hu Hsub Hne Hd Hone. split.
  - unfold api_admin_delete_user, catch. cbv zeta.
    by rewrite bool_decide_eq_true_2.
  - destruct (delete_one_spec "workers" (field_is "user_id" u) s)
      as (n1 & s1 & H1 & _ & H1o & _).
    destruct (delete_one_spec "employers" (field_is "user_id" u) s1)
      as (n2 & s2 & H2 & _ & H2o & _).
    destruct (delete_one_spec "admins" (field_is "user_id" u) s2)
      as (n3 & s3 & H3 & _ & H3o & _).
    destruct (delete_one_spec "users" (field_is "_id" u) s3)
      as (n4 & s4 & H4 & H4c & _ & H4n).
    assert (Hu3 : get_collection "users" s3 = get_collection "users" s).
    { by rewrite H3o, H2o, H1o. }
    rewrite Hu3 in H4c, H4n. rewrite H4n in H4 by (by rewrite Hd).
    exists s4. split.
    + unfold api_admin_delete_user, catch. cbv zeta.
      rewrite bool_decide_eq_false_2 by congruence.
      monad_unfold. rewrite Hu, Hd.
      unfold mbind, M_bind. by rewrite H1, H2, H3, H4.
    + unfold get_user_by_id. monad_unfold. rewrite Hsub, H4c.
      by rewrite remove_first_at_most_one.
Qed.

(** The record that [get_worker_by_user] returns for the stored worker
    [d]. *)
Definition worker_view (u : value) (d : doc) : doc :=
  <["user_id" := VStr (py_str (serialize_value u))]>
    (<["worker_id" := default VNull (serialize_doc (serialize_doc d) !! "id")]>
       (serialize_doc (serialize_doc d))).

Lemma get_worker_by_user_run s user_id u d v :
  id_of_arg user_id = Ok u →
  first_hit get_all_worker_partitions (field_is "user_id" u) s = Some d →
  d !! "_id" = Some v →
  get_worker_by_user user_id s = (Ok (Some (worker_view u d)), s).
Proof.
  intros Hu Hd Hv.
  pose proof Hd as [Huser%field_is_true _]%first_hit_holds.
  pose proof (serialize_doc_lookup_id d v Hv) as Hi.
  pose proof (serialize_doc_lookup_plain (serialize_doc d) "id" (serialize_doc_no_id d)) as Hii.
  rewrite Hi in Hii. simpl in Hii.
  assert (Hsu : serialize_doc d !! "user_id" = Some (serialize_value u)).
  { rewrite serialize_doc_lookup_other by done. by rewrite Huser. }
  pose proof (serialize_doc_lookup_plain (serialize_doc d) "user_id"
                (serialize_doc_no_id d)) as Huu.
  rewrite Hsu in Huu. simpl in Huu. rewrite serialize_value_idemp in Huu.
  unfold get_worker_by_user, profile_view, with_alias, worker_view. monad_unfold.
  rewrite Hu, find_worker_first_hit, Hd. simpl. rewrite Hii.
  rewrite lookup_insert_ne by done. by rewrite Huu.
Qed.

Lemma worker_view_id u d o :
  d !! "_id" = Some (VId o) → d !! "id" = None →
  worker_view u d !! "worker_id" = Some (VStr (oid_str o)).
Proof.
  intros Hid Hnoid. unfold worker_view.
  rewrite lookup_insert_ne by done. rewrite lookup_insert_eq.
  rewrite (serialize_doc_lookup_plain _ _ (serialize_doc_no_id d)).
  by rewrite (serialize_doc_lookup_id d _ Hid), Hnoid.
Qed.



(** X29: [api_worker_update_profile] answers that the profile is saved
    whatever [upsert_worker_profile] returns: for a worker whose record is
    not in the partition of the hash of its id, the answer is the same and
    the database is as it was. *)
Theorem api_worker_update_profile_outside_hash (s : db) (sub u : value) (payload : doc)
    (t1 t2 : datetime) (wd : doc) (o : oid) :
  id_of_arg sub = Ok u →
  first_hit get_all_worker_partitions (field_is "user_id" u) s = Some wd →
  wd !! "_id" = Some (VId o) →
  wd !! "id" = None →
  (o < 2 ^ 96)%N →
  hashed_hit (VId o) s = None →
  api_worker_update_profile sub payload t1 t2 s = (Ok ("worker profile saved", 200), s).
Proof.
  intros Hu Hwd Hid Hnoid Ho Hmiss.
  assert (Hparse : id_of_arg (VStr (oid_str o)) = Ok (VId o)) by by apply id_of_arg_oid_str.
  unfold api_worker_update_profile. cbv zeta.
  rewrite bind_run, (get_worker_by_user_run s sub u wd (VId o) Hu Hwd Hid).
  rewrite bind_run. unfold mret at 1, M_ret at 1.
  rewrite bind_run. unfold getitem at 1.
  rewrite (worker_view_id u wd o Hid Hnoid). unfold mret at 1, M_ret at 1.
  rewrite bind_run.
  assert (Hup : upsert_worker_profile (VStr (oid_str o)) payload t2 s = (Ok 0, s)).
  { unfold upsert_worker_profile. monad_unfold. rewrite Hparse.
    by apply update_one_absent. }
  by rewrite Hup.
Qed.

End MoreProperties.
(** * Runs on the reference runtime *)

#[local] Existing Instance reference_runtime.

#[global] Instance oid_fresh_dec s : Decision (oid_fresh s).
Proof. unfold oid_fresh. apply _. Defined.

#[global] Instance ids_present_dec s : Decision (ids_present s).
Proof. unfold ids_present. apply _. Defined.

#[global] Instance dated_dec d : Decision (dated d).
Proof. unfold dated. destruct (d !! "posted_at") as [[]|]; apply _. Defined.

(** Reading a field of the record, or of the rows, that a call returned. *)
Definition found_doc (r : result (option doc) * db) : doc :=
  match r.1 with
  | Ok (Some d) => d
  | _ => ∅
  end.

Definition found_field (key : string) (r : result (option doc) * db) : option value :=
  match r.1 with
  | Ok (Some d) => d !! key
  | _ => None
  end.

Definition rows_field (key : string) (r : result (list doc) * db)
    : option (list (option value)) :=
  match r.1 with
  | Ok rows => Some ((λ d : doc, d !! key) <$> rows)
  | Err _ => None
  end.

(** An employer, its user, and a database that holds them. *)
Definition demo_user : doc :=
  {[ "_id" := VId 3; "email" := VStr "asha@example.org"; "role" := VStr "worker" ]}.

Definition demo_employer : doc :=
  {[ "_id" := VId 7; "user_id" := VId 4; "company_name" := VStr "Acme";
     "phone" := VStr "555"; "location" := VStr "Mumbai" ]}.

Definition demo_db : db :=
  mk_db {[ "users" := [demo_user]; "employers" := [demo_employer] ]} 100.

(** A job as an employer posts it. *)
Definition demo_job (title skills location : string) : doc :=
  {[ "title" := VStr title; "required_skills" := VStr skills;
     "location" := VStr location ]}.

(** The database after the employer has posted a job in 2025. *)
Definition posted_db : db :=
  (post_job (VId 7) (demo_job "Web developer" "React, MongoDB, Node.js" "Mumbai")
     (mk_datetime 2025 5) demo_db).2.

(** The database after the worker profile of user 3 has been ensured. *)
Definition worker_db : db :=
  (ensure_worker_row (VId 3) (VStr "Asha") (VStr "Python, React")
     (mk_datetime 2025 1) demo_db).2.

(** A database with one application, of worker 100 to job 55, which no
    partition holds. *)
Definition applied_db : db :=
  set_coll "applications"
    [ {[ "_id" := VId 9; "job_id" := VId 55; "worker_id" := VId 100;
         "application_status" := VStr "pending" ]} ]
    posted_db.

Lemma hash_partition_example :
  get_worker_partition_collection (VId 100) = "workers_partition_2".
Proof. reflexivity. Qed.

(** C2, at a user without worker record. *)
Lemma ensure_worker_row_idempotent_witness :
  ∃ r1 r2 s1 s2 i,
    ensure_worker_row (VStr "000000000000000000000003") (VStr "Asha")
      (VStr "Python, React") (mk_datetime 2025 1) demo_db = (Ok r1, s1) ∧
    ensure_worker_row (VStr "000000000000000000000003") (VStr "") (VStr "")
      (mk_datetime 2025 2) s1 = (Ok r2, s2) ∧
    r1 !! "worker_id" = Some i ∧
    r2 !! "worker_id" = Some i ∧
    worker_count (VId 3) s2 = 1%nat ∧
    get_collection "workers" s2 = get_collection "workers" demo_db.
Proof.
  apply (ensure_worker_row_idempotent demo_db (VStr "000000000000000000000003") (VId 3)).
  - reflexivity.
  - apply (bool_decide_unpack _). vm_compute. reflexivity.
  - apply (bool_decide_unpack _). vm_compute. reflexivity.
  - vm_compute. lia.
Defined.

(** C7, at the application of worker 100 to job 55. *)
Lemma create_application_duplicate_witness :
  ∃ s', create_application (VStr "000000000000000000000037") (VId 100)
          (mk_datetime 2025 8) (mk_datetime 2025 9) applied_db =
          (Err (ValueError "Application already exists for this job"), s') ∧
        s' = applied_db ∧ pair_count (VId 55) (VId 100) s' = 1%nat.
Proof.
  apply (create_application_duplicate applied_db (VStr "000000000000000000000037")
           (VId 100) (VId 55) (VId 100)).
  - reflexivity.
  - reflexivity.
  - vm_compute. reflexivity.
Defined.


(** C10, at job 55, which an application references and no partition
    holds. *)
Lemma delete_job_not_found_cascades_witness :
  ∃ s', delete_job (VId 55) applied_db = (Ok 0, s') ∧
        get_collection "applications" s' =
          List.filter (λ a, negb (field_is "job_id" (VId 55) a))
            (get_collection "applications" applied_db) ∧
        (∀ c, c ≠ "applications" → colls s' !! c = colls applied_db !! c) ∧
        (List.find (field_is "job_id" (VId 55)) (get_collection "applications" applied_db)
           ≠ None → s' ≠ applied_db).
Proof.
  apply (delete_job_not_found_cascades applied_db (VId 55) (VId 55)).
  - reflexivity.
  - apply Forall_forall. apply (bool_decide_unpack _). vm_compute. reflexivity.
Defined.

(** The cascade of that call did remove the application. *)
Lemma delete_job_not_found_example :
  (delete_job (VId 55) applied_db).1 = Ok 0 ∧
  length (get_collection "applications" applied_db) = 1%nat ∧
  length (get_collection "applications" (delete_job (VId 55) applied_db).2) = 0%nat.
Proof. split; [|split]; vm_compute; reflexivity. Qed.

(** C6, at the worker that [ensure_worker_row] stored. *)
Lemma get_worker_by_id_lookup_witness :
  (∀ d, hashed_hit (VId 100) worker_db = Some d → is_Some (d !! "user_id") →
     ∃ i u, serialize_doc d !! "id" = Some i ∧
            serialize_doc d !! "user_id" = Some u ∧
            (d !! "id" = None → i = VStr (py_str (VId 100))) ∧
            get_worker_by_id (VStr "000000000000000000000064") worker_db =
              (Ok (Some (<["user_id" := VStr (py_str u)]>
                           (<["worker_id" := i]> (serialize_doc d)))), worker_db)) ∧
  (hashed_hit (VId 100) worker_db = None →
     ∀ d, first_hit get_all_worker_partitions (field_is "_id" (VId 100)) worker_db
            = Some d →
       ∃ i, serialize_doc d !! "id" = Some i ∧
            (d !! "id" = None → i = VStr (py_str (VId 100))) ∧
            get_worker_by_id (VStr "000000000000000000000064") worker_db =
              (Ok (Some (<["worker_id" := i]> (serialize_doc d))), worker_db)) ∧
  ((∀ p, p ∈ get_all_worker_partitions →
         List.find (field_is "_id" (VId 100)) (get_collection p worker_db) = None) →
     get_worker_by_id (VStr "000000000000000000000064") worker_db = (Ok None, worker_db)).
Proof.
  apply (get_worker_by_id_lookup worker_db (VStr "000000000000000000000064") (VId 100)).
  reflexivity.
Defined.

(** The database in which the worker record sits in another partition than
    that of its hash, as a record written before the partitioning can. *)
Definition legacy_db : db :=
  set_coll "workers_partition_5" (get_collection "workers_partition_2" worker_db)
    (set_coll "workers_partition_2" [] worker_db).

(** The stored worker is found in the partition of its hash, a worker that
    sits in another partition is found by the scan, and an unknown id gives
    [None]. *)
Lemma get_worker_by_id_examples :
  found_field "worker_id" (get_worker_by_id (VId 100) worker_db)
    = Some (VStr "000000000000000000000064") ∧
  found_field "full_name" (get_worker_by_id (VId 100) worker_db) = Some (VStr "Asha") ∧
  found_field "worker_id" (get_worker_by_id (VId 100) legacy_db)
    = Some (VStr "000000000000000000000064") ∧
  (get_worker_by_id (VId 101) worker_db).1 = Ok None.
Proof. repeat split; vm_compute; reflexivity. Qed.

(** Five open jobs over two year partitions, stored in no particular
    order, and one job in the unpartitioned collection. *)
Definition open_job (id : oid) (skills : string) (year tick : Z) : doc :=
  {[ "_id" := VId id; "employer_id" := VId 7; "title" := VStr "Developer";
     "required_skills" := VStr skills; "location" := VStr "Mumbai";
     "status" := VStr "open"; "posted_at" := VDate (mk_datetime year tick) ]}.

Definition merge_db : db :=
  mk_db {[ "employers" := [demo_employer];
           "jobs_2024" := [open_job 11 "React" 2024 30; open_job 12 "Python" 2024 10;
                           open_job 13 "react, css" 2024 20];
           "jobs_2025" := [open_job 21 "PYTHON" 2025 1; open_job 22 "React Native" 2025 7];
           "jobs" := [open_job 31 "React" 2023 1] ]} 100.

(** C5, at the five jobs of the two partitions. *)
Lemma worker_matched_jobs_merge_witness :
  ∃ out,
    worker_matched_jobs (VId 100) "Python, React" (Some "Mumbai") merge_db = (Ok out, merge_db) ∧
    (length out ≤ 100)%nat ∧
    StronglySorted posted_ge out ∧
    key_or_min <$> out =
      take 100 (ksort (key_or_min <$>
        all_matched_rows merge_db (VId 100) (skill_tokens "Python, React") (Some "Mumbai"))) ∧
    ((length (all_matched_rows merge_db (VId 100) (skill_tokens "Python, React")
                (Some "Mumbai")) ≤ 100)%nat →
     out ≡ₚ serialize_doc <$>
       all_matched_rows merge_db (VId 100) (skill_tokens "Python, React") (Some "Mumbai")).
Proof.
  apply (worker_matched_jobs_merge merge_db (VId 100) (VId 100)).
  - reflexivity.
  - vm_compute. discriminate.
  - reflexivity.
  - apply (bool_decide_unpack _). vm_compute. reflexivity.
Defined.

(** The five jobs come back, most recent first. *)
Lemma worker_matched_jobs_example :
  rows_field "job_id" (worker_matched_jobs (VId 100) "Python, React" (Some "Mumbai") merge_db)
    = Some (Some ∘ VStr ∘ oid_str <$> [22; 21; 11; 13; 12]%N).
Proof. vm_compute. reflexivity. Qed.

(** C8, at the job that [posted_db] holds. *)
Lemma post_job_round_trip_witness :
  ∃ job e smin smax,
    get_job_by_id (VId 100) posted_db = (Ok (Some job), posted_db) ∧
    id_of_arg (VId 7) = Ok e ∧
    salary_field (demo_job "Web developer" "React, MongoDB, Node.js" "Mumbai") "salary_min"
      = Ok smin ∧
    salary_field (demo_job "Web developer" "React, MongoDB, Node.js" "Mumbai") "salary_max"
      = Ok smax ∧
    job !! "job_id" = Some (VStr (py_str (VId 100))) ∧
    job !! "id" = Some (VStr (py_str (VId 100))) ∧
    job !! "employer_id" = Some (serialize_value e) ∧
    job !! "title" = Some (serialize_value (get_or
      (demo_job "Web developer" "React, MongoDB, Node.js" "Mumbai") "title" (VStr ""))) ∧
    job !! "required_skills" = Some (serialize_value (get_or
      (demo_job "Web developer" "React, MongoDB, Node.js" "Mumbai") "required_skills"
      (VStr ""))) ∧
    job !! "description" = Some (serialize_value (get_or
      (demo_job "Web developer" "React, MongoDB, Node.js" "Mumbai") "description"
      (VStr ""))) ∧
    job !! "location" = Some (serialize_value (get_or
      (demo_job "Web developer" "React, MongoDB, Node.js" "Mumbai") "location" (VStr ""))) ∧
    job !! "salary_min" = Some smin ∧
    job !! "salary_max" = Some smax ∧
    job !! "status" = Some (VStr "open") ∧
    job !! "posted_at" = Some (VDate (mk_datetime 2025 5)).
Proof.
  apply (post_job_round_trip demo_db posted_db (VId 7) (VId 100)
           (demo_job "Web developer" "React, MongoDB, Node.js" "Mumbai")
           (mk_datetime 2025 5)).
  - apply (bool_decide_unpack _). vm_compute. reflexivity.
  - apply injective_projections; [vm_compute; reflexivity|reflexivity].
Defined.

(** A field set whose lower salary bound exceeds the upper one. *)
Definition unordered_job : doc :=
  <["salary_min" := VInt 100]> (<["salary_max" := VInt 50]> (demo_job "Mason" "Masonry" "Pune")).

Definition unordered_db : db :=
  (post_job (VId 7) unordered_job (mk_datetime 2025 6) demo_db).2.

(** C8 as stated fails: [post_job] accepts a minimum salary of 100 with a
    maximum of 50, and [get_job_by_id] returns the job with both bounds as
    supplied, the minimum above the maximum. *)
Lemma post_job_salary_unordered :
  (post_job (VId 7) unordered_job (mk_datetime 2025 6) demo_db).1 = Ok (VId 100) ∧
  found_field "job_id" (get_job_by_id (VId 100) unordered_db)
    = Some (VStr "000000000000000000000064") ∧
  found_field "salary_min" (get_job_by_id (VId 100) unordered_db)
    = Some (VFloat (inject_Z 100)) ∧
  found_field "salary_max" (get_job_by_id (VId 100) unordered_db)
    = Some (VFloat (inject_Z 50)) ∧
  ¬ salary_ordered (found_doc (get_job_by_id (VId 100) unordered_db)).
Proof.
  split; [vm_compute; reflexivity|].
  split; [vm_compute; reflexivity|].
  split; [vm_compute; reflexivity|].
  split; [vm_compute; reflexivity|].
  intros Hordered.
  specialize (Hordered (inject_Z 100) (inject_Z 50)).
  assert (Hle : Qle (inject_Z 100) (inject_Z 50)).
  { apply Hordered; vm_compute; reflexivity. }
  unfold Qle in Hle. simpl in Hle. lia.
Qed.

(** C1: the job that the employer posted is in [jobs_2025]; [search_jobs]
    runs its pipeline on the collection [jobs] and returns nothing for a
    text that the title holds, while the scan of [worker_matched_jobs]
    and the lookup of [get_job_by_id] reach the job.  On [merge_db] the
    only job it returns is the one of the unpartitioned collection. *)
Theorem search_jobs_misses_partitions :
  rows_field "job_id" (search_jobs (Some "developer") None None posted_db) = Some [] ∧
  rows_field "job_id" (worker_matched_jobs (VId 100) "React" None posted_db)
    = Some [Some (VStr "000000000000000000000064")] ∧
  found_field "title" (get_job_by_id (VId 100) posted_db) = Some (VStr "Web developer") ∧
  rows_field "job_id" (search_jobs (Some "developer") None None merge_db)
    = Some [Some (VStr "00000000000000000000001f")].
Proof. repeat split; vm_compute; reflexivity. Qed.

(** C3: after [ensure_worker_row] stored the worker profile of user 3 in
    its partition, [delete_user] deletes the user and returns 1, and the
    worker record of the user is still in the partition, where
    [get_worker_by_id] finds it. *)
Theorem delete_user_leaves_worker :
  worker_count (VId 3) worker_db = 1%nat ∧
  (delete_user (VId 3) worker_db).1 = Ok 1 ∧
  length (get_collection "users" (delete_user (VId 3) worker_db).2) = 0%nat ∧
  worker_count (VId 3) (delete_user (VId 3) worker_db).2 = 1%nat ∧
  found_field "user_id" (get_worker_by_id (VId 100) (delete_user (VId 3) worker_db).2)
    = Some (VStr "000000000000000000000003").
Proof. repeat split; vm_compute; reflexivity. Qed.

(** C4: the job that [post_job] stored in [jobs_2025] is not found by
    [update_job], which raises "Job not found" and leaves the title as it
    was; [delete_job] on the same id finds the job. *)
Theorem update_job_misses_partition :
  found_field "title" (get_job_by_id (VId 100) posted_db) = Some (VStr "Web developer") ∧
  (update_job (VId 100) {[ "title" := VStr "Senior developer" ]} (mk_datetime 2025 9)
     posted_db).1 = Err (ValueError "Job not found") ∧
  found_field "title"
    (get_job_by_id (VId 100)
       (update_job (VId 100) {[ "title" := VStr "Senior developer" ]} (mk_datetime 2025 9)
          posted_db).2) = Some (VStr "Web developer") ∧
  (delete_job (VId 100) posted_db).1 = Ok 1.
Proof. repeat split; vm_compute; reflexivity. Qed.

(** * Further runs on the reference runtime *)

(** The check of [ids_below] on a given database. *)
Definition id_below (n : oid) (d : doc) : Prop :=
  match d !! "_id" with
  | Some (VId o) => (o < n)%N
  | _ => True
  end.

#[global] Instance id_below_dec n d : Decision (id_below n d).
Proof. unfold id_below. destruct (d !! "_id") as [[]|]; apply _. Defined.

Lemma ids_below_check s :
  map_Forall (λ _ docs, Forall (id_below (next_oid s)) docs) (colls s) → ids_below s.
Proof.
  intros Hs name l Hl. specialize (Hs name l Hl). simpl in *.
  eapply Forall_impl; [exact Hs|]. intros d Hd o Ho. unfold id_below in Hd. by rewrite Ho in Hd.
Qed.

(** The first document of a collection. *)
Definition first_doc (name : string) (s : db) : doc :=
  default ∅ (head (get_collection name s)).

(** The rows that a call returned. *)
Definition rows_of (r : result (list doc) * db) : list doc :=
  match r.1 with
  | Ok rows => rows
  | Err _ => []
  end.

(** A database with a worker, an employer and an admin as users, the
    employer's and the admin's profiles, and then the worker's record
    (id 100), a job of the employer (id 101) and the application of the
    worker to the job (id 102). *)
Definition office_db : db :=
  mk_db {[ "users" := [ demo_user;
                        {[ "_id" := VId 4; "email" := VStr "ravi@example.org";
                           "role" := VStr "employer" ]};
                        {[ "_id" := VId 10; "email" := VStr "root@example.org";
                           "role" := VStr "admin" ]} ];
           "employers" := [demo_employer];
           "admins" := [ {[ "_id" := VId 8; "user_id" := VId 10;
                            "admin_name" := VStr "Root" ]} ] ]} 100.

Definition staffed_db : db :=
  (ensure_worker_row (VId 3) (VStr "Asha") (VStr "Python, React")
     (mk_datetime 2025 1) office_db).2.

Definition hiring_db : db :=
  (post_job (VId 7) (demo_job "Web developer" "React, MongoDB, Node.js" "Mumbai")
     (mk_datetime 2025 5) staffed_db).2.

Definition pending_db : db :=
  (create_application (VId 101) (VId 100) (mk_datetime 2025 6) (mk_datetime 2025 6)
     hiring_db).2.

(** The database of [posted_db] with the counter of the driver set back,
    so that the next generated id is that of the stored job. *)
Definition stale_db : db := mk_db (colls posted_db) 100.

(** X1, at the id 100. *)
Lemma to_object_id_round_trip_witness :
  to_object_id (VStr (oid_str 100)) = Ok (VId 100) ∧
  id_of_arg (VStr (py_str (VId 100))) = Ok (VId 100).
Proof. apply (to_object_id_round_trip 100). lia. Defined.

(** X3, at the job that [posted_db] holds. *)
Lemma post_job_partition_witness :
  get_jobs_partition_collection 2025 ∈ _get_all_job_partitions posted_db ∧
  (∃ job, job !! "_id" = Some (VId 100) ∧
          get_collection (get_jobs_partition_collection 2025) posted_db =
            (get_collection (get_jobs_partition_collection 2025) demo_db ++ [job])%list) ∧
  (∀ c, c ≠ get_jobs_partition_collection 2025 →
        get_collection c posted_db = get_collection c demo_db) ∧
  (∀ year, year ≠ 2025 →
        List.find (field_is "_id" (VId 100))
          (get_collection (get_jobs_partition_collection year) posted_db) = None).
Proof.
  apply (post_job_partition demo_db posted_db (VId 7) (VId 100)
           (demo_job "Web developer" "React, MongoDB, Node.js" "Mumbai")
           (mk_datetime 2025 5)).
  - apply (bool_decide_unpack _). vm_compute. reflexivity.
  - apply injective_projections; [vm_compute; reflexivity|reflexivity].
Defined.

(** X4, at an insert that the database refuses: the generated id is that
    of the job already in the partition. *)
Lemma post_job_error_writes_nothing_witness :
  colls (post_job (VId 7) (demo_job "Mason" "Masonry" "Pune") (mk_datetime 2025 6)
           stale_db).2 = colls stale_db.
Proof.
  apply (post_job_error_writes_nothing stale_db _ (VId 7)
           (demo_job "Mason" "Masonry" "Pune") (mk_datetime 2025 6) DuplicateKeyError).
  apply injective_projections; [vm_compute; reflexivity|reflexivity].
Defined.

(** X5, at a skill string of commas and blanks. *)
Lemma worker_matched_jobs_no_skill_witness :
  worker_matched_jobs (VId 100) " , ," (Some "Mumbai") merge_db = (Ok [], merge_db).
Proof.
  apply (worker_matched_jobs_no_skill merge_db (VId 100) (VId 100)).
  - reflexivity.
  - left. vm_compute. reflexivity.
Defined.

(** X6, at the first row of the five that [merge_db] gives. *)
Lemma worker_matched_jobs_sound_witness :
  ∃ w p job employer,
    id_of_arg (VId 100) = Ok w ∧
    p ∈ _get_all_job_partitions merge_db ∧
    job ∈ get_collection p merge_db ∧
    employer ∈ get_collection "employers" merge_db ∧
    job !! "status" = Some (VStr "open") ∧
    matched_filter (skill_tokens "Python, React") (Some "Mumbai") job = true ∧
    default ∅ (head (rows_of (worker_matched_jobs (VId 100) "Python, React"
                                (Some "Mumbai") merge_db))) =
      serialize_doc (matched_project job employer (lookup_applications merge_db w job)).
Proof.
  apply (worker_matched_jobs_sound merge_db merge_db (VId 100) "Python, React"
           (Some "Mumbai")
           (rows_of (worker_matched_jobs (VId 100) "Python, React" (Some "Mumbai") merge_db))).
  - apply injective_projections.
    + unfold rows_of.
      assert (Hok : match (worker_matched_jobs (VId 100) "Python, React" (Some "Mumbai")
                             merge_db).1 with Ok _ => true | Err _ => false end = true)
        by (vm_compute; reflexivity).
      simpl. by destruct (worker_matched_jobs _ _ _ merge_db).1.
    + vm_compute. reflexivity.
  - assert (Hlen : length (rows_of (worker_matched_jobs (VId 100) "Python, React"
                                      (Some "Mumbai") merge_db)) = 5%nat)
      by (vm_compute; reflexivity).
    destruct (rows_of _) as [|row rows]; [discriminate Hlen|]. simpl. by left.
Defined.

(** X7, at the employer of the five jobs of [merge_db]. *)
Lemma get_jobs_by_employer_complete_witness :
  ∃ sorted,
    get_jobs_by_employer (VId 7) merge_db = (Ok (job_view <$> sorted), merge_db) ∧
    sorted ≡ₚ (_get_all_job_partitions merge_db ≫= λ p,
                 List.filter (field_is "employer_id" (VId 7)) (get_collection p merge_db)) ∧
    StronglySorted posted_ge sorted ∧
    StronglySorted posted_ge (job_view <$> sorted).
Proof.
  apply (get_jobs_by_employer_complete merge_db (VId 7) (VId 7)).
  - reflexivity.
  - apply (bool_decide_unpack _). vm_compute. reflexivity.
  - apply (bool_decide_unpack _). vm_compute. reflexivity.
Defined.

(** X8, at [merge_db]. *)
Lemma admin_list_jobs_complete_witness :
  ∃ sorted,
    admin_list_jobs merge_db = (Ok (serialize_doc <$> sorted), merge_db) ∧
    sorted ≡ₚ _get_all_job_partitions merge_db ≫= admin_rows merge_db ∧
    StronglySorted posted_ge sorted.
Proof.
  apply (admin_list_jobs_complete merge_db).
  apply (bool_decide_unpack _). vm_compute. reflexivity.
Defined.

(** X9, at the job of [hiring_db]. *)
Lemma delete_job_found_witness :
  ∃ s', delete_job (VId 101) hiring_db = (Ok 1, s') ∧
        get_collection "applications" s' =
          List.filter (λ a, negb (field_is "job_id" (VId 101) a))
            (get_collection "applications" hiring_db) ∧
        get_collection "jobs_2025" s' =
          remove_first (field_is "_id" (VId 101)) (get_collection "jobs_2025" hiring_db) ∧
        get_job_by_id (VId 101) s' = (Ok None, s').
Proof.
  apply (delete_job_found hiring_db (VId 101) (VId 101) "jobs_2025"
           (first_doc "jobs_2025" hiring_db)).
  - reflexivity.
  - apply (bool_decide_unpack _). vm_compute. reflexivity.
  - apply (bool_decide_unpack _). vm_compute. reflexivity.
  - vm_compute. reflexivity.
  - refine (proj1 (Forall_forall
      (λ p', p' ≠ "jobs_2025" →
             List.find (field_is "_id" (VId 101)) (get_collection p' hiring_db) = None)
      (_get_all_job_partitions hiring_db)) _).
    apply (bool_decide_unpack _). vm_compute. reflexivity.
Defined.

(** X10, at the job of the unpartitioned collection of [merge_db] and a
    field set with a null title. *)
Lemma update_job_without_fields_witness :
  update_job (VId 31) {[ "title" := VNull ]} (mk_datetime 2025 9) merge_db = (Ok 0, merge_db).
Proof.
  apply (update_job_without_fields merge_db (VId 31) (VId 31) {[ "title" := VNull ]}
           (mk_datetime 2025 9) (first_doc "jobs" merge_db)).
  - reflexivity.
  - apply (bool_decide_unpack _). vm_compute. reflexivity.
  - refine (proj1 (Forall_forall
      (λ k, get_or ({[ "title" := VNull ]} : doc) k VNull = VNull) updatable) _).
    apply (bool_decide_unpack _). vm_compute. reflexivity.
Defined.

(** X11, at the same job and a new title. *)
Lemma update_job_patch_witness :
  ∃ s' d',
    update_job (VId 31) {[ "title" := VStr "Lead developer" ]} (mk_datetime 2025 9) merge_db
      = (Ok 1, s') ∧
    List.find (field_is "_id" (VId 31)) (get_collection "jobs" s') = Some d' ∧
    d' !! "updated_at" = Some (VDate (mk_datetime 2025 9)) ∧
    (∀ k v, k ∈ ["title"; "required_skills"; "description"; "location"; "status"] →
            ({[ "title" := VStr "Lead developer" ]} : doc) !! k = Some v → v ≠ VNull →
            d' !! k = Some v) ∧
    (∀ k, k ≠ "updated_at" →
          get_or {[ "title" := VStr "Lead developer" ]} k VNull = VNull →
          d' !! k = first_doc "jobs" merge_db !! k) ∧
    (∀ k, k ≠ "updated_at" → k ∉ updatable → d' !! k = first_doc "jobs" merge_db !! k) ∧
    (∀ c, c ≠ "jobs" → get_collection c s' = get_collection c merge_db).
Proof.
  apply (update_job_patch merge_db (VId 31) (VId 31) {[ "title" := VStr "Lead developer" ]}
           {[ "title" := VStr "Lead developer" ]} (mk_datetime 2025 9)
           (first_doc "jobs" merge_db)).
  - reflexivity.
  - apply (bool_decide_unpack _). vm_compute. reflexivity.
  - vm_compute. reflexivity.
  - apply (bool_decide_unpack _). vm_compute. reflexivity.
  - apply (bool_decide_unpack _). vm_compute. reflexivity.
Defined.

(** X12, at the worker and the job of [hiring_db]. *)
Lemma create_application_then_duplicate_witness :
  ∃ aid s1 app,
    create_application (VStr "000000000000000000000065") (VId 100)
      (mk_datetime 2025 6) (mk_datetime 2025 6) hiring_db = (Ok aid, s1) ∧
    pair_count (VId 101) (VId 100) s1 = 1%nat ∧
    get_application_by_id aid s1 = (Ok (Some app), s1) ∧
    app !! "application_id" = Some (VStr (py_str aid)) ∧
    app !! "application_status" = Some (VStr "pending") ∧
    app !! "job_id" = Some (serialize_value (VId 101)) ∧
    app !! "worker_id" = Some (serialize_value (VId 100)) ∧
    create_application (VStr "000000000000000000000065") (VId 100)
      (mk_datetime 2025 7) (mk_datetime 2025 7) s1 =
      (Err (ValueError "Application already exists for this job"), s1).
Proof.
  apply (create_application_then_duplicate hiring_db (VStr "000000000000000000000065")
           (VId 100) (VId 101) (VId 100)).
  - reflexivity.
  - reflexivity.
  - apply (bool_decide_unpack _). vm_compute. reflexivity.
  - vm_compute. reflexivity.
Defined.

(** X13, at the same worker and job. *)
Lemma create_then_delete_application_witness :
  ∃ aid s1 s2,
    create_application (VId 101) (VId 100) (mk_datetime 2025 6) (mk_datetime 2025 6)
      hiring_db = (Ok aid, s1) ∧
    delete_application aid s1 = (Ok 1, s2) ∧
    get_collection "applications" s2 = get_collection "applications" hiring_db ∧
    get_application_by_id aid s2 = (Ok None, s2).
Proof.
  apply (create_then_delete_application hiring_db (VId 101) (VId 100) (VId 101) (VId 100)).
  - reflexivity.
  - reflexivity.
  - apply (bool_decide_unpack _). vm_compute. reflexivity.
  - vm_compute. reflexivity.
Defined.

(** X14, at the application of [pending_db], given as a string. *)
Lemma update_application_status_spec_witness :
  (valid_status (VStr "approved") = false →
     update_application_status (VStr "000000000000000000000066") (VStr "approved")
       (mk_datetime 2025 8) pending_db =
       (Err (ValueError "Invalid status. Must be 'pending', 'approved', or 'rejected'"),
        pending_db)) ∧
  (∀ d, valid_status (VStr "approved") = true →
     List.find (field_is "_id" (VId 102)) (get_collection "applications" pending_db)
       = Some d →
     ∃ n s' app,
       update_application_status (VStr "000000000000000000000066") (VStr "approved")
         (mk_datetime 2025 8) pending_db = (Ok n, s') ∧
       get_application_by_id (VStr "000000000000000000000066") s' = (Ok (Some app), s') ∧
       app !! "application_status" = Some (serialize_value (VStr "approved")) ∧
       (∀ k, k ∉ ["application_status"; "updated_at"; "application_id"; "id"; "_id"] →
             app !! k = serialize_value <$> d !! k)).
Proof.
  apply (update_application_status_spec pending_db (VStr "000000000000000000000066")
           (VId 102) (VStr "approved") (mk_datetime 2025 8)).
  reflexivity.
Defined.

(** X15, at the worker record that [legacy_db] holds outside the
    partition of its hash. *)
Lemma upsert_worker_profile_outside_hash_witness :
  upsert_worker_profile (VId 100) {[ "phone" := VStr "555" ]} (mk_datetime 2025 3) legacy_db
    = (Ok 0, legacy_db) ∧
  ∃ r, get_worker_by_id (VId 100) legacy_db = (Ok (Some r), legacy_db).
Proof.
  apply (upsert_worker_profile_outside_hash legacy_db (VId 100) (VId 100)
           {[ "phone" := VStr "555" ]} (mk_datetime 2025 3)
           (first_doc "workers_partition_5" legacy_db)).
  - reflexivity.
  - apply (bool_decide_unpack _). vm_compute. reflexivity.
  - apply (bool_decide_unpack _). vm_compute. reflexivity.
Defined.


(** X17, at the same user. *)
Lemma ensure_then_get_worker_by_user_witness :
  ∃ r1 s1 r2 i,
    ensure_worker_row (VId 3) (VStr "Asha") (VStr "Python") (mk_datetime 2025 1) demo_db
      = (Ok r1, s1) ∧
    get_worker_by_user (VId 3) s1 = (Ok (Some r2), s1) ∧
    r1 !! "worker_id" = Some i ∧
    r2 !! "worker_id" = Some i ∧
    r2 !! "user_id" = Some (VStr (py_str (serialize_value (VId 3)))).
Proof.
  apply (ensure_then_get_worker_by_user demo_db (VId 3) (VId 3)).
  - reflexivity.
  - apply (bool_decide_unpack _). vm_compute. reflexivity.
  - apply (bool_decide_unpack _). vm_compute. reflexivity.
Defined.

(** X18, at a new user of [demo_db]. *)
Lemma create_user_round_trip_witness :
  ∃ uid s1 r,
    create_user (VStr "ravi@example.org") (VStr "$2b$hash") (VStr "employer")
      (mk_datetime 2025 1) demo_db = (Ok uid, s1) ∧
    get_user_by_id uid s1 = (Ok (Some r), s1) ∧
    r !! "user_id" = Some (VStr (py_str uid)) ∧
    r !! "email" = Some (serialize_value (VStr "ravi@example.org")) ∧
    r !! "password_hash" = Some (serialize_value (VStr "$2b$hash")) ∧
    r !! "role" = Some (serialize_value (VStr "employer")) ∧
    (List.find (field_is "email" (VStr "ravi@example.org")) (get_collection "users" demo_db)
       = None →
     get_user_by_email (VStr "ravi@example.org") s1 = (Ok (Some r), s1)).
Proof.
  apply (create_user_round_trip demo_db).
  apply (bool_decide_unpack _). vm_compute. reflexivity.
Defined.

(** X19, at the email of the user of [demo_db]. *)
Lemma create_user_duplicate_email_witness :
  ∃ uid s1,
    create_user (VStr "asha@example.org") (VStr "$2b$hash") (VStr "employer")
      (mk_datetime 2025 1) demo_db = (Ok uid, s1) ∧
    length (List.filter (field_is "email" (VStr "asha@example.org"))
              (get_collection "users" s1)) =
      S (length (List.filter (field_is "email" (VStr "asha@example.org"))
                   (get_collection "users" demo_db))) ∧
    (get_user_by_email (VStr "asha@example.org") s1).1 =
      (get_user_by_email (VStr "asha@example.org") demo_db).1.
Proof.
  apply (create_user_duplicate_email demo_db (VStr "asha@example.org") (VStr "$2b$hash")
           (VStr "employer") (mk_datetime 2025 1) demo_user).
  - apply (bool_decide_unpack _). vm_compute. reflexivity.
  - apply (bool_decide_unpack _). vm_compute. reflexivity.
Defined.

(** X20, at the employer's user of [office_db]. *)
Lemma delete_user_cascade_witness :
  ∃ s',
    delete_user (VStr "000000000000000000000004") office_db = (Ok 1, s') ∧
    get_user_by_id (VStr "000000000000000000000004") s' = (Ok None, s') ∧
    get_employer_by_user (VStr "000000000000000000000004") s' = (Ok None, s') ∧
    get_admin_by_user (VStr "000000000000000000000004") s' = (Ok None, s') ∧
    (∀ c, c ∉ ["workers"; "employers"; "admins"; "users"] →
          get_collection c s' = get_collection c office_db).
Proof.
  apply (delete_user_cascade office_db (VStr "000000000000000000000004") (VId 4)
           (default ∅ (get_collection "users" office_db !! 1%nat))).
  - reflexivity.
  - apply (bool_decide_unpack _). vm_compute. reflexivity.
  - vm_compute. lia.
  - vm_compute. lia.
  - vm_compute. lia.
Defined.

(** X21, at a new employer of [demo_db]. *)
Lemma register_employer_witness :
  ∃ uid s' user emp,
    register {[ "role" := VStr "employer"; "company_name" := VStr "Bricks" ]}
      (VStr "ravi@example.org") (VStr "$2b$hash") (mk_datetime 2025 1) (mk_datetime 2025 2)
      demo_db = (Ok (VStr uid), s') ∧
    get_user_by_id (VStr uid) s' = (Ok (Some user), s') ∧
    user !! "email" = Some (serialize_value (VStr "ravi@example.org")) ∧
    user !! "role" = Some (VStr "employer") ∧
    get_employer_by_user (VStr uid) s' = (Ok (Some emp), s') ∧
    emp !! "user_id" = Some (VStr uid) ∧
    emp !! "company_name" =
      Some (serialize_value
              (get_or {[ "role" := VStr "employer"; "company_name" := VStr "Bricks" ]}
                 "company_name" (VStr ""))) ∧
    emp !! "employer_name" =
      Some (serialize_value
              (get_or {[ "role" := VStr "employer"; "company_name" := VStr "Bricks" ]}
                 "employer_name" (VStr ""))).
Proof.
  apply (register_employer demo_db
           {[ "role" := VStr "employer"; "company_name" := VStr "Bricks" ]}
           (VStr "ravi@example.org") (VStr "$2b$hash")).
  - vm_compute. reflexivity.
  - apply ids_below_check. apply (bool_decide_unpack _). vm_compute. reflexivity.
  - vm_compute. reflexivity.
  - apply (bool_decide_unpack _). vm_compute. reflexivity.
  - apply (bool_decide_unpack _). vm_compute. reflexivity.
Defined.

(** X22, at the email of the user of [demo_db]. *)
Lemma register_existing_email_witness :
  ∃ s' u e,
    register {[ "role" := VStr "employer"; "company_name" := VStr "Bricks" ]}
      (VStr "asha@example.org") (VStr "$2b$hash") (mk_datetime 2025 1) (mk_datetime 2025 2)
      demo_db = (Ok (VStr (oid_str 3)), s') ∧
    get_collection "users" s' = (get_collection "users" demo_db ++ [u])%list ∧
    u !! "email" = Some (VStr "asha@example.org") ∧
    get_collection "employers" s' = (get_collection "employers" demo_db ++ [e])%list ∧
    e !! "user_id" = Some (VId 3).
Proof.
  apply (register_existing_email demo_db
           {[ "role" := VStr "employer"; "company_name" := VStr "Bricks" ]}
           (VStr "asha@example.org") (VStr "$2b$hash") (mk_datetime 2025 1)
           (mk_datetime 2025 2) demo_user 3).
  - vm_compute. reflexivity.
  - apply ids_below_check. apply (bool_decide_unpack _). vm_compute. reflexivity.
  - vm_compute. reflexivity.
  - apply (bool_decide_unpack _). vm_compute. reflexivity.
  - vm_compute. reflexivity.
  - vm_compute. reflexivity.
Defined.

(** X23, at user 3 of [demo_db]. *)
Lemma admin_profile_round_trip_witness :
  ∃ aid s1 s2 r,
    create_admin_profile (VStr "000000000000000000000003") (VStr "Asha") VNull
      (mk_datetime 2025 1) demo_db = (Ok aid, s1) ∧
    upsert_admin_profile (VStr (py_str aid)) {[ "admin_name" := VStr "Asha K" ]}
      (mk_datetime 2025 2) s1 = (Ok 1, s2) ∧
    get_admin_by_user (VStr "000000000000000000000003") s2 = (Ok (Some r), s2) ∧
    r !! "admin_id" = Some (VStr (py_str aid)) ∧
    r !! "user_id" = Some (VStr (py_str (serialize_value (VId 3)))) ∧
    r !! "admin_name" =
      Some (serialize_value (get_or {[ "admin_name" := VStr "Asha K" ]} "admin_name"
                               (VStr ""))) ∧
    r !! "department" =
      Some (serialize_value (get_or {[ "admin_name" := VStr "Asha K" ]} "department"
                               (VStr ""))).
Proof.
  apply (admin_profile_round_trip demo_db (VStr "000000000000000000000003") (VId 3)).
  - reflexivity.
  - apply (bool_decide_unpack _). vm_compute. reflexivity.
  - vm_compute. reflexivity.
  - apply (bool_decide_unpack _). vm_compute. reflexivity.
Defined.

(** The database after the employer approved the application of
    [pending_db] through the route. *)
Definition approved_db : db :=
  (api_employer_update_application (VStr "000000000000000000000004")
     {[ "status" := VStr "approved" ]} "000000000000000000000066" (mk_datetime 2025 8)
     pending_db).2.

(** X25, at the employer of the job of [pending_db]. *)
Lemma api_employer_update_application_owner_witness :
  (Ok ("updated", 200) ≠ Ok ("updated", 200) → approved_db = pending_db) ∧
  (Ok ("updated", 200) = Ok ("updated", 200) →
   ∃ aid a job_id j jd emp e n,
     get_or {[ "status" := VStr "approved" ]} "status" VNull
       ∈ [VStr "approved"; VStr "rejected"] ∧
     to_object_id (VStr "000000000000000000000066") = Ok aid ∧
     List.find (field_is "_id" aid) (get_collection "applications" pending_db) = Some a ∧
     a !! "job_id" = Some job_id ∧
     id_of_arg (VStr (py_str job_id)) = Ok j ∧
     first_hit (_get_all_job_partitions pending_db) (field_is "_id" j) pending_db = Some jd ∧
     get_employer_by_user (VStr "000000000000000000000004") pending_db
       = (Ok (Some emp), pending_db) ∧
     emp !! "employer_id" = Some e ∧
     py_str (get_or (job_view jd) "employer_id" VNull) = py_str e ∧
     update_application_status (VStr "000000000000000000000066")
       (get_or {[ "status" := VStr "approved" ]} "status" VNull) (mk_datetime 2025 8)
       pending_db = (Ok n, approved_db)).
Proof.
  apply (api_employer_update_application_owner pending_db approved_db
           (VStr "000000000000000000000004") {[ "status" := VStr "approved" ]}
           "000000000000000000000066" (mk_datetime 2025 8) (Ok ("updated", 200))).
  apply injective_projections; [vm_compute; reflexivity|reflexivity].
Defined.

(** X26, at the worker and the job of [hiring_db]. *)
Lemma api_worker_apply_twice_witness :
  ∃ s',
    api_worker_apply (VStr "000000000000000000000003")
      {[ "job_id" := VStr "000000000000000000000065" ]}
      (mk_datetime 2025 6) (mk_datetime 2025 6) hiring_db = (Ok ("applied", 200), s') ∧
    pair_count (VId 101) (VId 100) s' = 1%nat ∧
    api_worker_apply (VStr "000000000000000000000003")
      {[ "job_id" := VStr "000000000000000000000065" ]}
      (mk_datetime 2025 7) (mk_datetime 2025 7) s' =
      (Err (ValueError "Application already exists for this job"), s').
Proof.
  apply (api_worker_apply_twice hiring_db (VStr "000000000000000000000003") (VId 3)
           {[ "job_id" := VStr "000000000000000000000065" ]}
           (VStr "000000000000000000000065") (VId 101)
           (first_doc "workers_partition_2" hiring_db) (first_doc "jobs_2025" hiring_db) 100).
  - vm_compute. reflexivity.
  - reflexivity.
  - apply (bool_decide_unpack _). vm_compute. reflexivity.
  - vm_compute. reflexivity.
  - vm_compute. reflexivity.
  - vm_compute. reflexivity.
  - reflexivity.
  - apply (bool_decide_unpack _). vm_compute. reflexivity.
  - apply (bool_decide_unpack _). vm_compute. reflexivity.
  - vm_compute. reflexivity.
Defined.

(** X27, at the admin of [office_db], whose id is 10: the token holds the
    id in small letters, the path in capitals. *)
Lemma api_admin_delete_user_guard_witness :
  api_admin_delete_user (VStr "00000000000000000000000A") "00000000000000000000000A"
    office_db = (Ok ("Cannot delete your own account", 400), office_db) ∧
  ∃ s', api_admin_delete_user (VStr "00000000000000000000000a") "00000000000000000000000A"
          office_db = (Ok ("User deleted successfully", 200), s') ∧
        get_user_by_id (VStr "00000000000000000000000a") s' = (Ok None, s').
Proof.
  apply (api_admin_delete_user_guard office_db (VStr "00000000000000000000000a")
           "00000000000000000000000A" (VId 10)
           (default ∅ (get_collection "users" office_db !! 2%nat))).
  - vm_compute. reflexivity.
  - vm_compute. reflexivity.
  - discriminate.
  - apply (bool_decide_unpack _). vm_compute. reflexivity.
  - vm_compute. lia.
Defined.


(** X29, at the worker record that [legacy_db] holds outside the
    partition of its hash. *)
Lemma api_worker_update_profile_outside_hash_witness :
  api_worker_update_profile (VId 3) {[ "phone" := VStr "555" ]}
    (mk_datetime 2025 3) (mk_datetime 2025 4) legacy_db
    = (Ok ("worker profile saved", 200), legacy_db).
Proof.
  apply (api_worker_update_profile_outside_hash legacy_db (VId 3) (VId 3)
           {[ "phone" := VStr "555" ]} (mk_datetime 2025 3) (mk_datetime 2025 4)
           (first_doc "workers_partition_5" legacy_db) 100).
  - reflexivity.
  - apply (bool_decide_unpack _). vm_compute. reflexivity.
  - vm_compute. reflexivity.
  - vm_compute. reflexivity.
  - vm_compute. reflexivity.
  - apply (bool_decide_unpack _). vm_compute. reflexivity.
Defined.
